(** * A shallow embedding of src/tts.py

    The chat-style text-to-speech panel: the per-utterance [SpeechWorker]
    thread, the [Message] history and the handlers of [ChatTTSApp].

    - Python [str] values are sequences of Unicode code points ([list N]).
    - Python [int] is [Z]; slider readings and volumes are binary64 floats.
    - Python objects that are shared between the interactive thread and the
      worker threads (the [SpeechWorker] instances) live in a heap indexed by
      allocation order; [current_worker] is a reference into it.
    - Handlers run in a small state-and-exception monad, since an exception
      raised half-way through a Tk callback leaves the mutations done so far
      in place. *)

From Stdlib Require Import ZArith NArith List Lia String Ascii Bool.
From Stdlib Require Import DecimalPos DecimalN.
From Stdlib Require Import PrimFloat FloatOps FloatAxioms SpecFloat.
From stdpp Require Import base numbers list sorting relations.
Import ListNotations.
Open Scope Z_scope.

(* ================================================================== *)
(** * Python strings *)
(* ================================================================== *)

Module PyStr.

(** A [str] is a sequence of code points. *)
Abbreviation pystr := (list N).

(** ASCII literals of the source, as code points. *)
Definition py (s : string) : pystr := map N_of_ascii (list_ascii_of_string s).

Definition LF : N := 10%N.
Definition CR : N := 13%N.

(** [str.isspace] on one code point (the table behind [str.strip]). *)
Definition isspace (c : N) : bool :=
  ((9 <=? c) && (c <=? 13))%N || ((28 <=? c) && (c <=? 32))%N
  || (c =? 133)%N || (c =? 160)%N || (c =? 5760)%N
  || ((8192 <=? c) && (c <=? 8202))%N
  || (c =? 8232)%N || (c =? 8233)%N || (c =? 8239)%N
  || (c =? 8287)%N || (c =? 12288)%N.

Fixpoint lstrip (s : pystr) : pystr :=
  match s with
  | [] => []
  | c :: s' => if isspace c then lstrip s' else s
  end.

Definition rstrip (s : pystr) : pystr := rev (lstrip (rev s)).

(** [s.strip()] *)
Definition strip (s : pystr) : pystr := rstrip (lstrip s).

(** [c in s] for a one-character [c]. *)
Definition contains (c : N) (s : pystr) : bool := existsb (N.eqb c) s.

(** [s.split(sep, 1)[0]] and [s.split(sep, 1)[1]] for a one-character
    separator that occurs in [s]: the text before, and after, its first
    occurrence. *)
Fixpoint before (sep : N) (s : pystr) : pystr :=
  match s with
  | [] => []
  | c :: s' => if (c =? sep)%N then [] else c :: before sep s'
  end.

Fixpoint after (sep : N) (s : pystr) : pystr :=
  match s with
  | [] => []
  | c :: s' => if (c =? sep)%N then s' else after sep s'
  end.

(** [s.split()[0]]: the first whitespace-delimited token, if any. *)
Fixpoint token (s : pystr) : pystr :=
  match s with
  | [] => []
  | c :: s' => if isspace c then [] else c :: token s'
  end.

Definition first_token (s : pystr) : option pystr :=
  match lstrip s with
  | [] => None
  | t => Some (token t)
  end.

(** [s.split(sep)] for a one-character separator. *)
Fixpoint split_on (sep : N) (s : pystr) : list pystr :=
  match s with
  | [] => [[]]
  | c :: s' =>
      if (c =? sep)%N then [] :: split_on sep s'
      else match split_on sep s' with
           | l :: ls => (c :: l) :: ls
           | [] => [[c]]
           end
  end.

(** The lines of a text whose lines are each ended by a newline: what
    iterating over a text file yields (newlines removed), and what a Tk
    text widget holds above its final empty line. *)
Definition lines (s : pystr) : list pystr :=
  match rev (split_on LF s) with
  | [] :: ls => rev ls
  | _ => split_on LF s
  end.

(** ** Text files

    [open(path, 'w', encoding='utf-8')] writes text with every newline
    turned into the line separator of the platform ([crlf] when that is
    CR LF); reading a text file back turns CR LF and lone CR into a newline.
    The UTF-8 coding of the code points in between is left out. *)

Fixpoint write_text (crlf : bool) (s : pystr) : pystr :=
  match s with
  | [] => []
  | c :: s' =>
      if (c =? LF)%N
      then (if crlf then [CR; LF] else [LF]) ++ write_text crlf s'
      else c :: write_text crlf s'
  end.

Fixpoint read_text (disk : pystr) : pystr :=
  match disk with
  | [] => []
  | c :: disk' =>
      if (c =? CR)%N
      then LF :: match disk' with
                 | c' :: disk'' =>
                     if (c' =? LF)%N then read_text disk'' else read_text disk'
                 | [] => []
                 end
      else c :: read_text disk'
  end.

(** ** Decimal numerals *)

Fixpoint uint_codes (d : Decimal.uint) : pystr :=
  match d with
  | Decimal.Nil => []
  | Decimal.D0 d => 48%N :: uint_codes d
  | Decimal.D1 d => 49%N :: uint_codes d
  | Decimal.D2 d => 50%N :: uint_codes d
  | Decimal.D3 d => 51%N :: uint_codes d
  | Decimal.D4 d => 52%N :: uint_codes d
  | Decimal.D5 d => 53%N :: uint_codes d
  | Decimal.D6 d => 54%N :: uint_codes d
  | Decimal.D7 d => 55%N :: uint_codes d
  | Decimal.D8 d => 56%N :: uint_codes d
  | Decimal.D9 d => 57%N :: uint_codes d
  end.

(** [str(n)] for a natural number. *)
Definition str_of_N (n : N) : pystr := uint_codes (N.to_uint n).

(** [format(z, '0<w>d')]: sign-aware zero padding to a minimum width.  The
    integers formatted are the message counter, which counts up from 1, and
    the fields of a time; one of more than 4300 digits, which [format]
    refuses, is not among them. *)
Definition format_0d (w : nat) (z : Z) : pystr :=
  let digits := str_of_N (Z.abs_N z) in
  if z <? 0
  then 45%N :: replicate (w - 1 - length digits) 48%N ++ digits
  else replicate (w - length digits) 48%N ++ digits.

Definition is_digit (c : N) : bool := ((48 <=? c) && (c <=? 57))%N.

(** The digit part of an integer literal: decimal digits, with single
    underscores allowed between two digits. *)
Fixpoint digits_value (acc : Z) (after_digit : bool) (s : pystr) : option Z :=
  match s with
  | [] => if after_digit then Some acc else None
  | c :: s' =>
      if is_digit c then digits_value (10 * acc + (Z.of_N c - 48)) true s'
      else if (c =? 95)%N && after_digit then digits_value acc false s'
      else None
  end.

(** A reader of decimal numerals written in ASCII: surrounding whitespace,
    an optional sign, digits.  It is the reader of the export format; the
    conversion [int(s)] of the source is [int_of_str] below. *)
Definition py_int (s : pystr) : option Z :=
  match strip s with
  | c :: ds =>
      if (c =? 45)%N then option_map Z.opp (digits_value 0 false ds)
      else if (c =? 43)%N then digits_value 0 false ds
      else digits_value 0 false (c :: ds)
  | [] => None
  end.

(** ** [int(s)] on a [str]

    CPython turns the decimal digits and the whitespace of every script
    into ASCII, skips ASCII whitespace at both ends, reads an optional sign
    and the digits, and refuses a numeral of more digits than
    [sys.get_int_max_str_digits()]. *)

(** The digit zero of every run of decimal digits (category Nd) of Unicode
    14, the version of CPython 3.11; the digits one to nine follow each. *)
Definition decimal_zeros : list N :=
  [48; 1632; 1776; 1984; 2406; 2534; 2662; 2790; 2918; 3046; 3174; 3302;
   3430; 3558; 3664; 3792; 3872; 4160; 4240; 6112; 6160; 6470; 6608; 6784;
   6800; 6992; 7088; 7232; 7248; 42528; 43216; 43264; 43472; 43504; 43600;
   44016; 65296; 66720; 68912; 69734; 69872; 69942; 70096; 70384; 70736;
   70864; 71248; 71360; 71472; 71904; 72016; 72784; 73040; 73120; 92768;
   92864; 93008; 120782; 120792; 120802; 120812; 120822; 123200; 123632;
   125264; 130032]%N.

(** [Py_UNICODE_TODECIMAL]: the value of a decimal digit. *)
Definition decimal_of (c : N) : option N :=
  option_map (fun z => c - z)%N
    (List.find (fun z => (z <=? c) && (c <=? z + 9))%N decimal_zeros).

(** Characters below 127 stay, whitespace becomes a blank, a decimal digit
    its ASCII digit; anything else makes the conversion fail. *)
Fixpoint to_ascii_decimal (s : pystr) : option pystr :=
  match s with
  | [] => Some []
  | c :: s' =>
      if (c <? 127)%N then option_map (cons c) (to_ascii_decimal s')
      else if isspace c then option_map (cons 32%N) (to_ascii_decimal s')
      else match decimal_of c with
           | Some d => option_map (cons (48 + d)%N) (to_ascii_decimal s')
           | None => None
           end
  end.

(** [Py_ISSPACE]: the whitespace [int] skips once the text is ASCII. *)
Definition ascii_space (c : N) : bool :=
  ((9 <=? c) && (c <=? 13))%N || (c =? 32)%N.

Fixpoint skip_spaces (s : pystr) : pystr :=
  match s with
  | [] => []
  | c :: s' => if ascii_space c then skip_spaces s' else s
  end.

Definition trim_spaces (s : pystr) : pystr :=
  rev (skip_spaces (rev (skip_spaces s))).

(** An optional sign and the digits. *)
Definition signed_digits (s : pystr) : option Z :=
  match s with
  | c :: ds =>
      if (c =? 45)%N then option_map Z.opp (digits_value 0 false ds)
      else if (c =? 43)%N then digits_value 0 false ds
      else digits_value 0 false (c :: ds)
  | [] => None
  end.

(** The default of [sys.get_int_max_str_digits()], which the program does
    not change. *)
Definition int_max_str_digits : nat := 4300.

(** [int(s)] in base ten; [None] stands for [ValueError]. *)
Definition int_of_str (s : pystr) : option Z :=
  match to_ascii_decimal s with
  | None => None
  | Some a =>
      let numeral := trim_spaces a in
      if (length (filter (fun c => is_digit c = true) numeral)
          <=? int_max_str_digits)%nat
      then signed_digits numeral
      else None
  end.

End PyStr.
Import PyStr.

(* ================================================================== *)
(** * Local time: [datetime.fromtimestamp(ts).strftime(...)] *)
(* ================================================================== *)

Module Clock.

(** Every instant is rendered: [fromtimestamp] refuses instants outside the
    years 1 to 9999, which no reading of [time.time()] reaches, and the
    year is padded to four digits. *)

(** Days since 1970-01-01 to (year, month, day), proleptic Gregorian. *)
Definition civil_from_days (days : Z) : Z * Z * Z :=
  let z := days + 719468 in
  let era := z / 146097 in
  let doe := z - era * 146097 in
  let yoe := (doe - doe / 1460 + doe / 36524 - doe / 146096) / 365 in
  let doy := doe - (365 * yoe + yoe / 4 - yoe / 100) in
  let mp := (5 * doy + 2) / 153 in
  let d := doy - (153 * mp + 2) / 5 + 1 in
  let m := if mp <? 10 then mp + 3 else mp - 9 in
  let y := yoe + era * 400 in
  (if m <=? 2 then y + 1 else y, m, d).

(** ['%H:%M:%S'] of a count of seconds of local time. *)
Definition hms (local : Z) : pystr :=
  let sod := local mod 86400 in
  format_0d 2 (sod / 3600) ++ py ":" ++ format_0d 2 (sod mod 3600 / 60)
  ++ py ":" ++ format_0d 2 (sod mod 60).

(** ['%Y-%m-%d'] of a count of seconds of local time. *)
Definition ymd (local : Z) : pystr :=
  let '(y, m, d) := civil_from_days (local / 86400) in
  format_0d 4 y ++ py "-" ++ format_0d 2 m ++ py "-" ++ format_0d 2 d.

Section Zone.
(** The offset of local time from UTC, in seconds, at a given instant.
    Instants ([Message.ts], [time.time()]) are counted in microseconds
    since the epoch, the resolution [datetime] keeps. *)
Variable utcoffset : Z -> Z.

Definition localtime (ts : Z) : Z := ts / 1000000 + utcoffset ts.

(** [datetime.fromtimestamp(ts).strftime('%H:%M:%S')] *)
Definition strftime_HMS (ts : Z) : pystr := hms (localtime ts).

(** [datetime.fromtimestamp(ts).strftime('%Y-%m-%d %H:%M:%S')] *)
Definition strftime_full (ts : Z) : pystr :=
  ymd (localtime ts) ++ py " " ++ hms (localtime ts).
End Zone.

(** The zone of a host that keeps UTC. *)
Definition UTC : Z -> Z := fun _ => 0.

End Clock.

(* ================================================================== *)
(** * Exceptions and the handler monad *)
(* ================================================================== *)

(** The exception classes the source tells apart: [except SystemExit],
    [except Exception], and whatever else derives from [BaseException]
    only. *)
Inductive pyexc : Type :=
| SystemExit
| Exception (msg : pystr)
| BaseException (msg : pystr).

Definition is_Exception (e : pyexc) : bool :=
  match e with Exception _ => true | _ => false end.

Definition is_SystemExit (e : pyexc) : bool :=
  match e with SystemExit => true | _ => false end.

Inductive outcome (A : Type) : Type :=
| Ret (a : A)
| Raise (e : pyexc).
Arguments Ret {A} a.
Arguments Raise {A} e.

(** A computation over a mutable state [S] that returns or raises; the
    state reached so far survives a raise. *)
Definition M (S A : Type) : Type := S -> outcome A * S.

Definition ret {S A} (a : A) : M S A := fun s => (Ret a, s).
Definition raise {S A} (e : pyexc) : M S A := fun s => (Raise e, s).
Definition bind {S A B} (m : M S A) (k : A -> M S B) : M S B :=
  fun s => match m s with
           | (Ret a, s') => k a s'
           | (Raise e, s') => (Raise e, s')
           end.
Definition get {S} : M S S := fun s => (Ret s, s).
Definition modify {S} (f : S -> S) : M S unit := fun s => (Ret tt, f s).

Declare Scope py_scope.
Delimit Scope py_scope with py.
Notation "x <- m ;; k" := (bind m (fun x => k))
  (at level 100, m at next level, k at level 200, only parsing) : py_scope.
Notation "m ;; k" := (bind m (fun _ => k))
  (at level 100, k at level 200, only parsing) : py_scope.

(** [try: m  except C1 as e: h1 e  except C2 as e: h2 e ...]: the first
    clause whose class test accepts the exception handles it; what a handler
    raises is not offered to the clauses after it. *)
Definition try_except {S A} (m : M S A)
    (clauses : list ((pyexc -> bool) * (pyexc -> M S A))) : M S A :=
  fun s => match m s with
           | (Raise e, s') =>
               match List.find (fun c => fst c e) clauses with
               | Some c => snd c e s'
               | None => (Raise e, s')
               end
           | r => r
           end.

(** [try: m  except Exception: pass] *)
Definition try_pass {S} (m : M S unit) : M S unit :=
  try_except m [(is_Exception, fun _ => ret tt)].

(** [try: m  finally: fin] *)
Definition try_finally {S A} (m : M S A) (fin : M S unit) : M S A :=
  fun s => match m s with
           | (r, s') => match fin s' with
                        | (Ret _, s'') => (r, s'')
                        | (Raise e, s'') => (Raise e, s'')
                        end
           end.

(** An external call that either returns or raises. *)
Definition call {S} (raises : option pyexc) : M S unit :=
  match raises with
  | None => ret tt
  | Some e => raise e
  end.

(** Truth value of an optional [str]: [None] and [''] are false. *)
Definition truthy (s : option pystr) : bool :=
  match s with
  | None | Some [] => false
  | Some _ => true
  end.

(* ================================================================== *)
(** * Speech worker *)
(* ================================================================== *)

(** Life cycle of a [threading.Thread]: constructed, started and running
    [run], or terminated.  [is_alive()] holds in the middle state only. *)
Inductive thread_state : Type := Initial | Alive | Dead.

(** What the speech engine does during one [run], seen from the worker:
    which of its calls raise, how many 'started-word' notifications it
    delivers, and what [stop_flag.is_set()] returns at each of them (the
    flag is written by the interactive thread while [run] executes). *)
Record engine_run : Type := {
  init_raises : option pyexc;          (* pyttsx3.init() *)
  set_voice_raises : option pyexc;     (* setProperty("voice", ..) *)
  set_rate_raises : option pyexc;      (* setProperty("rate", ..) *)
  set_volume_raises : option pyexc;    (* setProperty("volume", ..) *)
  connect_raises : option pyexc;       (* connect('started-word', ..) *)
  say_raises : option pyexc;           (* say(text) *)
  word_flags : list bool;              (* is_set() at each word boundary *)
  runAndWait_raises : option pyexc;    (* runAndWait(), past the last word *)
  stop_raises : option pyexc;          (* stop() after runAndWait *)
  abort_stop_raises : option pyexc     (* stop() in the SystemExit handler *)
}.

Module SpeechWorker.

Record t : Type := {
  text : pystr;
  voice_id : option pystr;
  rate : Z;
  volume : float;
  stop_flag : bool;
  exc : option pyexc;
  thread : thread_state
}.

(** [SpeechWorker(text, voice_id, rate, volume)] *)
Definition new (text : pystr) (voice_id : option pystr) (rate : Z)
    (volume : float) : t :=
  {| text := text; voice_id := voice_id; rate := rate; volume := volume;
     stop_flag := false; exc := None; thread := Initial |}.

Definition is_alive (w : t) : bool :=
  match thread w with Alive => true | _ => false end.

(** [stop]: [self.stop_flag.set()] *)
Definition stop (w : t) : t :=
  {| text := text w; voice_id := voice_id w; rate := rate w;
     volume := volume w; stop_flag := true; exc := exc w;
     thread := thread w |}.

Definition set_exc (e : option pyexc) (w : t) : t :=
  {| text := text w; voice_id := voice_id w; rate := rate w;
     volume := volume w; stop_flag := stop_flag w; exc := e;
     thread := thread w |}.

Definition set_thread (th : thread_state) (w : t) : t :=
  {| text := text w; voice_id := voice_id w; rate := rate w;
     volume := volume w; stop_flag := stop_flag w; exc := exc w;
     thread := th |}.

(** [start()]: the thread is alive when [start] returns. *)
Definition start (w : t) : t := set_thread Alive w.

(** The frame of [run]: [self] and whether the local [engine] is bound to
    an engine handle (it is [None] until [pyttsx3.init()] has returned). *)
Record frame : Type := { self : t; engine : bool }.

Definition bind_engine : M frame unit :=
  modify (fun fr => {| self := self fr; engine := true |}).

Definition store_exc (e : pyexc) : M frame unit :=
  modify (fun fr => {| self := set_exc (Some e) (self fr); engine := engine fr |}).

Open Scope py_scope.

(** The callback registered for 'started-word'. *)
Definition on_word (flag_is_set : bool) : M frame unit :=
  if flag_is_set then raise SystemExit else ret tt.

(** [engine.runAndWait()]: the engine notifies [on_word] at each word it
    starts; what the callback raises comes out of [runAndWait]. *)
Fixpoint runAndWait (o : engine_run) (flags : list bool) : M frame unit :=
  match flags with
  | [] => call (runAndWait_raises o)
  | f :: flags' => on_word f ;; runAndWait o flags'
  end.

(** The body of the outer [try] of [run].  [int(self.rate)] and
    [float(self.volume)] are conversions of an [int] and a [float] and
    cannot fail. *)
Definition run_try (o : engine_run) : M frame unit :=
  call (init_raises o) ;;
  bind_engine ;;
  fr <- get ;;
  (if truthy (voice_id (self fr))
   then try_pass (call (set_voice_raises o))
   else ret tt) ;;
  try_pass (call (set_rate_raises o)) ;;
  try_pass (call (set_volume_raises o)) ;;
  call (connect_raises o) ;;
  call (say_raises o) ;;
  runAndWait o (word_flags o) ;;
  call (stop_raises o).

(** [except SystemExit:] stop the engine, best effort. *)
Definition on_SystemExit (o : engine_run) : M frame unit :=
  try_pass (fr <- get ;;
            if engine fr then call (abort_stop_raises o) else ret tt).

(** [finally:] [del engine], which cannot fail on a bound local. *)
Definition del_engine : M frame unit :=
  try_pass (modify (fun fr => {| self := self fr; engine := false |})).

Definition run (o : engine_run) : M frame unit :=
  try_finally
    (try_except (run_try o)
       [(is_SystemExit, fun _ => on_SystemExit o);
        (is_Exception, store_exc)])
    del_engine.

Close Scope py_scope.

(** The thread of a started worker, from [run] to termination: what [run]
    leaves in [self], and the exception that escapes [run], if any. *)
Definition run_thread (o : engine_run) (w : t) : t * option pyexc :=
  match run o {| self := w; engine := false |} with
  | (Ret _, fr) => (set_thread Dead (self fr), None)
  | (Raise e, fr) => (set_thread Dead (self fr), Some e)
  end.

End SpeechWorker.

(** An engine none of whose calls fails. *)
Definition quiet_engine (flags : list bool) : engine_run :=
  {| init_raises := None; set_voice_raises := None; set_rate_raises := None;
     set_volume_raises := None; connect_raises := None; say_raises := None;
     word_flags := flags; runAndWait_raises := None; stop_raises := None;
     abort_stop_raises := None |}.

(* ================================================================== *)
(** * Data model *)
(* ================================================================== *)

Module Message.
Record t : Type := { id : Z; ts : Z; text : pystr }.
End Message.

(** A voice descriptor of the engine.  [name] is [None] when the attribute
    is missing ([getattr(v, 'name', v.id)]). *)
Record Voice : Type := {
  voice_ident : pystr;
  voice_name : option pystr;
  voice_languages : list pystr
}.

(** The status line: 待命, 朗讀中…, 已停止. *)
Inductive status : Type := Idle | Speaking | Stopped.

(** The message boxes of the application. *)
Inductive dialog : Type :=
| InitFailed (e : pyexc)        (* showerror("初始化失敗", ..) *)
| SpeakFailed (e : pyexc)       (* showerror('朗讀失敗', f'{w.exc}') *)
| NothingToExport               (* showinfo('匯出', '目前沒有紀錄可匯出。') *)
| Saved (path : pystr).         (* showinfo('匯出', f'已儲存到:\n{path}') *)

(** Python's [min(a, b)] and [max(a, b)] on floats: the first argument
    unless the second compares strictly below (above) it. *)
Definition py_min (a b : float) : float := if (b <? a)%float then b else a.
Definition py_max (a b : float) : float := if (a <? b)%float then b else a.

(** [int(x)] on a float: truncation towards zero; [None] for a NaN
    ([ValueError]) or an infinity ([OverflowError]). *)
Definition py_int_of_float (x : float) : option Z :=
  match Prim2SF x with
  | S754_zero _ => Some 0
  | S754_finite s m e =>
      let mag := if 0 <=? e then Z.pos m * 2 ^ e else Z.pos m / 2 ^ (- e) in
      Some (if s then - mag else mag)
  | S754_infinity _ | S754_nan => None
  end.

(** [sep.join(l)] *)
Fixpoint join (sep : pystr) (l : list pystr) : pystr :=
  match l with
  | [] => []
  | [x] => x
  | x :: l' => x ++ sep ++ join sep l'
  end.

(** The label a voice has in the combobox. *)
Definition voice_label (v : Voice) : pystr :=
  default (voice_ident v) (voice_name v)
  ++ match voice_languages v with
     | [] => []
     | langs => py "  (" ++ join (py ", ") langs ++ py ")"
     end.

(** What happens to the speech sessions, worker by worker (a worker is
    named by its place in the order of construction). *)
Inductive action : Type :=
| FlagSet (i : nat)       (* the cancel flag of worker [i] goes from clear
                             to set *)
| Constructed (i : nat)   (* [SpeechWorker(..)] returns worker [i] *)
| Started (i : nat)       (* [start()] of worker [i] returns *)
| Ended (i : nat).        (* the thread of worker [i] terminates *)

(** Failure of the file of an export: [open] raises and there is no file,
    or a [write] (or the closing flush) raises and the file holds the
    first [n] characters. *)
Inductive io_failure : Type :=
| OpenFails (e : pyexc)
| WriteFails (e : pyexc) (n : nat).

(* ================================================================== *)
(** * The application *)
(* ================================================================== *)

Module ChatTTSApp.

Record t : Type := {
  voices : list Voice;  (* the voices the engine listed at start-up *)
  cmb_voice : pystr;  (* label shown by the voice combobox, '' if none *)
  sld_rate : float;  (* reading of the rate slider *)
  sld_volume : float;  (* reading of the volume slider *)
  messages : list Message.t;  (* the history *)
  auto_speak_var : bool;
  current_worker : option nat;  (* reference into [workers] *)
  next_id : Z;
  workers : list SpeechWorker.t;  (* every SpeechWorker constructed so far *)
  txt_log : list pystr;  (* the transcript widget: its lines that end in a newline *)
  txt_log_tail : pystr;  (* and the text after the last of them *)
  txt_input : pystr;  (* content of the input box *)
  rc_click_index : option nat;  (* line of the last right click, if any *)
  lbl_status : status;
  dialogs : list dialog;  (* message boxes shown so far, oldest first *)
  files : list (pystr * pystr);  (* path and text of each export, newest first *)
  trace : list action  (* what happened to the sessions so far, oldest first *)
}.

Definition set_cmb_voice (v : pystr) (st : t) : t :=
  {| voices := voices st; cmb_voice := v; sld_rate := sld_rate st;
     sld_volume := sld_volume st; messages := messages st; auto_speak_var
     := auto_speak_var st; current_worker := current_worker st; next_id :=
     next_id st; workers := workers st; txt_log := txt_log st;
     txt_log_tail := txt_log_tail st; txt_input := txt_input st;
     rc_click_index := rc_click_index st; lbl_status := lbl_status st;
     dialogs := dialogs st; files := files st; trace := trace st |}.
Definition set_sld_rate (v : float) (st : t) : t :=
  {| voices := voices st; cmb_voice := cmb_voice st; sld_rate := v;
     sld_volume := sld_volume st; messages := messages st; auto_speak_var
     := auto_speak_var st; current_worker := current_worker st; next_id :=
     next_id st; workers := workers st; txt_log := txt_log st;
     txt_log_tail := txt_log_tail st; txt_input := txt_input st;
     rc_click_index := rc_click_index st; lbl_status := lbl_status st;
     dialogs := dialogs st; files := files st; trace := trace st |}.
Definition set_sld_volume (v : float) (st : t) : t :=
  {| voices := voices st; cmb_voice := cmb_voice st; sld_rate := sld_rate
     st; sld_volume := v; messages := messages st; auto_speak_var :=
     auto_speak_var st; current_worker := current_worker st; next_id :=
     next_id st; workers := workers st; txt_log := txt_log st;
     txt_log_tail := txt_log_tail st; txt_input := txt_input st;
     rc_click_index := rc_click_index st; lbl_status := lbl_status st;
     dialogs := dialogs st; files := files st; trace := trace st |}.
Definition set_messages (v : list Message.t) (st : t) : t :=
  {| voices := voices st; cmb_voice := cmb_voice st; sld_rate := sld_rate
     st; sld_volume := sld_volume st; messages := v; auto_speak_var :=
     auto_speak_var st; current_worker := current_worker st; next_id :=
     next_id st; workers := workers st; txt_log := txt_log st;
     txt_log_tail := txt_log_tail st; txt_input := txt_input st;
     rc_click_index := rc_click_index st; lbl_status := lbl_status st;
     dialogs := dialogs st; files := files st; trace := trace st |}.
Definition set_auto_speak_var (v : bool) (st : t) : t :=
  {| voices := voices st; cmb_voice := cmb_voice st; sld_rate := sld_rate
     st; sld_volume := sld_volume st; messages := messages st;
     auto_speak_var := v; current_worker := current_worker st; next_id :=
     next_id st; workers := workers st; txt_log := txt_log st;
     txt_log_tail := txt_log_tail st; txt_input := txt_input st;
     rc_click_index := rc_click_index st; lbl_status := lbl_status st;
     dialogs := dialogs st; files := files st; trace := trace st |}.
Definition set_current_worker (v : option nat) (st : t) : t :=
  {| voices := voices st; cmb_voice := cmb_voice st; sld_rate := sld_rate
     st; sld_volume := sld_volume st; messages := messages st;
     auto_speak_var := auto_speak_var st; current_worker := v; next_id :=
     next_id st; workers := workers st; txt_log := txt_log st;
     txt_log_tail := txt_log_tail st; txt_input := txt_input st;
     rc_click_index := rc_click_index st; lbl_status := lbl_status st;
     dialogs := dialogs st; files := files st; trace := trace st |}.
Definition set_next_id (v : Z) (st : t) : t :=
  {| voices := voices st; cmb_voice := cmb_voice st; sld_rate := sld_rate
     st; sld_volume := sld_volume st; messages := messages st;
     auto_speak_var := auto_speak_var st; current_worker := current_worker
     st; next_id := v; workers := workers st; txt_log := txt_log st;
     txt_log_tail := txt_log_tail st; txt_input := txt_input st;
     rc_click_index := rc_click_index st; lbl_status := lbl_status st;
     dialogs := dialogs st; files := files st; trace := trace st |}.
Definition set_workers (v : list SpeechWorker.t) (st : t) : t :=
  {| voices := voices st; cmb_voice := cmb_voice st; sld_rate := sld_rate
     st; sld_volume := sld_volume st; messages := messages st;
     auto_speak_var := auto_speak_var st; current_worker := current_worker
     st; next_id := next_id st; workers := v; txt_log := txt_log st;
     txt_log_tail := txt_log_tail st; txt_input := txt_input st;
     rc_click_index := rc_click_index st; lbl_status := lbl_status st;
     dialogs := dialogs st; files := files st; trace := trace st |}.
Definition set_txt_log (v : list pystr) (st : t) : t :=
  {| voices := voices st; cmb_voice := cmb_voice st; sld_rate := sld_rate
     st; sld_volume := sld_volume st; messages := messages st;
     auto_speak_var := auto_speak_var st; current_worker := current_worker
     st; next_id := next_id st; workers := workers st; txt_log := v;
     txt_log_tail := txt_log_tail st; txt_input := txt_input st;
     rc_click_index := rc_click_index st; lbl_status := lbl_status st;
     dialogs := dialogs st; files := files st; trace := trace st |}.
Definition set_txt_log_tail (v : pystr) (st : t) : t :=
  {| voices := voices st; cmb_voice := cmb_voice st; sld_rate := sld_rate
     st; sld_volume := sld_volume st; messages := messages st;
     auto_speak_var := auto_speak_var st; current_worker := current_worker
     st; next_id := next_id st; workers := workers st; txt_log := txt_log
     st; txt_log_tail := v; txt_input := txt_input st; rc_click_index :=
     rc_click_index st; lbl_status := lbl_status st; dialogs := dialogs
     st; files := files st; trace := trace st |}.
Definition set_txt_input (v : pystr) (st : t) : t :=
  {| voices := voices st; cmb_voice := cmb_voice st; sld_rate := sld_rate
     st; sld_volume := sld_volume st; messages := messages st;
     auto_speak_var := auto_speak_var st; current_worker := current_worker
     st; next_id := next_id st; workers := workers st; txt_log := txt_log
     st; txt_log_tail := txt_log_tail st; txt_input := v; rc_click_index
     := rc_click_index st; lbl_status := lbl_status st; dialogs := dialogs
     st; files := files st; trace := trace st |}.
Definition set_rc_click_index (v : option nat) (st : t) : t :=
  {| voices := voices st; cmb_voice := cmb_voice st; sld_rate := sld_rate
     st; sld_volume := sld_volume st; messages := messages st;
     auto_speak_var := auto_speak_var st; current_worker := current_worker
     st; next_id := next_id st; workers := workers st; txt_log := txt_log
     st; txt_log_tail := txt_log_tail st; txt_input := txt_input st;
     rc_click_index := v; lbl_status := lbl_status st; dialogs := dialogs
     st; files := files st; trace := trace st |}.
Definition set_lbl_status (v : status) (st : t) : t :=
  {| voices := voices st; cmb_voice := cmb_voice st; sld_rate := sld_rate
     st; sld_volume := sld_volume st; messages := messages st;
     auto_speak_var := auto_speak_var st; current_worker := current_worker
     st; next_id := next_id st; workers := workers st; txt_log := txt_log
     st; txt_log_tail := txt_log_tail st; txt_input := txt_input st;
     rc_click_index := rc_click_index st; lbl_status := v; dialogs :=
     dialogs st; files := files st; trace := trace st |}.
Definition set_dialogs (v : list dialog) (st : t) : t :=
  {| voices := voices st; cmb_voice := cmb_voice st; sld_rate := sld_rate
     st; sld_volume := sld_volume st; messages := messages st;
     auto_speak_var := auto_speak_var st; current_worker := current_worker
     st; next_id := next_id st; workers := workers st; txt_log := txt_log
     st; txt_log_tail := txt_log_tail st; txt_input := txt_input st;
     rc_click_index := rc_click_index st; lbl_status := lbl_status st;
     dialogs := v; files := files st; trace := trace st |}.
Definition set_files (v : list (pystr * pystr)) (st : t) : t :=
  {| voices := voices st; cmb_voice := cmb_voice st; sld_rate := sld_rate
     st; sld_volume := sld_volume st; messages := messages st;
     auto_speak_var := auto_speak_var st; current_worker := current_worker
     st; next_id := next_id st; workers := workers st; txt_log := txt_log
     st; txt_log_tail := txt_log_tail st; txt_input := txt_input st;
     rc_click_index := rc_click_index st; lbl_status := lbl_status st;
     dialogs := dialogs st; files := v; trace := trace st |}.
Definition set_trace (v : list action) (st : t) : t :=
  {| voices := voices st; cmb_voice := cmb_voice st; sld_rate := sld_rate
     st; sld_volume := sld_volume st; messages := messages st;
     auto_speak_var := auto_speak_var st; current_worker := current_worker
     st; next_id := next_id st; workers := workers st; txt_log := txt_log
     st; txt_log_tail := txt_log_tail st; txt_input := txt_input st;
     rc_click_index := rc_click_index st; lbl_status := lbl_status st;
     dialogs := dialogs st; files := files st; trace := v |}.

(** [ttk.Scale.set], and a drag of the slider: the value is kept between
    the ends of the scale; a NaN is refused and the reading stays. *)
Definition scale_set (lo hi x reading : float) : float :=
  if (x =? x)%float
  then if (x <? lo)%float then lo else if (hi <? x)%float then hi else x
  else reading.

(** The state [__init__] leaves: the probe of the engine gave the voices,
    the preselected label and the slider defaults, or failed with [err].
    The sliders are [ttk.Scale(from_=80, to=260)] and
    [ttk.Scale(from_=0, to=100)], set to the defaults; a NaN default makes
    [set], and with it [__init__], fail, and the reading is put at the
    lower end here. *)
Definition init (vs : list Voice) (label : pystr) (rate0 volume0 : float)
    (err : option pyexc) : t :=
  {| voices := vs; cmb_voice := label;
     sld_rate := scale_set 80 260 rate0 80;
     sld_volume := scale_set 0 100 volume0 0;
     messages := []; auto_speak_var := true;
     current_worker := None; next_id := 1; workers := []; txt_log := [];
     txt_log_tail := []; txt_input := []; rc_click_index := None;
     lbl_status := Idle;
     dialogs := match err with Some e => [InitFailed e] | None => [] end;
     files := []; trace := [] |}.

Open Scope py_scope.

Section Handlers.
Variable utcoffset : Z -> Z.

(** ** Helpers *)

Definition _current_voice_id (st : t) : option pystr :=
  match cmb_voice st, voices st with
  | [], _ | _, [] => None
  | label, v0 :: _ =>
      match List.find (fun v => bool_decide (voice_label v = label)) (voices st) with
      | Some v => Some (voice_ident v)
      | None => Some (voice_ident v0)
      end
  end.

(** The line written for a message, with the given time stamp. *)
Definition log_line (stamp : pystr) (msg : Message.t) : pystr :=
  py "[" ++ format_0d 3 (Message.id msg) ++ py " " ++ stamp ++ py "] "
  ++ Message.text msg ++ [LF].

(** ** The transcript widget

    A Tk text widget ends in a newline of its own.  Before it the widget
    holds the lines [txt_log], each with its newline, and then
    [txt_log_tail]; its last line, the one that holds the final newline, is
    empty as long as every insertion ends in a newline. *)

(** The lines of the widget. *)
Definition text_lines (st : t) : list pystr := txt_log st ++ [txt_log_tail st].

(** [get(f"{i} linestart", f"{i} lineend")]: an index past the last line
    stands for the end of the text, where there is nothing to get. *)
Definition text_line (st : t) (i : nat) : pystr :=
  default [] (text_lines st !! i).

(** [insert('end', s)]: the text goes in front of the final newline. *)
Definition text_insert_end (s : pystr) (st : t) : t :=
  let parts := split_on LF (txt_log_tail st ++ s) in
  set_txt_log_tail (List.last parts [])
    (set_txt_log (txt_log st ++ removelast parts) st).

(** [delete(f"{i} linestart", f"{i} lineend+1c")].  A line above the last
    one goes with its newline.  On the last line the range reaches the end
    of the text: the final newline stays, and the newline in front of the
    line goes instead, so that the line before becomes the last line.  An
    index past the last line gives an empty range. *)
Definition text_delete_line (i : nat) (st : t) : t :=
  let n := length (txt_log st) in
  set_txt_log_tail
    (if (i =? n)%nat then List.last (txt_log st) [] else txt_log_tail st)
    (set_txt_log
       (if (i <? n)%nat then delete i (txt_log st)
        else if (i =? n)%nat then removelast (txt_log st)
        else txt_log st)
       st).

(** [delete('1.0', 'end')] *)
Definition text_delete_all (st : t) : t :=
  set_txt_log_tail [] (set_txt_log [] st).

Definition _append_log (msg : Message.t) : M t unit :=
  let ts_str := Clock.strftime_HMS utcoffset (Message.ts msg) in
  let line := log_line ts_str msg in
  modify (text_insert_end line).

Definition _replace_log_all (text : pystr) : M t unit :=
  modify text_delete_all ;;
  modify (text_insert_end text).

Definition _set_status (s : status) : M t unit := modify (set_lbl_status s).

Definition showdialog (d : dialog) : M t unit :=
  modify (fun st => set_dialogs (dialogs st ++ [d]) st).

(** The record of what happens to the sessions. *)
Definition note (a : action) : M t unit :=
  modify (fun st => set_trace (trace st ++ [a]) st).

(** ** Actions *)

(** [join(timeout=0.5)] waits for at most half a second; whether the
    worker terminates meanwhile is a step of the worker, not of this
    handler. *)
Definition stop_speaking (join : bool) : M t unit :=
  st <- get ;;
  match current_worker st with
  | Some i =>
      match workers st !! i with
      | Some w =>
          if SpeechWorker.is_alive w
          then
            (if SpeechWorker.stop_flag w then ret tt else note (FlagSet i)) ;;
            modify (set_workers (<[i := SpeechWorker.stop w]> (workers st)))
          else ret tt
      | None => ret tt
      end
  | None => ret tt
  end ;;
  _set_status Stopped.

Definition _speak_text (text : pystr) : M t unit :=
  stop_speaking false ;;
  st <- get ;;
  let voice_id := _current_voice_id st in
  match py_int_of_float (sld_rate st) with
  | None => raise (Exception (py "cannot convert float to integer"))
  | Some rate =>
      let volume := py_max 0 (py_min 1 (sld_volume st / 100)) in
      let worker := SpeechWorker.new text voice_id rate volume in
      let ref := length (workers st) in
      modify (set_workers (workers st ++ [worker])) ;;
      note (Constructed ref) ;;
      modify (set_current_worker (Some ref)) ;;
      _set_status Speaking ;;
      modify (fun st => set_workers (alter SpeechWorker.start ref (workers st)) st) ;;
      note (Started ref)
  end.

Definition send_message (now : Z) : M t unit :=
  st <- get ;;
  let text := strip (txt_input st ++ [LF]) in
  match text with
  | [] => ret tt
  | _ =>
      let msg := {| Message.id := next_id st; Message.ts := now;
                    Message.text := text |} in
      modify (set_next_id (next_id st + 1)) ;;
      modify (fun st => set_messages (messages st ++ [msg]) st) ;;
      _append_log msg ;;
      st <- get ;;
      if auto_speak_var st then _speak_text text else ret tt
  end.

Definition replay_last : M t unit :=
  st <- get ;;
  match last (messages st) with
  | None => ret tt
  | Some m => _speak_text (Message.text m)
  end.

(** What [export_log] writes: one [write] per message. *)
Definition export_text (msgs : list Message.t) : pystr :=
  concat (map (fun m => log_line (Clock.strftime_full utcoffset (Message.ts m)) m)
              msgs).

(** [path] is the answer of the file dialog, [''] when it is dismissed;
    [io] tells whether the file can be opened and written.  [open] and
    [write] are outside any [try]: what they raise leaves [export_log]. *)
Definition export_log (path : pystr) (io : option io_failure) : M t unit :=
  st <- get ;;
  match messages st with
  | [] => showdialog NothingToExport
  | _ =>
      match path with
      | [] => ret tt
      | _ =>
          match io with
          | Some (OpenFails e) => raise e
          | Some (WriteFails e n) =>
              modify (set_files
                        ((path, take n (export_text (messages st))) :: files st)) ;;
              raise e
          | None =>
              modify (set_files ((path, export_text (messages st)) :: files st)) ;;
              showdialog (Saved path)
          end
      end
  end.

(** [yes] is the answer to the confirmation box. *)
Definition clear_log (yes : bool) : M t unit :=
  st <- get ;;
  match messages st with
  | [] => ret tt
  | _ => if yes then modify (set_messages []) ;; _replace_log_all []
         else ret tt
  end.

(** ** Context menu handlers *)

Definition _on_log_right_click (line : nat) : M t unit :=
  modify (set_rc_click_index (Some line)).

(** The text of the line under the last right click; [AttributeError]
    when there was none. *)
Definition clicked_line : M t (nat * pystr) :=
  st <- get ;;
  match rc_click_index st with
  | None => raise (Exception (py "rc_click_index"))
  | Some i => ret (i, text_line st i)
  end.

Definition _ctx_replay : M t unit :=
  try_except
    (il <- clicked_line ;;
     let line := snd il in
     let text := if contains 93 line then strip (after 93 line)
                 else strip line in
     match text with
     | [] => ret tt
     | _ => _speak_text text
     end)
    [(is_Exception, fun _ => ret tt)].

(** [int(id_part.split()[0][1:])] *)
Definition parse_id (id_part : pystr) : M t Z :=
  match first_token id_part with
  | None => raise (Exception (py "list index out of range"))
  | Some tok =>
      match int_of_str (tail tok) with
      | None => raise (Exception (py "invalid literal for int()"))
      | Some z => ret z
      end
  end.

Definition starts_with_bracket (line : pystr) : bool :=
  match line with
  | c :: _ => (c =? 91)%N
  | [] => false
  end.

Definition _ctx_delete : M t unit :=
  try_except
    (il <- clicked_line ;;
     let '(i, line) := il in
     (if starts_with_bracket line && contains 93 line
      then
        let id_part := before 93 line in
        try_except
          (msg_id <- parse_id id_part ;;
           modify (fun st =>
             set_messages
               (filter (fun m => Message.id m ≠ msg_id) (messages st)) st))
          [(is_Exception, fun _ => ret tt)]
      else ret tt) ;;
     modify (text_delete_line i))
    [(is_Exception, fun _ => ret tt)].

(** ** Event helpers *)

(** [messagebox.showerror] returns when the box is dismissed; until then
    Tk keeps running timers, among them the polls that earlier speak
    requests have scheduled and that found the worker alive so far.
    [reentered] counts the polls that run while the box of this one is
    open, each inside the box of the one before. *)
Fixpoint _poll_worker_done (reentered : nat) : M t unit :=
  st <- get ;;
  match current_worker st with
  | None => ret tt
  | Some i =>
      match workers st !! i with
      | None => ret tt
      | Some w =>
          if SpeechWorker.is_alive w then ret tt
          else
            match SpeechWorker.exc w with
            | Some e =>
                showdialog (SpeakFailed e) ;;
                match reentered with
                | S n => _poll_worker_done n
                | O => ret tt
                end
            | None => ret tt
            end ;;
            modify (set_current_worker None) ;;
            _set_status Idle
      end
  end.

End Handlers.

Close Scope py_scope.

End ChatTTSApp.

(* ================================================================== *)
(** * Runs of the application *)
(* ================================================================== *)

(** What the user does at the window, and the timer of
    [_poll_worker_done].  Each handler runs to its end before the next
    event is taken, but for a poll that shows a message box (see [step]);
    the poll timer may fire at any time, which covers the times
    [after(120, ..)] schedules.  Closing the window ([destroy]) ends the
    run. *)
Inductive event : Type :=
| Edit (content : pystr)       (* typing in the input box; Shift+Enter
                                  inserts a newline *)
| Send (now : Z)               (* Enter, or the send button, at time [now] *)
| StopSpeaking
| ReplayLast
| ExportLog (path : pystr)      (* the export, the file being written *)
| ExportFails (path : pystr) (f : io_failure)  (* the export, the file
                                                  failing *)
| ClearLog (yes : bool)
| RightClick (line : nat)
| CtxReplay
| CtxDelete
| Poll
| PickVoice (label : pystr)
| SlideRate (x : float)
| SlideVolume (x : float)
| ToggleAutoSpeak (on : bool).

Section Runs.
Variable utcoffset : Z -> Z.

Import ChatTTSApp.

Definition handler (ev : event) : M ChatTTSApp.t unit :=
  match ev with
  | Edit s => modify (set_txt_input s)
  | Send now => send_message utcoffset now
  | StopSpeaking => stop_speaking true
  | ReplayLast => replay_last
  | ExportLog path => export_log utcoffset path None
  | ExportFails path f => export_log utcoffset path (Some f)
  | ClearLog yes => clear_log yes
  | RightClick line => _on_log_right_click line
  | CtxReplay => _ctx_replay
  | CtxDelete => _ctx_delete
  | Poll => _poll_worker_done 0
  | PickVoice label => modify (set_cmb_voice label)
  | SlideRate x =>
      modify (fun st => set_sld_rate (scale_set 80 260 x (sld_rate st)) st)
  | SlideVolume x =>
      modify (fun st => set_sld_volume (scale_set 0 100 x (sld_volume st)) st)
  | ToggleAutoSpeak on => modify (set_auto_speak_var on)
  end.

(** Tk reports an exception that escapes a callback and carries on with
    the state the callback left. *)
Definition dispatch (ev : event) (st : ChatTTSApp.t) : ChatTTSApp.t :=
  snd (handler ev st).

(** The thread of worker [i] runs to its end against the engine behaviour
    [o].  A word-boundary check can only have seen the flag set if the
    interactive thread has set it. *)
Definition worker_exit (i : nat) (o : engine_run) (st : ChatTTSApp.t)
    : option ChatTTSApp.t :=
  match workers st !! i with
  | Some w =>
      if SpeechWorker.is_alive w
         && implb (existsb (fun b => b) (word_flags o)) (SpeechWorker.stop_flag w)
      then Some (set_trace (trace st ++ [Ended i])
                   (set_workers
                      (<[i := fst (SpeechWorker.run_thread o w)]> (workers st))
                      st))
      else None
  | None => None
  end.

(** One step of a run: a window event or a poll, handled to its end; a
    poll whose message box is open while [S n] further polls run; the end
    of a worker thread. *)
Inductive step : ChatTTSApp.t -> ChatTTSApp.t -> Prop :=
| step_event (ev : event) (st : ChatTTSApp.t) : step st (dispatch ev st)
| step_poll_reentered (n : nat) (st : ChatTTSApp.t) :
    step st (snd (_poll_worker_done (S n) st))
| step_worker (i : nat) (o : engine_run) (st st' : ChatTTSApp.t) :
    worker_exit i o st = Some st' -> step st st'.

Inductive reachable : ChatTTSApp.t -> Prop :=
| reachable_init vs label rate0 volume0 err :
    reachable (init vs label rate0 volume0 err)
| reachable_step st st' : reachable st -> step st st' -> reachable st'.

(** The state after a list of window events. *)
Definition play (evs : list event) (st : ChatTTSApp.t) : ChatTTSApp.t :=
  fold_left (fun st ev => dispatch ev st) evs st.

End Runs.

(** A start-up with no voices and the fallback slider defaults. *)
Definition bare : ChatTTSApp.t := ChatTTSApp.init [] [] 180 100 None.


(* ================================================================== *)
(** * Notions used in the statements *)
(* ================================================================== *)

(** A text with something in it and no whitespace at either end. *)
Definition stripped (s : pystr) : Prop :=
  s <> []
  /\ (forall c, head s = Some c -> isspace c = false)
  /\ (forall c, last s = Some c -> isspace c = false).

(** The workers once [stop_speaking] has signalled the current one. *)
Definition signalled (st : ChatTTSApp.t) : list SpeechWorker.t :=
  match ChatTTSApp.current_worker st with
  | Some i =>
      match ChatTTSApp.workers st !! i with
      | Some w =>
          if SpeechWorker.is_alive w
          then <[i := SpeechWorker.stop w]> (ChatTTSApp.workers st)
          else ChatTTSApp.workers st
      | None => ChatTTSApp.workers st
      end
  | None => ChatTTSApp.workers st
  end.

(** What [stop_speaking] adds to the record of the sessions: the flag of
    the current worker is set, if that worker is alive and its flag clear. *)
Definition flag_actions (st : ChatTTSApp.t) : list action :=
  match ChatTTSApp.current_worker st with
  | Some i =>
      match ChatTTSApp.workers st !! i with
      | Some w =>
          if SpeechWorker.is_alive w && negb (SpeechWorker.stop_flag w)
          then [FlagSet i]
          else []
      | None => []
      end
  | None => []
  end.

(** The session [_speak_text] constructs in a state, for a rate [r]. *)
Definition session_for (st : ChatTTSApp.t) (text : pystr) (r : Z)
    : SpeechWorker.t :=
  SpeechWorker.new text (ChatTTSApp._current_voice_id st) r
    (py_max 0 (py_min 1 (ChatTTSApp.sld_volume st / 100))).

(** The message a submit stores. *)
Definition submitted (st : ChatTTSApp.t) (now : Z) : Message.t :=
  {| Message.id := ChatTTSApp.next_id st; Message.ts := now;
     Message.text := strip (ChatTTSApp.txt_input st) |}.

(** What one handler can do to the history. *)
Inductive history_change (st st' : ChatTTSApp.t) : Prop :=
| history_kept :
    ChatTTSApp.messages st' = ChatTTSApp.messages st ->
    ChatTTSApp.next_id st' = ChatTTSApp.next_id st ->
    history_change st st'
| history_appended (now : Z) :
    strip (ChatTTSApp.txt_input st) <> [] ->
    ChatTTSApp.messages st' = ChatTTSApp.messages st ++ [submitted st now] ->
    ChatTTSApp.next_id st' = ChatTTSApp.next_id st + 1 ->
    history_change st st'
| history_cleared :
    ChatTTSApp.messages st' = [] ->
    ChatTTSApp.next_id st' = ChatTTSApp.next_id st ->
    history_change st st'
| history_deleted (k : Z) :
    ChatTTSApp.messages st'
    = filter (fun m => Message.id m <> k) (ChatTTSApp.messages st) ->
    ChatTTSApp.next_id st' = ChatTTSApp.next_id st ->
    history_change st st'.

(** Order of two messages by id. *)
Definition id_lt (a b : Message.t) : Prop := Message.id a < Message.id b.

(** The ids of the history increase along it and lie below the counter. *)
Definition ids_fresh (st : ChatTTSApp.t) : Prop :=
  StronglySorted id_lt (ChatTTSApp.messages st)
  /\ Forall (fun m => Message.id m < ChatTTSApp.next_id st)
            (ChatTTSApp.messages st).

(** Every text of the history is stripped. *)
Definition texts_stripped (st : ChatTTSApp.t) : Prop :=
  Forall (fun m => stripped (Message.text m)) (ChatTTSApp.messages st).

(** The state in which [send_message] turns to speaking: the message is
    stored and logged. *)
Definition stored (utcoffset : Z -> Z) (st : ChatTTSApp.t) (now : Z)
    : ChatTTSApp.t :=
  ChatTTSApp.text_insert_end
    (ChatTTSApp.log_line (Clock.strftime_HMS utcoffset now) (submitted st now))
    (ChatTTSApp.set_messages (ChatTTSApp.messages st ++ [submitted st now])
       (ChatTTSApp.set_next_id (ChatTTSApp.next_id st + 1) st)).

(** ** Concrete runs *)

(** "Hello" was sent at the epoch, with auto-speak on. *)
Definition hello_sent : ChatTTSApp.t :=
  play Clock.UTC [Edit (py "Hello"); Send 0] bare.

(** After that, the input box holds a newline and two blanks. *)
Definition blank_input : ChatTTSApp.t :=
  dispatch Clock.UTC (Edit (py "
  ")) hello_sent.

(** "Hello" and "World" were sent one second apart. *)
Definition hello_world_sent : ChatTTSApp.t :=
  play Clock.UTC [Edit (py "World "); Send 1000000] hello_sent.

Definition next_id_of (st : ChatTTSApp.t) : Z := ChatTTSApp.next_id st.

(** The id [_ctx_delete] reads at the head of a transcript line. *)
Definition line_id (line : pystr) : option Z :=
  if ChatTTSApp.starts_with_bracket line && contains 93 line
  then match first_token (before 93 line) with
       | Some tok => int_of_str (tail tok)
       | None => None
       end
  else None.

(** "Hello" and "World" are in the transcript and its first line was
    right-clicked. *)
Definition hello_clicked : ChatTTSApp.t :=
  dispatch Clock.UTC (RightClick 0) hello_world_sent.

(** The current-worker reference is valid, and a worker that is alive
    without being the current one has been told to stop. *)
Definition sessions_ok (st : ChatTTSApp.t) : Prop :=
  (forall i, ChatTTSApp.current_worker st = Some i ->
             is_Some (ChatTTSApp.workers st !! i))
  /\ (forall j w, ChatTTSApp.workers st !! j = Some w ->
        SpeechWorker.is_alive w = true ->
        ChatTTSApp.current_worker st <> Some j ->
        SpeechWorker.stop_flag w = true).

(** What one step can do to the workers, to the current-worker reference
    and to the record of the sessions. *)
Inductive sessions_change (st st' : ChatTTSApp.t) : Prop :=
| sessions_kept :
    ChatTTSApp.workers st' = ChatTTSApp.workers st ->
    ChatTTSApp.current_worker st' = ChatTTSApp.current_worker st ->
    ChatTTSApp.trace st' = ChatTTSApp.trace st ->
    sessions_change st st'
| sessions_signalled :
    ChatTTSApp.workers st' = signalled st ->
    ChatTTSApp.current_worker st' = ChatTTSApp.current_worker st ->
    ChatTTSApp.trace st' = ChatTTSApp.trace st ++ flag_actions st ->
    sessions_change st st'
| sessions_replaced (w : SpeechWorker.t) :
    ChatTTSApp.workers st' = signalled st ++ [w] ->
    ChatTTSApp.current_worker st' = Some (length (ChatTTSApp.workers st)) ->
    SpeechWorker.is_alive w = true ->
    SpeechWorker.stop_flag w = false ->
    ChatTTSApp.trace st'
    = ChatTTSApp.trace st ++ flag_actions st
      ++ [Constructed (length (ChatTTSApp.workers st));
          Started (length (ChatTTSApp.workers st))] ->
    sessions_change st st'
| sessions_polled (i : nat) :
    ChatTTSApp.current_worker st = Some i ->
    (forall w, ChatTTSApp.workers st !! i = Some w ->
               SpeechWorker.is_alive w = false) ->
    ChatTTSApp.workers st' = ChatTTSApp.workers st ->
    ChatTTSApp.current_worker st' = None ->
    ChatTTSApp.trace st' = ChatTTSApp.trace st ->
    sessions_change st st'
| sessions_exited (i : nat) (w w' : SpeechWorker.t) :
    ChatTTSApp.workers st !! i = Some w ->
    SpeechWorker.is_alive w = true ->
    SpeechWorker.is_alive w' = false ->
    SpeechWorker.stop_flag w' = SpeechWorker.stop_flag w ->
    ChatTTSApp.workers st' = <[i := w']> (ChatTTSApp.workers st) ->
    ChatTTSApp.current_worker st' = ChatTTSApp.current_worker st ->
    ChatTTSApp.trace st' = ChatTTSApp.trace st ++ [Ended i] ->
    sessions_change st st'.

(** The order the specification asks of the sessions: whenever a session
    is constructed, every session started before it has by then had its
    cancel flag set, or has ended. *)
Definition cancel_precedes_construct (tr : list action) : Prop :=
  forall pre j post, tr = pre ++ Constructed j :: post ->
    forall i, Started i ∈ pre -> FlagSet i ∈ pre \/ Ended i ∈ pre.

(** The record of the sessions agrees with the workers: the sessions
    started are the workers, a worker that is not alive has ended, a set
    flag was set at some point, and the order above holds. *)
Definition trace_ok (st : ChatTTSApp.t) : Prop :=
  (forall i, Started i ∈ ChatTTSApp.trace st ->
             (i < length (ChatTTSApp.workers st))%nat)
  /\ (forall i w, ChatTTSApp.workers st !! i = Some w ->
        SpeechWorker.is_alive w = false -> Ended i ∈ ChatTTSApp.trace st)
  /\ (forall i w, ChatTTSApp.workers st !! i = Some w ->
        SpeechWorker.stop_flag w = true -> FlagSet i ∈ ChatTTSApp.trace st)
  /\ cancel_precedes_construct (ChatTTSApp.trace st).

(** A slider reading between the ends of its scale. *)
Definition within (lo hi x : float) : Prop :=
  (x <? lo)%float = false /\ (hi <? x)%float = false
  /\ (x =? x)%float = true.

(** Both sliders read between the ends of their scales. *)
Definition sliders_ok (st : ChatTTSApp.t) : Prop :=
  within 80 260 (ChatTTSApp.sld_rate st)
  /\ within 0 100 (ChatTTSApp.sld_volume st).

(** A session whose rate and volume are within what the sliders offer. *)
Definition session_in_range (w : SpeechWorker.t) : Prop :=
  80 <= SpeechWorker.rate w <= 260 /\ within 0 1 (SpeechWorker.volume w).

(** A best-effort setting went through, or failed in the way
    [except Exception: pass] swallows. *)
Definition tolerated (r : option pyexc) : Prop :=
  match r with
  | None => True
  | Some e => is_Exception e = true
  end.

(** The engine got as far as speaking: it was initialised, the settings
    went through or were swallowed, the callback was connected and the text
    queued. *)
Definition utterance_started (o : engine_run) : Prop :=
  init_raises o = None
  /\ tolerated (set_voice_raises o)
  /\ tolerated (set_rate_raises o)
  /\ tolerated (set_volume_raises o)
  /\ connect_raises o = None
  /\ say_raises o = None.

(** No word-boundary check saw the cancel flag set. *)
Definition never_cancelled (o : engine_run) : Prop :=
  Forall (fun b => b = false) (word_flags o).

(** The engine fails with [e] in the course of an utterance that is not
    cancelled first: the first of its calls to raise, the best-effort
    settings apart, raises [e]. *)
Inductive engine_fails (o : engine_run) (e : pyexc) : Prop :=
| fails_init :
    init_raises o = Some e -> engine_fails o e
| fails_connect :
    init_raises o = None -> tolerated (set_voice_raises o) ->
    tolerated (set_rate_raises o) -> tolerated (set_volume_raises o) ->
    connect_raises o = Some e -> engine_fails o e
| fails_say :
    init_raises o = None -> tolerated (set_voice_raises o) ->
    tolerated (set_rate_raises o) -> tolerated (set_volume_raises o) ->
    connect_raises o = None -> say_raises o = Some e -> engine_fails o e
| fails_runAndWait :
    utterance_started o -> never_cancelled o ->
    runAndWait_raises o = Some e -> engine_fails o e
| fails_stop :
    utterance_started o -> never_cancelled o ->
    runAndWait_raises o = None -> stop_raises o = Some e -> engine_fails o e.

(** [e] is raised by one of the calls of the utterance proper: starting
    the engine, connecting the callback, queueing the text, speaking it,
    stopping the engine afterwards. *)
Definition engine_raised (o : engine_run) (e : pyexc) : Prop :=
  In (Some e) [init_raises o; connect_raises o; say_raises o;
               runAndWait_raises o; stop_raises o].

(** [e] is raised by some call of the engine during the run. *)
Definition engine_raised_any (o : engine_run) (e : pyexc) : Prop :=
  In (Some e) [init_raises o; set_voice_raises o; set_rate_raises o;
               set_volume_raises o; connect_raises o; say_raises o;
               runAndWait_raises o; stop_raises o; abort_stop_raises o].

(** The failures of speech reported to the user so far. *)
Definition speak_failures (ds : list dialog) : list pyexc :=
  omap (fun d => match d with SpeakFailed e => Some e | _ => None end) ds.

(** An engine whose [runAndWait] breaks after two words. *)
Definition broken_engine : engine_run :=
  {| init_raises := None; set_voice_raises := None; set_rate_raises := None;
     set_volume_raises := Some (Exception (py "volume"));
     connect_raises := None; say_raises := None;
     word_flags := [false; false];
     runAndWait_raises := Some (Exception (py "device lost"));
     stop_raises := None; abort_stop_raises := None |}.

(** An engine that is cancelled at its third word and whose [stop] then
    fails. *)
Definition cancelled_engine : engine_run :=
  {| init_raises := None; set_voice_raises := None; set_rate_raises := None;
     set_volume_raises := None; connect_raises := None; say_raises := None;
     word_flags := [false; false; true; false];
     runAndWait_raises := Some (Exception (py "device lost"));
     stop_raises := None;
     abort_stop_raises := Some (Exception (py "busy")) |}.

(** A started worker that has been told to stop. *)
Definition stopping_worker : SpeechWorker.t :=
  SpeechWorker.stop
    (SpeechWorker.start (SpeechWorker.new (py "one two three four") None 180 1)).

(** The worker of [hello_sent] dies of [broken_engine]. *)
Definition hello_broken : ChatTTSApp.t :=
  ChatTTSApp.set_trace (ChatTTSApp.trace hello_sent ++ [Ended 0%nat])
    (ChatTTSApp.set_workers
       (<[0%nat := fst (SpeechWorker.run_thread broken_engine
                          (SpeechWorker.start
                             (session_for bare (py "Hello") 180)))]>
          (ChatTTSApp.workers hello_sent))
       hello_sent).

(** ** Reading an export back *)

(** What an export shows of a message: id, formatted time, text. *)
Definition entry : Type := Z * pystr * pystr.

Definition entry_of (utcoffset : Z -> Z) (m : Message.t) : entry :=
  (Message.id m, Clock.strftime_full utcoffset (Message.ts m), Message.text m).

(** The line of the export format for a message, newline apart:
    [[<id> <timestamp>] <text>]. *)
Definition export_record (utcoffset : Z -> Z) (m : Message.t) : pystr :=
  py "[" ++ format_0d 3 (Message.id m) ++ py " "
  ++ Clock.strftime_full utcoffset (Message.ts m) ++ py "] " ++ Message.text m.

(** A reader of one line of the export format: the id runs from the
    opening bracket to the first blank, the time stamp from there to the
    first closing bracket, the text starts after the blank that follows
    it. *)
Definition read_line (line : pystr) : option entry :=
  match line with
  | c :: rest =>
      if (c =? 91)%N && contains 93 rest
      then
        let head := before 93 rest in
        match after 93 rest with
        | sp :: text =>
            if (sp =? 32)%N
            then option_map (fun z => (z, after 32 head, text))
                            (py_int (before 32 head))
            else None
        | [] => None
        end
      else None
  | [] => None
  end.

(** The lines of a text file, as iterating over it yields them. *)
Definition file_lines (disk : pystr) : list pystr := lines (read_text disk).

(** Re-reading an export file: one entry per line. *)
Definition read_export (disk : pystr) : list (option entry) :=
  map read_line (file_lines disk).

(** A text without line break. *)
Definition single_line (s : pystr) : Prop :=
  Forall (fun c => c <> LF /\ c <> CR) s.

(** The sentence of the specification on the export format: each message
    has exactly one line of its own in the file. *)
Definition one_line_per_message (utcoffset : Z -> Z) (crlf : bool)
    (msgs : list Message.t) : Prop :=
  forall m, m ∈ msgs ->
    length (filter (fun l => l = export_record utcoffset m)
              (file_lines (write_text crlf (ChatTTSApp.export_text utcoffset msgs))))
    = 1%nat.

(** The sentence of the specification on the round trip: some way of
    reading the file gives back the entries of every non-empty history. *)
Definition export_round_trips (utcoffset : Z -> Z) (crlf : bool) : Prop :=
  exists read : pystr -> list entry,
    forall st, reachable utcoffset st -> ChatTTSApp.messages st <> [] ->
      read (write_text crlf (ChatTTSApp.export_text utcoffset (ChatTTSApp.messages st)))
      = map (entry_of utcoffset) (ChatTTSApp.messages st).

(** A message of two lines was sent (Shift+Enter between "a" and "b"). *)
Definition two_lines_sent : ChatTTSApp.t :=
  play Clock.UTC [Edit (py "a
b"); Send 0] bare.

(** One message whose second line looks like the record of a message. *)
Definition lookalike_sent : ChatTTSApp.t :=
  play Clock.UTC [Edit (py "a
[002 1970-01-01 00:00:00] b"); Send 0] bare.

(** Two messages, "a" and "b". *)
Definition a_b_sent : ChatTTSApp.t :=
  play Clock.UTC [Edit (py "a"); Send 0; Edit (py "b"); Send 0] bare.

(** The characters of a rendered integer, and of a rendered time stamp. *)
Definition numeral_char (c : N) : bool := is_digit c || (c =? 45)%N.

Definition stamp_char (c : N) : bool :=
  is_digit c || (c =? 45)%N || (c =? 58)%N || (c =? 32)%N.

(* ================================================================== *)
(** * Further notions: sessions, transcript, voices *)
(* ================================================================== *)

(** What a handler can do to the workers and to the current-worker
    reference: nothing, signal the current worker, signal it and start a
    new session, or drop the reference to a worker that has terminated. *)
Inductive handler_effect (st st' : ChatTTSApp.t) : Prop :=
| effect_none :
    ChatTTSApp.workers st' = ChatTTSApp.workers st ->
    ChatTTSApp.current_worker st' = ChatTTSApp.current_worker st ->
    handler_effect st st'
| effect_signal :
    ChatTTSApp.workers st' = signalled st ->
    ChatTTSApp.current_worker st' = ChatTTSApp.current_worker st ->
    handler_effect st st'
| effect_speak (s : ChatTTSApp.t) (text : pystr) (r : Z) :
    py_int_of_float (ChatTTSApp.sld_rate st) = Some r ->
    ChatTTSApp.workers st'
    = signalled st ++ [SpeechWorker.start (session_for s text r)] ->
    ChatTTSApp.current_worker st' = Some (length (ChatTTSApp.workers st)) ->
    handler_effect st st'
| effect_clear (i : nat) (w : SpeechWorker.t) :
    ChatTTSApp.current_worker st = Some i ->
    ChatTTSApp.workers st !! i = Some w ->
    SpeechWorker.is_alive w = false ->
    ChatTTSApp.workers st' = ChatTTSApp.workers st ->
    ChatTTSApp.current_worker st' = None ->
    handler_effect st st'.

(** A worker record at a later time: the parameters of the utterance are
    the same, a set cancel flag stays set, a captured failure stays
    captured, and a terminated worker is not touched at all. *)
Definition later_worker (w w' : SpeechWorker.t) : Prop :=
  SpeechWorker.text w' = SpeechWorker.text w
  /\ SpeechWorker.voice_id w' = SpeechWorker.voice_id w
  /\ SpeechWorker.rate w' = SpeechWorker.rate w
  /\ SpeechWorker.volume w' = SpeechWorker.volume w
  /\ (SpeechWorker.stop_flag w = true -> SpeechWorker.stop_flag w' = true)
  /\ (is_Some (SpeechWorker.exc w) -> is_Some (SpeechWorker.exc w'))
  /\ (SpeechWorker.is_alive w = false -> w' = w).

(** A worker with a captured failure. *)
Definition failed (w : SpeechWorker.t) : bool :=
  match SpeechWorker.exc w with
  | Some _ => true
  | None => false
  end.

Fixpoint count_failed (ws : list SpeechWorker.t) : nat :=
  match ws with
  | [] => 0
  | w :: ws' => (if failed w then 1 else 0) + count_failed ws'
  end.

(** A move of a run in which no poll is re-entered: a window event or a
    poll handled to its end, or the end of a worker thread. *)
Inductive move : Type :=
| Handle (ev : event)
| Exit (i : nat) (o : engine_run).

Definition make (utcoffset : Z -> Z) (mv : move) (st : ChatTTSApp.t)
    : option ChatTTSApp.t :=
  match mv with
  | Handle ev => Some (dispatch utcoffset ev st)
  | Exit i o => worker_exit i o st
  end.

(** The state after a list of moves, if each worker that ends is alive
    when it does. *)
Fixpoint run_moves (utcoffset : Z -> Z) (mvs : list move) (st : ChatTTSApp.t)
    : option ChatTTSApp.t :=
  match mvs with
  | [] => Some st
  | mv :: mvs' =>
      match make utcoffset mv st with
      | Some st' => run_moves utcoffset mvs' st'
      | None => None
      end
  end.

(** 1 when the current worker holds a failure that no poll has seen yet. *)
Definition unreported_current (st : ChatTTSApp.t) : nat :=
  match ChatTTSApp.current_worker st with
  | Some i =>
      match ChatTTSApp.workers st !! i with
      | Some w => if failed w then 1 else 0
      | None => 0
      end
  | None => 0
  end.

(** The line [_append_log] shows for a message, newline apart. *)
Definition log_record (utcoffset : Z -> Z) (m : Message.t) : pystr :=
  py "[" ++ format_0d 3 (Message.id m) ++ py " "
  ++ Clock.strftime_HMS utcoffset (Message.ts m) ++ py "] " ++ Message.text m.

(** An integer whose rendering [int] reads back: it has no more digits
    than [sys.get_int_max_str_digits()]. *)
Definition convertible (z : Z) : Prop :=
  (length (format_0d 3 z) <= int_max_str_digits)%nat.

(** The transcript shows the history, one line per message. *)
Definition in_sync (utcoffset : Z -> Z) (st : ChatTTSApp.t) : Prop :=
  ChatTTSApp.txt_log st = map (log_record utcoffset) (ChatTTSApp.messages st).

(** A text that the transcript widget shows on one line. *)
Definition no_newline (s : pystr) : Prop := Forall (fun c => c <> LF) s.

(** [_build_ui], lines 137-153: the label preselected in the voice
    combobox: that of the first voice whose id is the default voice id, of
    the first voice when there is none, nothing without voices. *)
Fixpoint index_of_voice (d : pystr) (vs : list Voice) : option nat :=
  match vs with
  | [] => None
  | v :: vs' =>
      if bool_decide (voice_ident v = d) then Some 0%nat
      else option_map S (index_of_voice d vs')
  end.

Definition preselected (vs : list Voice) (default_voice_id : pystr) : pystr :=
  match vs with
  | [] => []
  | _ =>
      let idx := default 0%nat (index_of_voice default_voice_id vs) in
      default [] (map voice_label vs !! idx)
  end.

(** ** More concrete runs *)

(** Two voices of an engine. *)
Definition two_voices : list Voice :=
  [ {| voice_ident := py "v.en"; voice_name := Some (py "Anna");
       voice_languages := [py "en_US"] |};
    {| voice_ident := py "v.zh"; voice_name := Some (py "Mei-Jia");
       voice_languages := [py "zh_TW"] |} ].

(** "Hello" and "World" are in the transcript and its second line was
    right-clicked. *)
Definition world_clicked : ChatTTSApp.t :=
  dispatch Clock.UTC (RightClick 1) hello_world_sent.

(** "Hello" and "World" are in the transcript and the empty line below
    them was right-clicked. *)
Definition below_clicked : ChatTTSApp.t :=
  dispatch Clock.UTC (RightClick 2) hello_world_sent.

(** As [hello_sent], with auto-speak switched off before a resend. *)
Definition hello_muted : ChatTTSApp.t :=
  dispatch Clock.UTC (ToggleAutoSpeak false) hello_sent.

(** A right click on the second line of a two-line message. *)
Definition continuation_clicked : ChatTTSApp.t :=
  dispatch Clock.UTC (RightClick 1) two_lines_sent.

(** The sliders were dragged beyond their ends: the rate upwards, the
    volume downwards. *)
Definition rate_dragged : ChatTTSApp.t :=
  play Clock.UTC [SlideRate infinity; SlideVolume (-5)] hello_sent.

(** The worker of [hello_broken] was polled. *)
Definition hello_reported : ChatTTSApp.t :=
  dispatch Clock.UTC Poll hello_broken.

(** After "Hello" and "World": the replaced worker of "Hello" dies of
    [broken_engine], a poll runs, the last message is replayed, a poll
    runs. *)
Definition hello_world_later : ChatTTSApp.t :=
  default hello_world_sent
    (run_moves Clock.UTC
       [Exit 0 broken_engine; Handle Poll; Handle ReplayLast; Handle Poll]
       hello_world_sent).

(** A computation that leaves the state as it found it. *)
Definition keeps {S A : Type} (m : M S A) : Prop := forall s, snd (m s) = s.

(** What a handler can do to the status line, together with the
    current-worker reference. *)
Inductive status_change (st st' : ChatTTSApp.t) : Prop :=
| status_kept :
    ChatTTSApp.lbl_status st' = ChatTTSApp.lbl_status st ->
    ChatTTSApp.current_worker st' = ChatTTSApp.current_worker st ->
    status_change st st'
| status_stopped :
    ChatTTSApp.lbl_status st' = Stopped -> status_change st st'
| status_speaking :
    ChatTTSApp.lbl_status st' = Speaking ->
    is_Some (ChatTTSApp.current_worker st') -> status_change st st'
| status_idle :
    ChatTTSApp.lbl_status st' = Idle ->
    ChatTTSApp.current_worker st' = None -> status_change st st'.

(** "Hello" is being spoken and the user presses stop. *)
Definition hello_stopped : ChatTTSApp.t :=
  dispatch Clock.UTC StopSpeaking hello_sent.

(** The stopped worker of [hello_stopped] has met the flag and ended. *)
Definition hello_cancelled : ChatTTSApp.t :=
  ChatTTSApp.set_trace (ChatTTSApp.trace hello_stopped ++ [Ended 0%nat])
    (ChatTTSApp.set_workers
       (<[0%nat := SpeechWorker.set_thread Dead
                     (SpeechWorker.stop
                        (SpeechWorker.start (session_for bare (py "Hello") 180)))]>
          (ChatTTSApp.workers hello_stopped))
       hello_stopped).

Example strip_example : strip (py "  ab c
 ") = py "ab c".
Proof. reflexivity. Qed.

Example lines_example : lines (py "[001 x] a
b
") = [py "[001 x] a"; py "b"].
Proof. reflexivity. Qed.

Example format_0d_examples :
  format_0d 3 7 = py "007" /\ format_0d 3 1234 = py "1234"
  /\ format_0d 3 (-5) = py "-05" /\ format_0d 2 0 = py "00".
Proof. repeat split; reflexivity. Qed.

Example py_int_examples :
  py_int (py "001") = Some 1 /\ py_int (py "-12") = Some (-12)
  /\ py_int (py "1_000") = Some 1000 /\ py_int (py "1__0") = None
  /\ py_int (py "") = None /\ py_int (py "12:30:00") = None.
Proof. repeat split; reflexivity. Qed.

Example strftime_examples :
  Clock.strftime_full Clock.UTC 0 = py "1970-01-01 00:00:00"
  /\ Clock.strftime_full Clock.UTC 1704067199999999 = py "2023-12-31 23:59:59"
  /\ Clock.strftime_full Clock.UTC 951825600000000 = py "2000-02-29 12:00:00"
  /\ Clock.strftime_full (fun _ => 28800) 1762214400000000 = py "2025-11-04 08:00:00"
  /\ Clock.strftime_HMS Clock.UTC 1762248896000000 = py "09:34:56".
Proof. repeat split; reflexivity. Qed.

Example run_to_completion :
  let w := SpeechWorker.start (SpeechWorker.new (py "hi") None 180 1%float) in
  SpeechWorker.run_thread (quiet_engine [false; false]) w
  = (SpeechWorker.set_thread Dead w, None).
Proof. reflexivity. Qed.

Example hello_world :
  let st := play Clock.UTC
              [Edit (py "Hello"); Send 0; Edit (py "World "); Send 1000000]
              bare in
  ChatTTSApp.txt_log st = [py "[001 00:00:00] Hello"; py "[002 00:00:01] World"]
  /\ map Message.id (ChatTTSApp.messages st) = [1; 2]
  /\ ChatTTSApp.current_worker st = Some 1%nat
  /\ map SpeechWorker.stop_flag (ChatTTSApp.workers st) = [true; false]
  /\ map SpeechWorker.text (ChatTTSApp.workers st) = [py "Hello"; py "World"]
  /\ ChatTTSApp.export_text Clock.UTC (ChatTTSApp.messages st)
     = py "[001 1970-01-01 00:00:00] Hello
[002 1970-01-01 00:00:01] World
".
Proof. vm_compute. repeat split; reflexivity. Qed.

Example text_file_examples :
  write_text true (py "a
b") = [97; 13; 10; 98]%N
  /\ read_text [97; 13; 10; 98; 13; 99]%N = py "a
b
c"
  /\ read_export (write_text true
                    (ChatTTSApp.export_text Clock.UTC
                       (ChatTTSApp.messages hello_world_sent)))
     = [Some (1, py "1970-01-01 00:00:00", py "Hello");
        Some (2, py "1970-01-01 00:00:01", py "World")].
Proof. repeat split; reflexivity. Qed.

Example multi_line_export :
  ChatTTSApp.export_text Clock.UTC (ChatTTSApp.messages two_lines_sent)
  = py "[001 1970-01-01 00:00:00] a
b
"
  /\ ChatTTSApp.export_text Clock.UTC (ChatTTSApp.messages lookalike_sent)
     = ChatTTSApp.export_text Clock.UTC (ChatTTSApp.messages a_b_sent).
Proof. split; reflexivity. Qed.

(* ================================================================== *)
(** * Properties of the string functions *)
(* ================================================================== *)

Section Strings.

Lemma lstrip_all_space (s : pystr) :
  forallb isspace s = true -> lstrip s = [].
Proof.
  induction s as [|c s IH]; simpl; [reflexivity|].
  intros H. apply andb_true_iff in H as [Hc Hs]. rewrite Hc. auto.
Qed.

Lemma lstrip_suffix (s : pystr) :
  exists pre, s = pre ++ lstrip s /\ forallb isspace pre = true.
Proof.
  induction s as [|c s [pre [IH1 IH2]]]; simpl.
  - exists []. auto.
  - destruct (isspace c) eqn:Hc.
    + exists (c :: pre). simpl. rewrite Hc, IH2. split; [congruence | reflexivity].
    + exists []. auto.
Qed.

Lemma lstrip_head (s : pystr) (c : N) (r : pystr) :
  lstrip s = c :: r -> isspace c = false.
Proof.
  induction s as [|d s IH]; simpl; [discriminate|].
  destruct (isspace d) eqn:Hd; [exact IH|].
  intros H. injection H as <- _. exact Hd.
Qed.

Lemma rstrip_prefix (s : pystr) :
  exists suf, s = rstrip s ++ suf /\ forallb isspace suf = true.
Proof.
  unfold rstrip. destruct (lstrip_suffix (rev s)) as [pre [H1 H2]].
  exists (rev pre). split.
  - rewrite <- rev_app_distr, <- H1. symmetry. apply rev_involutive.
  - rewrite forallb_forall in *. intros x Hx. apply H2.
    apply in_rev. exact Hx.
Qed.

Lemma strip_all_space (s : pystr) :
  forallb isspace s = true -> strip s = [].
Proof.
  intros H. unfold strip. rewrite (lstrip_all_space s H). reflexivity.
Qed.

Lemma strip_empty_iff (s : pystr) :
  strip s = [] <-> forallb isspace s = true.
Proof.
  split; [|apply strip_all_space].
  unfold strip. intros H.
  destruct (lstrip_suffix s) as [pre [H1 H2]].
  destruct (rstrip_prefix (lstrip s)) as [suf [H3 H4]].
  rewrite H in H3. simpl in H3. rewrite H1, H3.
  rewrite forallb_app, H2, H4. reflexivity.
Qed.

Lemma strip_stripped (s : pystr) : strip s <> [] -> stripped (strip s).
Proof.
  intros Hne. split; [exact Hne|]. split.
  - intros c Hc. unfold strip in *.
    destruct (rstrip_prefix (lstrip s)) as [suf [H3 _]].
    destruct (rstrip (lstrip s)) as [|d r] eqn:E; [discriminate|].
    simpl in Hc. injection Hc as ->.
    simpl in H3. eapply lstrip_head. exact H3.
  - intros c Hc. unfold strip, rstrip in *.
    destruct (lstrip (rev (lstrip s))) as [|d r] eqn:E.
    + simpl in Hne. congruence.
    + simpl in Hc. rewrite last_snoc in Hc. injection Hc as ->.
      eapply lstrip_head. exact E.
Qed.

Lemma lstrip_app_nonspace (s t : pystr) :
  lstrip s <> [] -> lstrip (s ++ t) = lstrip s ++ t.
Proof.
  induction s as [|c s IH]; simpl; [congruence|].
  destruct (isspace c); auto.
Qed.

Lemma strip_app_LF (s : pystr) : strip (s ++ [LF]) = strip s.
Proof.
  destruct (lstrip s) as [|c r] eqn:E.
  - assert (H : forallb isspace s = true).
    { destruct (lstrip_suffix s) as [pre [H1 H2]]. rewrite E, app_nil_r in H1.
      congruence. }
    rewrite (strip_all_space s H). apply strip_all_space.
    rewrite forallb_app, H. reflexivity.
  - unfold strip. rewrite lstrip_app_nonspace by congruence.
    unfold rstrip. rewrite rev_app_distr. reflexivity.
Qed.

End Strings.

(* ================================================================== *)
(** * What the handlers do to the state *)
(* ================================================================== *)

Section HandlerFacts.
Variable utcoffset : Z -> Z.
Import ChatTTSApp.

Ltac monad :=
  unfold bind, get, modify, ret, raise, showdialog, _set_status; simpl.

Lemma set_workers_same (st : t) : set_workers (workers st) st = st.
Proof. destruct st; reflexivity. Qed.

Lemma length_signalled (st : t) : length (signalled st) = length (workers st).
Proof.
  unfold signalled. destruct (current_worker st) as [i|]; [|reflexivity].
  destruct (workers st !! i) as [w|]; [|reflexivity].
  destruct (SpeechWorker.is_alive w); [apply length_insert | reflexivity].
Qed.

Lemma stop_speaking_spec (join : bool) (st : t) :
  stop_speaking join st
  = (Ret tt,
     set_lbl_status Stopped
       (set_workers (signalled st)
          (set_trace (trace st ++ flag_actions st) st))).
Proof.
  unfold stop_speaking, signalled, flag_actions, note. monad.
  destruct (current_worker st) as [i|]; simpl;
    [destruct (workers st !! i) as [w|]; simpl;
     [destruct (SpeechWorker.is_alive w); simpl;
      [destruct (SpeechWorker.stop_flag w); simpl|]|]|];
    try reflexivity; destruct st; simpl; rewrite ?app_nil_r; reflexivity.
Qed.

(** The state [stop_speaking] leaves. *)
Lemma stop_speaking_fields (join : bool) (st : t) :
  let st' := snd (stop_speaking join st) in
  workers st' = signalled st /\ current_worker st' = current_worker st
  /\ trace st' = trace st ++ flag_actions st /\ lbl_status st' = Stopped
  /\ messages st' = messages st /\ next_id st' = next_id st
  /\ txt_log st' = txt_log st /\ txt_log_tail st' = txt_log_tail st
  /\ dialogs st' = dialogs st /\ files st' = files st
  /\ sld_rate st' = sld_rate st /\ sld_volume st' = sld_volume st.
Proof. rewrite stop_speaking_spec. simpl. repeat split. Qed.

Lemma alter_start_last (l : list SpeechWorker.t) (w : SpeechWorker.t) :
  alter SpeechWorker.start (length l) (l ++ [w]) = l ++ [SpeechWorker.start w].
Proof.
  induction l as [|x l IH]; simpl; [reflexivity|]. f_equal. exact IH.
Qed.

Lemma _speak_text_spec (text : pystr) (st : t) :
  _speak_text text st
  = match py_int_of_float (sld_rate st) with
    | None =>
        (Raise (Exception (py "cannot convert float to integer")),
         set_lbl_status Stopped
           (set_workers (signalled st)
              (set_trace (trace st ++ flag_actions st) st)))
    | Some r =>
        (Ret tt,
         set_trace
           (trace st ++ flag_actions st
            ++ [Constructed (length (workers st));
                Started (length (workers st))])
           (set_lbl_status Speaking
              (set_current_worker (Some (length (workers st)))
                 (set_workers
                    (signalled st
                     ++ [SpeechWorker.start (session_for st text r)])
                    st))))
    end.
Proof.
  unfold _speak_text. unfold bind at 1. rewrite stop_speaking_spec.
  monad. destruct (py_int_of_float (sld_rate st)) as [r|]; [|reflexivity].
  unfold note. monad.
  rewrite alter_start_last, length_signalled, <- !app_assoc. reflexivity.
Qed.

(** The state a poll leaves that is re-entered [n] times. *)
Lemma _poll_worker_done_spec (n : nat) (st : t) :
  _poll_worker_done n st
  = (Ret tt,
     match current_worker st with
     | None => st
     | Some i =>
         match workers st !! i with
         | None => st
         | Some w =>
             if SpeechWorker.is_alive w then st
             else set_lbl_status Idle
                    (set_current_worker None
                       (set_dialogs
                          (dialogs st
                           ++ match SpeechWorker.exc w with
                              | Some e => replicate (S n) (SpeakFailed e)
                              | None => []
                              end) st))
         end
     end).
Proof.
  revert st. induction n as [|n IH]; intros st.
  - simpl. monad.
    destruct (current_worker st) as [i|]; simpl; [|reflexivity].
    destruct (workers st !! i) as [w|]; simpl; [|reflexivity].
    destruct (SpeechWorker.is_alive w); simpl; [reflexivity|].
    destruct (SpeechWorker.exc w); simpl; [reflexivity|].
    destruct st; simpl; rewrite app_nil_r; reflexivity.
  - cbn [_poll_worker_done]. unfold bind at 1, get at 1.
    destruct (current_worker st) as [i|] eqn:Hc; [|reflexivity].
    destruct (workers st !! i) as [w|] eqn:Hw; [|reflexivity].
    destruct (SpeechWorker.is_alive w) eqn:Ha; [reflexivity|].
    destruct (SpeechWorker.exc w) as [e|] eqn:He.
    + unfold bind at 1. unfold bind at 1. unfold showdialog at 1, modify at 1.
      rewrite IH. simpl. rewrite Hc, Hw, Ha, He. monad.
      rewrite <- app_assoc. reflexivity.
    + monad. destruct st; simpl; rewrite app_nil_r; reflexivity.
Qed.

End HandlerFacts.

#[global] Arguments ChatTTSApp._poll_worker_done : simpl never.

Section HistoryFacts.
Variable utcoffset : Z -> Z.
Import ChatTTSApp.

Ltac monad :=
  unfold bind, get, modify, ret, raise, showdialog, _set_status; simpl.

Lemma _speak_text_history (text : pystr) (st : t) :
  messages (snd (_speak_text text st)) = messages st
  /\ next_id (snd (_speak_text text st)) = next_id st.
Proof.
  rewrite _speak_text_spec.
  destruct (py_int_of_float (sld_rate st)); simpl; auto.
Qed.

Lemma send_message_history (now : Z) (st : t) :
  history_change st (snd (send_message utcoffset now st)).
Proof.
  unfold send_message. unfold bind at 1. unfold get at 1.
  rewrite strip_app_LF.
  destruct (strip (txt_input st)) as [|c r] eqn:E.
  - apply history_kept; reflexivity.
  - apply history_appended with (now := now); [congruence| |].
    + unfold submitted. rewrite E. monad.
      destruct (auto_speak_var st); [|reflexivity].
      match goal with |- messages (snd (_speak_text ?t ?s)) = _ =>
        rewrite (proj1 (_speak_text_history t s)) end.
      reflexivity.
    + monad. destruct (auto_speak_var st); [|reflexivity].
      match goal with |- next_id (snd (_speak_text ?t ?s)) = _ =>
        rewrite (proj2 (_speak_text_history t s)) end.
      reflexivity.
Qed.

Lemma _ctx_replay_history (st : t) :
  messages (snd (_ctx_replay st)) = messages st
  /\ next_id (snd (_ctx_replay st)) = next_id st.
Proof.
  unfold _ctx_replay, try_except, clicked_line. monad.
  destruct (rc_click_index st) as [i|]; simpl; [|auto].
  set (text := if contains 93 _ then _ else _).
  destruct text as [|c r]; simpl; [auto|].
  destruct (_speak_text_history (c :: r) st) as [H1 H2].
  destruct (_speak_text (c :: r) st) as [[a|e] s']; simpl in *; auto.
  destruct (is_Exception e); simpl; auto.
Qed.

Lemma _ctx_delete_history (st : t) :
  history_change st (snd (_ctx_delete st)).
Proof.
  unfold _ctx_delete, try_except, clicked_line, parse_id. monad.
  destruct (rc_click_index st) as [i|]; simpl;
    [|apply history_kept; reflexivity].
  destruct (starts_with_bracket _ && contains 93 _); simpl;
    [|apply history_kept; reflexivity].
  destruct (first_token _) as [tok|]; simpl;
    [|apply history_kept; reflexivity].
  destruct (int_of_str (tail tok)) as [k|]; simpl;
    [|apply history_kept; reflexivity].
  apply history_deleted with (k := k); reflexivity.
Qed.

Lemma _poll_worker_done_history (n : nat) (st : t) :
  messages (snd (_poll_worker_done n st)) = messages st
  /\ next_id (snd (_poll_worker_done n st)) = next_id st.
Proof.
  rewrite _poll_worker_done_spec. simpl.
  destruct (current_worker st) as [i|]; [|auto].
  destruct (workers st !! i) as [w|]; [|auto].
  destruct (SpeechWorker.is_alive w); auto.
Qed.

Lemma dispatch_history (ev : event) (st : t) :
  history_change st (dispatch utcoffset ev st).
Proof.
  unfold dispatch. destruct ev; simpl;
    try (apply history_kept; reflexivity).
  - apply send_message_history.
  - rewrite stop_speaking_spec. apply history_kept; reflexivity.
  - unfold replay_last. monad. destruct (last (messages st)) as [m|];
      [|apply history_kept; reflexivity].
    apply history_kept; apply _speak_text_history.
  - unfold export_log. monad. destruct (messages st); simpl;
      [apply history_kept; reflexivity|].
    destruct path; apply history_kept; reflexivity.
  - unfold export_log. monad. destruct (messages st); simpl;
      [apply history_kept; reflexivity|].
    destruct path; [|destruct f]; apply history_kept; reflexivity.
  - unfold clear_log. monad. destruct (messages st) eqn:E; simpl;
      [apply history_kept; simpl; congruence|].
    destruct yes; simpl;
      [apply history_cleared; reflexivity | apply history_kept; simpl; congruence].
  - apply history_kept; apply _ctx_replay_history.
  - apply _ctx_delete_history.
  - apply history_kept; apply _poll_worker_done_history.
Qed.

Lemma worker_exit_history (i : nat) (o : engine_run) (st st' : t) :
  worker_exit i o st = Some st' ->
  messages st' = messages st /\ next_id st' = next_id st.
Proof.
  unfold worker_exit. destruct (workers st !! i) as [w|]; [|discriminate].
  destruct (_ && _); [|discriminate].
  intros H. injection H as <-. auto.
Qed.

Lemma step_history (st st' : t) :
  step utcoffset st st' -> history_change st st'.
Proof.
  intros [ev s | n s | i o s s' H].
  - apply dispatch_history.
  - apply history_kept; apply _poll_worker_done_history.
  - apply history_kept; eapply worker_exit_history; exact H.
Qed.

End HistoryFacts.

(* ================================================================== *)
(** * Submitting a message *)
(* ================================================================== *)

Section Submit.
Variable utcoffset : Z -> Z.
Import ChatTTSApp.

Ltac monad :=
  unfold bind, get, modify, ret, raise, showdialog, _set_status; simpl.

Lemma send_message_blank (now : Z) (st : t) :
  strip (txt_input st) = [] -> send_message utcoffset now st = (Ret tt, st).
Proof.
  intros H. unfold send_message. unfold bind at 1, get at 1.
  rewrite strip_app_LF, H. reflexivity.
Qed.

Lemma send_message_spec (now : Z) (st : t) :
  strip (txt_input st) <> [] ->
  send_message utcoffset now st
  = if auto_speak_var st
    then _speak_text (strip (txt_input st)) (stored utcoffset st now)
    else (Ret tt, stored utcoffset st now).
Proof.
  intros H. unfold send_message. unfold bind at 1, get at 1.
  rewrite strip_app_LF. unfold stored, submitted.
  destruct (strip (txt_input st)) as [|c r] eqn:E; [congruence|].
  monad. destruct (auto_speak_var st); reflexivity.
Qed.

(** C4: a submit of an empty or all-whitespace input changes nothing: no
    message is appended, no id is assigned, no session is started. *)
Theorem blank_submit_is_noop (now : Z) (st : t) :
  forallb isspace (txt_input st) = true ->
  send_message utcoffset now st = (Ret tt, st)
  /\ dispatch utcoffset (Send now) st = st.
Proof.
  intros H. apply strip_all_space in H.
  unfold dispatch. simpl. rewrite (send_message_blank now st H). auto.
Qed.

End Submit.

Lemma blank_submit_is_noop_witness :
  forallb isspace (ChatTTSApp.txt_input blank_input) = true
  /\ ChatTTSApp.send_message Clock.UTC 5 blank_input = (Ret tt, blank_input)
  /\ dispatch Clock.UTC (Send 5) blank_input = blank_input.
Proof.
  split; [reflexivity|].
  apply (blank_submit_is_noop Clock.UTC 5 blank_input). reflexivity.
Defined.

(* ================================================================== *)
(** * Invariants of the history *)
(* ================================================================== *)

Section History.
Variable utcoffset : Z -> Z.
Import ChatTTSApp.

Lemma reachable_play (evs : list event) (st : t) :
  reachable utcoffset st -> reachable utcoffset (play utcoffset evs st).
Proof.
  revert st. induction evs as [|ev evs IH]; intros st H; simpl; [exact H|].
  apply IH. eapply reachable_step; [exact H | apply step_event].
Qed.

Lemma reachable_bare : reachable utcoffset bare.
Proof. apply reachable_init. Qed.

Lemma send_message_appends (now : Z) (st : t) :
  strip (txt_input st) <> [] ->
  messages (dispatch utcoffset (Send now) st) = messages st ++ [submitted st now]
  /\ next_id (dispatch utcoffset (Send now) st) = next_id st + 1.
Proof.
  intros H. unfold dispatch. simpl. rewrite (send_message_spec _ _ _ H).
  destruct (auto_speak_var st); [|auto].
  destruct (_speak_text_history (strip (txt_input st)) (stored utcoffset st now))
    as [-> ->]. auto.
Qed.

Lemma Forall_elem {A} (P : A -> Prop) (l : list A) (x : A) :
  Forall P l -> x ∈ l -> P x.
Proof.
  intros H Hx. rewrite List.Forall_forall in H. apply H.
  apply list_elem_of_In. exact Hx.
Qed.

Lemma Forall_filter_keep {A} (P Q : A -> Prop) `{forall x, Decision (Q x)}
    (l : list A) :
  Forall P l -> Forall P (filter Q l).
Proof.
  intros H0. apply List.Forall_forall. intros x Hx.
  apply list_elem_of_In, list_elem_of_filter in Hx as [_ Hx].
  eapply Forall_elem; eauto.
Qed.

Lemma filter_id_lt_sorted (k : Z) (l : list Message.t) :
  StronglySorted id_lt l ->
  StronglySorted id_lt (filter (fun m => Message.id m <> k) l).
Proof.
  induction 1 as [|x l Hs IH Hx]; [constructor|].
  rewrite filter_cons. destruct (decide (Message.id x <> k)); [|exact IH].
  constructor; [exact IH|]. apply Forall_filter_keep. exact Hx.
Qed.

Lemma history_change_ids (st st' : t) :
  history_change st st' -> ids_fresh st -> ids_fresh st'.
Proof.
  intros Hc [Hs Hb]. unfold ids_fresh.
  destruct Hc as [Hm Hn | now Hne Hm Hn | Hm Hn | k Hm Hn]; rewrite Hm, Hn.
  - auto.
  - split.
    + apply StronglySorted_app. split; [|split; [exact Hs | repeat constructor]].
      intros x1 x2 Hx1 Hx2. apply list_elem_of_singleton in Hx2 as ->.
      unfold id_lt. simpl. apply (Forall_elem _ _ _ Hb Hx1).
    + apply Forall_app. split.
      * eapply Forall_impl; [exact Hb|]. simpl. intros; lia.
      * constructor; [|constructor]. simpl. lia.
  - split; constructor.
  - split; [apply filter_id_lt_sorted; exact Hs|].
    apply Forall_filter_keep. exact Hb.
Qed.

Lemma history_change_texts (st st' : t) :
  history_change st st' -> texts_stripped st -> texts_stripped st'.
Proof.
  unfold texts_stripped.
  intros [Hm Hn | now Hne Hm Hn | Hm Hn | k Hm Hn] H; rewrite Hm.
  - exact H.
  - apply Forall_app. split; [exact H|]. constructor; [|constructor]. simpl.
    apply strip_stripped. exact Hne.
  - constructor.
  - apply Forall_filter_keep. exact H.
Qed.

Lemma reachable_ids_fresh (st : t) : reachable utcoffset st -> ids_fresh st.
Proof.
  induction 1 as [vs label r v err | st st' Hr IH Hs].
  - split; constructor.
  - eapply history_change_ids; [apply (step_history utcoffset); exact Hs | exact IH].
Qed.

Lemma reachable_texts_stripped (st : t) :
  reachable utcoffset st -> texts_stripped st.
Proof.
  induction 1 as [vs label r v err | st st' Hr IH Hs].
  - constructor.
  - eapply history_change_texts; [apply (step_history utcoffset); exact Hs | exact IH].
Qed.

Lemma reachable_steps (st st' : t) :
  reachable utcoffset st -> rtc (step utcoffset) st st' ->
  reachable utcoffset st'.
Proof.
  intros Hr Hs. induction Hs as [|x y z Hxy Hyz IH]; [exact Hr|].
  apply IH. eapply reachable_step; eauto.
Qed.

(** Later histories hold old messages or ids from the old counter on. *)
Lemma steps_ids (st st' : t) :
  rtc (step utcoffset) st st' ->
  next_id st <= next_id st'
  /\ forall m, m ∈ messages st' -> m ∈ messages st \/ next_id st <= Message.id m.
Proof.
  intros Hs. induction Hs as [x | x y z Hxy Hyz IH].
  - split; [lia | auto].
  - destruct IH as [IH1 IH2].
    apply (step_history utcoffset) in Hxy.
    destruct Hxy as [Hm Hn | now Hne Hm Hn | Hm Hn | k Hm Hn].
    + rewrite <- Hn, <- Hm. auto.
    + split; [lia|]. intros m Hin. destruct (IH2 m Hin) as [H|H]; [|right; lia].
      rewrite Hm in H. apply elem_of_app in H as [H|H]; [left; exact H|].
      apply list_elem_of_singleton in H as ->. right. simpl. lia.
    + split; [lia|]. intros m Hin. destruct (IH2 m Hin) as [H|H]; [|right; lia].
      rewrite Hm in H. inversion H.
    + split; [lia|]. intros m Hin. destruct (IH2 m Hin) as [H|H]; [|right; lia].
      rewrite Hm in H. apply list_elem_of_filter in H as [_ H]. left. exact H.
Qed.

(** C9: a successful submit appends a message whose id is the counter and
    advances the counter by one; so the ids of a reachable history are
    strictly increasing, and in any later state, whatever was deleted or
    cleared in between, a message is either one of the earlier history or
    carries an id at or above the earlier counter: no id is issued twice. *)
Theorem ids_are_never_reused (st st' : t) :
  reachable utcoffset st ->
  rtc (step utcoffset) st st' ->
  (forall now, strip (txt_input st) <> [] ->
     let sent := dispatch utcoffset (Send now) st in
     messages sent = messages st ++ [submitted st now]
     /\ Message.id (submitted st now) = next_id st
     /\ next_id sent = next_id st + 1)
  /\ StronglySorted id_lt (messages st)
  /\ (forall m, m ∈ messages st -> Message.id m < next_id st)
  /\ next_id st <= next_id st'
  /\ (forall m', m' ∈ messages st' ->
        m' ∈ messages st \/ next_id st <= Message.id m')
  /\ (forall m m', m ∈ messages st -> m' ∈ messages st' ->
        Message.id m' = Message.id m -> m' = m).
Proof.
  intros Hr Hs.
  destruct (reachable_ids_fresh st Hr) as [Hsorted Hbelow].
  destruct (steps_ids st st' Hs) as [Hmono Hlater].
  assert (Hb : forall m, m ∈ messages st -> Message.id m < next_id st).
  { intros m Hm. apply (Forall_elem _ _ _ Hbelow Hm). }
  split; [|split; [exact Hsorted | split; [exact Hb | split; [exact Hmono |
          split; [exact Hlater|]]]]].
  - intros now Hne sent. subst sent.
    destruct (send_message_appends now st Hne) as [H1 H2]. auto.
  - intros m m' Hm Hm' Heq.
    destruct (Hlater m' Hm') as [Hold | Hnew].
    + clear - Hsorted Hm Hold Heq.
      induction Hsorted as [|x l Hs IH Hx]; [inversion Hm|].
      apply elem_of_cons in Hm, Hold.
      destruct Hm as [-> | Hm], Hold as [-> | Hold]; auto.
      * pose proof (Forall_elem _ _ _ Hx Hold) as Hlt. unfold id_lt in Hlt. lia.
      * pose proof (Forall_elem _ _ _ Hx Hm) as Hlt. unfold id_lt in Hlt. lia.
    + apply Hb in Hm. lia.
Qed.

End History.

Lemma ids_are_never_reused_witness :
  reachable Clock.UTC hello_sent
  /\ rtc (step Clock.UTC) hello_sent hello_world_sent
  /\ next_id_of hello_sent <= next_id_of hello_world_sent.
Proof.
  assert (Hr : reachable Clock.UTC hello_sent).
  { unfold hello_sent. apply reachable_play, reachable_bare. }
  assert (Hs : rtc (step Clock.UTC) hello_sent hello_world_sent).
  { unfold hello_world_sent, play, fold_left.
    eapply rtc_l; [apply (step_event Clock.UTC (Edit (py "World ")))|].
    eapply rtc_l; [apply (step_event Clock.UTC (Send 1000000))|].
    apply rtc_refl. }
  split; [exact Hr|]. split; [exact Hs|].
  destruct (ids_are_never_reused Clock.UTC hello_sent hello_world_sent Hr Hs)
    as (_ & _ & _ & H & _).
  exact H.
Defined.

Section StoredText.
Variable utcoffset : Z -> Z.
Import ChatTTSApp.

Lemma lookup_fresh_session (l : list SpeechWorker.t) (n j : nat)
    (x w : SpeechWorker.t) :
  length l = n -> (n <= j)%nat -> (l ++ [x]) !! j = Some w -> j = n /\ w = x.
Proof.
  intros Hl Hj Hw. rewrite lookup_app_r in Hw by lia.
  destruct (j - length l)%nat as [|k] eqn:E; simpl in Hw.
  - injection Hw as <-. split; [lia | reflexivity].
  - destruct k; discriminate.
Qed.

(** C10: the message a submit stores carries the input stripped of leading
    and trailing whitespace; every text of a reachable history is therefore
    non-empty with no whitespace at either end; and a session constructed by
    the submit is given exactly the stored text. *)
Theorem stored_text_is_stripped (st : t) (now : Z) :
  reachable utcoffset st ->
  strip (txt_input st) <> [] ->
  let sent := dispatch utcoffset (Send now) st in
  messages sent = messages st ++ [submitted st now]
  /\ Message.text (submitted st now) = strip (txt_input st)
  /\ texts_stripped st
  /\ texts_stripped sent
  /\ (forall j w, (length (workers st) <= j)%nat -> workers sent !! j = Some w ->
        SpeechWorker.text w = Message.text (submitted st now))
  /\ (auto_speak_var st = true ->
      forall r, py_int_of_float (sld_rate st) = Some r ->
        current_worker sent = Some (length (workers st))
        /\ exists w, workers sent !! length (workers st) = Some w
                     /\ SpeechWorker.text w = Message.text (submitted st now)).
Proof.
  intros Hr Hne sent.
  assert (Hsent : reachable utcoffset sent).
  { eapply reachable_step; [exact Hr | apply step_event]. }
  split; [apply (send_message_appends utcoffset now st Hne)|].
  split; [reflexivity|].
  split; [apply (reachable_texts_stripped utcoffset st Hr)|].
  split; [apply (reachable_texts_stripped utcoffset sent Hsent)|].
  subst sent. unfold dispatch. simpl. rewrite (send_message_spec _ _ _ Hne).
  assert (Hlen : length (signalled (stored utcoffset st now)) = length (workers st)).
  { rewrite length_signalled. reflexivity. }
  destruct (auto_speak_var st).
  - rewrite _speak_text_spec.
    change (sld_rate (stored utcoffset st now)) with (sld_rate st).
    destruct (py_int_of_float (sld_rate st)) as [r|];
      cbn [snd workers current_worker set_lbl_status set_current_worker
           set_workers set_trace]; split.
    + intros j w Hj Hw.
      destruct (lookup_fresh_session _ _ _ _ _ Hlen Hj Hw) as [_ ->].
      reflexivity.
    + intros _ r' Hr'. injection Hr' as <-. split; [reflexivity|].
      eexists. split.
      * rewrite lookup_app_r by lia. rewrite Hlen, Nat.sub_diag. reflexivity.
      * reflexivity.
    + intros j w Hj Hw. apply lookup_lt_Some in Hw. exfalso. lia.
    + intros _ r' Hr'. discriminate.
  - cbn [snd]. split.
    + intros j w Hj Hw. apply lookup_lt_Some in Hw.
      change (workers (stored utcoffset st now)) with (workers st) in Hw.
      exfalso. lia.
    + discriminate.
Qed.

End StoredText.

Lemma stored_text_is_stripped_witness :
  reachable Clock.UTC hello_sent
  /\ strip (ChatTTSApp.txt_input hello_sent) <> []
  /\ texts_stripped (dispatch Clock.UTC (Send 7) hello_sent).
Proof.
  assert (Hr : reachable Clock.UTC hello_sent).
  { unfold hello_sent. apply reachable_play, reachable_bare. }
  assert (Hne : strip (ChatTTSApp.txt_input hello_sent) <> []).
  { vm_compute. discriminate. }
  split; [exact Hr|]. split; [exact Hne|].
  destruct (stored_text_is_stripped Clock.UTC hello_sent 7 Hr Hne)
    as (_ & _ & _ & H & _).
  exact H.
Defined.

(* ================================================================== *)
(** * Deleting a message *)
(* ================================================================== *)

Section Delete.
Variable utcoffset : Z -> Z.
Import ChatTTSApp.

Lemma _ctx_delete_spec (st : t) (i : nat) :
  rc_click_index st = Some i ->
  _ctx_delete st
  = (Ret tt,
     text_delete_line i
       match line_id (text_line st i) with
       | Some k =>
           set_messages (filter (fun m => Message.id m <> k) (messages st)) st
       | None => st
       end).
Proof.
  intros Hi. unfold _ctx_delete, try_except, clicked_line, parse_id, line_id.
  unfold bind, get, modify, ret, raise. rewrite Hi. simpl.
  destruct (starts_with_bracket _ && contains 93 _); simpl; [|reflexivity].
  destruct (first_token _) as [tok|]; simpl; [|reflexivity].
  destruct (int_of_str (tail tok)) as [k|]; reflexivity.
Qed.

Lemma filter_all {A} (P : A -> Prop) `{forall x, Decision (P x)} (l : list A) :
  Forall P l -> filter P l = l.
Proof.
  induction 1 as [|x l Hx Hl IH]; [reflexivity|].
  rewrite filter_cons. destruct (decide (P x)); [|contradiction].
  f_equal. exact IH.
Qed.

Lemma filter_out_sorted (k : Z) (l : list Message.t) :
  StronglySorted id_lt l ->
  forall m, m ∈ l -> Message.id m = k ->
  exists l1 l2,
    l = l1 ++ m :: l2
    /\ filter (fun m' => Message.id m' <> k) l = l1 ++ l2
    /\ Forall (fun m' => Message.id m' <> k) (l1 ++ l2).
Proof.
  induction 1 as [|x l Hs IH Hx]; intros m Hm Hk; [inversion Hm|].
  assert (Hl : Message.id x = k -> Forall (fun m' => Message.id m' <> k) l).
  { intros Hxk. eapply Forall_impl; [exact Hx|]. unfold id_lt. simpl.
    intros; lia. }
  rewrite filter_cons. apply elem_of_cons in Hm as [-> | Hm].
  - exists [], l. destruct (decide (Message.id x <> k)); [contradiction|].
    simpl. rewrite (filter_all _ _ (Hl Hk)). auto.
  - destruct (decide (Message.id x <> k)) as [Hne | Heq].
    + destruct (IH m Hm Hk) as (l1 & l2 & E1 & E2 & E3).
      exists (x :: l1), l2. simpl. rewrite E2. split; [congruence|].
      split; [reflexivity|]. constructor; assumption.
    + exfalso. assert (Hxk : Message.id x = k) by lia.
      pose proof (Forall_elem _ _ _ (Hl Hxk) Hm) as Hc. simpl in Hc. lia.
Qed.

(** C8: in a reachable state whose history has a message with id [k],
    deleting at a line of the transcript widget that the handler reads as
    id [k] (the text between the opening bracket and the first blank, read
    by [int]: digits of any script, at most 4300 of them) removes that one
    message and nothing else: the history is the old one with the entry cut
    out, no entry with id [k] is left, and neither the workers (their cancel
    flags included) nor the current-worker reference nor the id counter nor
    the record of the sessions change. *)
Theorem delete_removes_exactly_one (st : t) (i : nat) (k : Z) :
  reachable utcoffset st ->
  rc_click_index st = Some i ->
  line_id (text_line st i) = Some k ->
  (exists m, m ∈ messages st /\ Message.id m = k) ->
  let st' := dispatch utcoffset CtxDelete st in
  (exists l1 m l2,
      messages st = l1 ++ m :: l2
      /\ Message.id m = k
      /\ messages st' = l1 ++ l2
      /\ Forall (fun m' => Message.id m' <> k) (messages st'))
  /\ length (messages st) = S (length (messages st'))
  /\ workers st' = workers st
  /\ current_worker st' = current_worker st
  /\ next_id st' = next_id st
  /\ trace st' = trace st.
Proof.
  intros Hr Hi Hk [m [Hm Hmk]] st'. subst st'.
  unfold dispatch. simpl. rewrite (_ctx_delete_spec st i Hi), Hk. simpl.
  destruct (reachable_ids_fresh utcoffset st Hr) as [Hs _].
  destruct (filter_out_sorted k _ Hs m Hm Hmk) as (l1 & l2 & E1 & E2 & E3).
  split; [|split; [|auto 6]].
  - exists l1, m, l2. rewrite E2. auto.
  - rewrite E2, E1, !length_app. simpl. lia.
Qed.

End Delete.

Lemma delete_removes_exactly_one_witness :
  reachable Clock.UTC hello_clicked
  /\ ChatTTSApp.rc_click_index hello_clicked = Some 0%nat
  /\ line_id (ChatTTSApp.text_line hello_clicked 0) = Some 1
  /\ map Message.id (ChatTTSApp.messages hello_clicked) = [1; 2]
  /\ ChatTTSApp.workers (dispatch Clock.UTC CtxDelete hello_clicked)
     = ChatTTSApp.workers hello_clicked.
Proof.
  assert (Hr : reachable Clock.UTC hello_clicked).
  { unfold hello_clicked, hello_world_sent, hello_sent.
    eapply reachable_step; [|apply step_event].
    apply reachable_play, reachable_play, reachable_bare. }
  assert (Hm : exists m, m ∈ ChatTTSApp.messages hello_clicked /\ Message.id m = 1).
  { exists {| Message.id := 1; Message.ts := 0; Message.text := py "Hello" |}.
    split; [|reflexivity]. vm_compute. apply list_elem_of_here. }
  split; [exact Hr|]. split; [reflexivity|]. split; [reflexivity|].
  split; [reflexivity|].
  destruct (delete_removes_exactly_one Clock.UTC hello_clicked 0 1 Hr
              eq_refl eq_refl Hm) as (_ & _ & H & _).
  exact H.
Defined.

(* ================================================================== *)
(** * The shape of every run of a worker *)
(* ================================================================== *)

Section RunShape.
Import SpeechWorker.

Lemma keeps_ret {S A} (a : A) : keeps (@ret S A a).
Proof. intros s. reflexivity. Qed.

Lemma keeps_call {S} (r : option pyexc) : keeps (@call S r).
Proof. intros s. destruct r; reflexivity. Qed.

Lemma keeps_get {S} : keeps (@get S).
Proof. intros s. reflexivity. Qed.

Lemma keeps_bind {S A B} (m : M S A) (k : A -> M S B) :
  keeps m -> (forall a, keeps (k a)) -> keeps (bind m k).
Proof.
  intros Hm Hk s. unfold bind. specialize (Hm s).
  destruct (m s) as [[a|e] s']; simpl in *; subst s'; [apply Hk | reflexivity].
Qed.

Lemma bind_ext {S A B} (m m' : M S A) (k k' : A -> M S B) (s : S) :
  (forall s, m s = m' s) -> (forall a s, k a s = k' a s) ->
  bind m k s = bind m' k' s.
Proof.
  intros Hm Hk. unfold bind. rewrite Hm.
  destruct (m' s) as [[a|e] s']; [apply Hk | reflexivity].
Qed.

Lemma keeps_try_pass {S} (m : M S unit) : keeps m -> keeps (try_pass m).
Proof.
  intros Hm s. unfold try_pass, try_except. specialize (Hm s).
  destruct (m s) as [[a|e] s']; simpl in *; subst s'; [reflexivity|].
  destruct (is_Exception e); reflexivity.
Qed.

Lemma keeps_runAndWait (o : engine_run) (flags : list bool) :
  keeps (runAndWait o flags).
Proof.
  induction flags as [|f flags IH]; simpl; [apply keeps_call|].
  apply keeps_bind; [|intros _; exact IH].
  intros s. destruct f; reflexivity.
Qed.

Lemma runAndWait_same (o o' : engine_run) (flags : list bool) (fr : frame) :
  runAndWait_raises o = runAndWait_raises o' ->
  runAndWait o flags fr = runAndWait o' flags fr.
Proof.
  intros H. revert fr. induction flags as [|f flags IH]; intros fr; simpl.
  - rewrite H. reflexivity.
  - apply bind_ext; [reflexivity | intros _ s; apply IH].
Qed.

(** [run_try] changes nothing of the frame but the binding of [engine]. *)
Lemma run_try_self (o : engine_run) (fr : frame) :
  self (snd (run_try o fr)) = self fr.
Proof.
  unfold run_try. unfold bind at 1.
  destruct (init_raises o) as [e|]; [reflexivity|]. simpl.
  unfold bind at 1. simpl.
  match goal with |- self (snd (?m ?s)) = _ =>
    assert (K : keeps m); [|rewrite (K s); reflexivity] end.
  apply keeps_bind; [apply keeps_get|]. intros fr'.
  apply keeps_bind.
  { destruct (truthy _); [apply keeps_try_pass, keeps_call | apply keeps_ret]. }
  intros _. apply keeps_bind; [apply keeps_try_pass, keeps_call|].
  intros _. apply keeps_bind; [apply keeps_try_pass, keeps_call|].
  intros _. apply keeps_bind; [apply keeps_call|].
  intros _. apply keeps_bind; [apply keeps_call|].
  intros _. apply keeps_bind; [apply keeps_runAndWait|].
  intros _. apply keeps_call.
Qed.

Lemma set_exc_same (w : t) : set_exc (exc w) w = w.
Proof. destruct w; reflexivity. Qed.

(** Where an exception of a computation in sequence comes from. *)
Lemma bind_raise {S A B} (m : M S A) (k : A -> M S B) (s s' : S) (e : pyexc) :
  bind m k s = (Raise e, s') ->
  m s = (Raise e, s')
  \/ exists a s1, m s = (Ret a, s1) /\ k a s1 = (Raise e, s').
Proof.
  unfold bind. destruct (m s) as [[a|e0] s1]; intros H; [right; eauto|].
  left. injection H as -> ->. reflexivity.
Qed.

Lemma call_raise {S} (r : option pyexc) (s s' : S) (e : pyexc) :
  call r s = (Raise e, s') -> r = Some e.
Proof. destruct r as [e0|]; simpl; unfold raise, ret; congruence. Qed.

Lemma try_pass_call_raise {S} (r : option pyexc) (s s' : S) (e : pyexc) :
  try_pass (call r) s = (Raise e, s') -> r = Some e /\ is_Exception e = false.
Proof.
  destruct r as [e0|]; unfold try_pass, try_except, call, raise, ret; simpl;
    [|discriminate].
  destruct (is_Exception e0) eqn:E; simpl; [discriminate|].
  intros H. injection H as <- _. auto.
Qed.

Lemma runAndWait_raise (o : engine_run) (flags : list bool) (fr fr' : frame)
    (e : pyexc) :
  runAndWait o flags fr = (Raise e, fr') ->
  (e = SystemExit /\ In true flags) \/ runAndWait_raises o = Some e.
Proof.
  revert fr. induction flags as [|f flags IH]; intros fr H; simpl in H.
  - right. eapply call_raise. exact H.
  - apply bind_raise in H as [H | (a & s1 & H1 & H2)].
    + destruct f; simpl in H; [|discriminate].
      injection H as <- _. left. split; [reflexivity | left; reflexivity].
    + destruct (IH _ H2) as [[He Hin] | Hr]; [left | right; exact Hr].
      split; [exact He | right; exact Hin].
Qed.

(** What [run_try] raises is the abort of a word-boundary check that saw
    the flag, or what a call of the engine raised; an [Exception] raised by
    a best-effort setting does not come out. *)
Lemma run_try_raise (o : engine_run) (fr fr' : frame) (e : pyexc) :
  run_try o fr = (Raise e, fr') ->
  (e = SystemExit /\ In true (word_flags o))
  \/ engine_raised o e
  \/ (is_Exception e = false
      /\ In (Some e) [set_voice_raises o; set_rate_raises o;
                      set_volume_raises o]).
Proof.
  unfold run_try. intros H.
  assert (Hcall : forall r, r = Some e ->
            In r [init_raises o; connect_raises o; say_raises o;
                  runAndWait_raises o; stop_raises o] -> engine_raised o e).
  { intros r -> Hin. exact Hin. }
  assert (Hset : forall r, r = Some e /\ is_Exception e = false ->
            In r [set_voice_raises o; set_rate_raises o; set_volume_raises o] ->
            is_Exception e = false
            /\ In (Some e) [set_voice_raises o; set_rate_raises o;
                            set_volume_raises o]).
  { intros r [-> He] Hin. auto. }
  apply bind_raise in H as [H | (a1 & s1 & _ & H)].
  { right; left. apply (Hcall _ (call_raise _ _ _ _ H)). simpl; auto. }
  apply bind_raise in H as [H | (a2 & s2 & _ & H)]; [discriminate|].
  apply bind_raise in H as [H | (a3 & s3 & _ & H)]; [discriminate|].
  apply bind_raise in H as [H | (a4 & s4 & _ & H)].
  { destruct (truthy _); [|discriminate].
    right; right. apply (Hset _ (try_pass_call_raise _ _ _ _ H)). simpl; auto. }
  apply bind_raise in H as [H | (a5 & s5 & _ & H)].
  { right; right. apply (Hset _ (try_pass_call_raise _ _ _ _ H)). simpl; auto. }
  apply bind_raise in H as [H | (a6 & s6 & _ & H)].
  { right; right. apply (Hset _ (try_pass_call_raise _ _ _ _ H)). simpl; auto. }
  apply bind_raise in H as [H | (a7 & s7 & _ & H)].
  { right; left. apply (Hcall _ (call_raise _ _ _ _ H)). simpl; auto. }
  apply bind_raise in H as [H | (a8 & s8 & _ & H)].
  { right; left. apply (Hcall _ (call_raise _ _ _ _ H)). simpl; auto. }
  apply bind_raise in H as [H | (a9 & s9 & _ & H)].
  { apply runAndWait_raise in H as [H | H]; [left; exact H|].
    right; left. apply (Hcall _ H). simpl; auto 6. }
  right; left. apply (Hcall _ (call_raise _ _ _ _ H)). simpl; auto 6.
Qed.

Lemma run_shape (o : engine_run) (w : t) :
  exists e',
    fst (run_thread o w) = set_thread Dead (set_exc e' w)
    /\ (e' = exc w
        \/ exists msg, e' = Some (Exception msg)
                       /\ engine_raised o (Exception msg))
    /\ is_alive (fst (run_thread o w)) = false
    /\ (forall e, snd (run_thread o w) = Some e ->
          is_Exception e = false /\ engine_raised_any o e).
Proof.
  pose proof (run_try_self o {| self := w; engine := false |}) as Hself.
  pose proof (run_try_raise o {| self := w; engine := false |}) as Hraise.
  unfold run_thread, run, try_finally, try_except.
  destruct (run_try o {| self := w; engine := false |}) as [[[]|x] fr] eqn:E;
    simpl in Hself.
  - exists (exc w). simpl. rewrite Hself, set_exc_same.
    repeat split; auto; discriminate.
  - specialize (Hraise fr x eq_refl).
    destruct x as [|msg|msg]; simpl.
    + exists (exc w). unfold on_SystemExit, try_pass, try_except, bind, get.
      simpl. rewrite set_exc_same.
      assert (Hany : forall y, abort_stop_raises o = Some y ->
                               engine_raised_any o y).
      { intros y Hy. unfold engine_raised_any. rewrite <- Hy. simpl. auto 12. }
      destruct (engine fr); simpl;
        [destruct (abort_stop_raises o) as [[|m|m]|] eqn:Ea; simpl|];
        rewrite Hself;
        (split; [reflexivity|]); (split; [left; reflexivity|]);
        (split; [reflexivity|]);
        intros y Hy; try discriminate; injection Hy as <-; auto.
    + exists (Some (Exception msg)). simpl. rewrite Hself.
      split; [reflexivity|]. split; [|split; [reflexivity | discriminate]].
      right. exists msg. split; [reflexivity|].
      destruct Hraise as [[Hx _] | [Hx | [Hx _]]];
        [discriminate | exact Hx | discriminate].
    + exists (exc w). simpl. rewrite Hself, set_exc_same.
      split; [reflexivity|]. split; [auto|]. split; [reflexivity|].
      intros y Hy. injection Hy as <-. split; [reflexivity|].
      destruct Hraise as [[Hx _] | [Hx | [_ Hx]]]; [discriminate| |];
        unfold engine_raised_any, engine_raised in *; simpl in *;
        intuition auto 12.
Qed.

Lemma run_thread_stop_flag (o : engine_run) (w : t) :
  stop_flag (fst (run_thread o w)) = stop_flag w.
Proof. destruct (run_shape o w) as (e' & -> & _). reflexivity. Qed.

End RunShape.

(* ================================================================== *)
(** * One current session *)
(* ================================================================== *)

Section Sessions.
Variable utcoffset : Z -> Z.
Import ChatTTSApp.

Ltac monad :=
  unfold bind, get, modify, ret, raise, showdialog, _set_status; simpl.

Lemma signalled_from (st s : t) :
  workers s = workers st -> current_worker s = current_worker st ->
  signalled s = signalled st.
Proof. intros Hw Hc. unfold signalled. rewrite Hw, Hc. reflexivity. Qed.

Lemma flag_actions_from (st s : t) :
  workers s = workers st -> current_worker s = current_worker st ->
  flag_actions s = flag_actions st.
Proof. intros Hw Hc. unfold flag_actions. rewrite Hw, Hc. reflexivity. Qed.

Lemma _speak_text_sessions (text : pystr) (st s : t) :
  workers s = workers st -> current_worker s = current_worker st ->
  trace s = trace st ->
  sessions_change st (snd (_speak_text text s)).
Proof.
  intros Hw Hc Ht. rewrite _speak_text_spec.
  destruct (py_int_of_float (sld_rate s)) as [r|]; simpl.
  - eapply sessions_replaced; simpl.
    + rewrite (signalled_from st s Hw Hc). reflexivity.
    + rewrite Hw. reflexivity.
    + reflexivity.
    + reflexivity.
    + rewrite Ht, Hw, (flag_actions_from st s Hw Hc). reflexivity.
  - apply sessions_signalled; simpl; [apply signalled_from| |]; try assumption.
    rewrite Ht, (flag_actions_from st s Hw Hc). reflexivity.
Qed.

Lemma _poll_worker_done_sessions (n : nat) (st : t) :
  sessions_change st (snd (_poll_worker_done n st)).
Proof.
  rewrite _poll_worker_done_spec. simpl.
  destruct (current_worker st) as [i|] eqn:Hc;
    [|apply sessions_kept; reflexivity].
  destruct (workers st !! i) as [w|] eqn:Hw;
    [|apply sessions_kept; reflexivity].
  destruct (SpeechWorker.is_alive w) eqn:Ha;
    [apply sessions_kept; reflexivity|].
  eapply sessions_polled; simpl; eauto. intros w0 Hw0. congruence.
Qed.

Lemma dispatch_sessions (ev : event) (st : t) :
  sessions_change st (dispatch utcoffset ev st).
Proof.
  unfold dispatch. destruct ev; simpl;
    try (apply sessions_kept; reflexivity).
  - destruct (strip (txt_input st)) as [|c r] eqn:E.
    + rewrite send_message_blank by exact E. apply sessions_kept; reflexivity.
    + rewrite send_message_spec by congruence.
      destruct (auto_speak_var st); [|apply sessions_kept; reflexivity].
      apply _speak_text_sessions; reflexivity.
  - rewrite stop_speaking_spec. apply sessions_signalled; reflexivity.
  - unfold replay_last. monad. destruct (last (messages st)) as [m|];
      [|apply sessions_kept; reflexivity].
    apply _speak_text_sessions; reflexivity.
  - unfold export_log. monad. destruct (messages st); simpl;
      [apply sessions_kept; reflexivity|].
    destruct path; apply sessions_kept; reflexivity.
  - unfold export_log. monad. destruct (messages st); simpl;
      [apply sessions_kept; reflexivity|].
    destruct path; [|destruct f]; apply sessions_kept; reflexivity.
  - unfold clear_log. monad. destruct (messages st); simpl;
      [apply sessions_kept; reflexivity|].
    destruct yes; apply sessions_kept; reflexivity.
  - unfold _ctx_replay, try_except, clicked_line. monad.
    destruct (rc_click_index st) as [i|]; simpl;
      [|apply sessions_kept; reflexivity].
    set (text := if contains 93 _ then _ else _).
    destruct text as [|c r]; simpl; [apply sessions_kept; reflexivity|].
    pose proof (_speak_text_sessions (c :: r) st st eq_refl eq_refl eq_refl)
      as H.
    destruct (_speak_text (c :: r) st) as [[a|e] s']; simpl in *; [exact H|].
    destruct (is_Exception e); exact H.
  - destruct (rc_click_index st) as [i|] eqn:Hi.
    + rewrite (_ctx_delete_spec st i Hi). simpl.
      destruct (line_id _); apply sessions_kept; reflexivity.
    + unfold _ctx_delete, try_except, clicked_line. monad. rewrite Hi. simpl.
      apply sessions_kept; reflexivity.
  - apply _poll_worker_done_sessions.
Qed.

Lemma run_thread_dead (o : engine_run) (w : SpeechWorker.t) :
  SpeechWorker.is_alive (fst (SpeechWorker.run_thread o w)) = false.
Proof.
  unfold SpeechWorker.run_thread.
  destruct (SpeechWorker.run o _) as [[a|e] fr]; reflexivity.
Qed.

Lemma step_sessions (st st' : t) :
  step utcoffset st st' -> sessions_change st st'.
Proof.
  intros [ev s | n s | i o s s' H].
  - apply dispatch_sessions.
  - apply _poll_worker_done_sessions.
  - unfold worker_exit in H. destruct (workers s !! i) as [w|] eqn:Hw;
      [|discriminate].
    destruct (SpeechWorker.is_alive w) eqn:Ha; [|discriminate].
    destruct (implb _ _); [|discriminate]. injection H as <-.
    eapply sessions_exited; simpl;
      eauto using run_thread_dead, run_thread_stop_flag.
Qed.

Lemma signalled_lookup (st : t) (j : nat) (w' : SpeechWorker.t) :
  signalled st !! j = Some w' ->
  exists w, workers st !! j = Some w
    /\ SpeechWorker.is_alive w' = SpeechWorker.is_alive w
    /\ (w' = w
        \/ (current_worker st = Some j /\ SpeechWorker.is_alive w = true
            /\ w' = SpeechWorker.stop w)).
Proof.
  unfold signalled. intros H.
  destruct (current_worker st) as [i|] eqn:Hc; [|eauto].
  destruct (workers st !! i) as [w|] eqn:Hw; [|eauto].
  destruct (SpeechWorker.is_alive w) eqn:Ha; [|eauto].
  destruct (decide (i = j)) as [<- | Hne].
  - rewrite list_lookup_insert_eq in H by (eapply lookup_lt_Some; eauto).
    injection H as <-. exists w. split; [exact Hw|]. split; [reflexivity|].
    right. auto.
  - rewrite list_lookup_insert_ne in H by exact Hne. eauto.
Qed.

Lemma sessions_change_ok (st st' : t) :
  sessions_change st st' -> sessions_ok st -> sessions_ok st'.
Proof.
  intros Hc [Hcur Hflag].
  destruct Hc as [Hw Hc _ | Hw Hc _ | w Hw Hc Ha Hf _ | i Hi Hdead Hw Hc _
                  | i w w' Hi _ Ha _ Hw Hc _]; split.
  - intros i Hi. rewrite Hw. apply Hcur. congruence.
  - intros j w Hj Ha Hn. rewrite Hw in Hj. rewrite Hc in Hn. eauto.
  - intros i Hi. rewrite Hc in Hi. destruct (Hcur i Hi) as [w Hwi].
    rewrite Hw. apply lookup_lt_is_Some. rewrite length_signalled.
    eapply lookup_lt_Some; eauto.
  - intros j w Hj Ha Hn. rewrite Hw in Hj. rewrite Hc in Hn.
    destruct (signalled_lookup st j w Hj) as (w0 & Hw0 & Hal & [-> | (Hcj & _)]).
    + eauto.
    + contradiction.
  - intros i Hi. rewrite Hc in Hi. injection Hi as <-. rewrite Hw.
    apply lookup_lt_is_Some. rewrite length_app, length_signalled. simpl. lia.
  - intros j w0 Hj Ha0 Hn. rewrite Hw in Hj. rewrite Hc in Hn.
    assert (Hlt : (j < length (workers st))%nat).
    { apply lookup_lt_Some in Hj. rewrite length_app, length_signalled in Hj.
      simpl in Hj. assert (j <> length (workers st)) by congruence. lia. }
    rewrite lookup_app_l in Hj by (rewrite length_signalled; exact Hlt).
    destruct (signalled_lookup st j w0 Hj)
      as (w1 & Hw1 & Hal & [-> | (_ & _ & ->)]).
    + destruct (decide (current_worker st = Some j)) as [Hcj | Hcj]; [|eauto].
      unfold signalled in Hj. rewrite Hcj, Hw1, Ha0 in Hj.
      rewrite list_lookup_insert_eq in Hj by exact Hlt.
      injection Hj as Hj. rewrite <- Hj. reflexivity.
    + reflexivity.
  - intros j Hj. congruence.
  - intros j w Hj Ha Hn. rewrite Hw in Hj.
    destruct (decide (i = j)) as [<- | Hne]; [|apply (Hflag j w Hj Ha); congruence].
    rewrite (Hdead w Hj) in Ha. discriminate.
  - intros j Hj. rewrite Hc in Hj. rewrite Hw.
    apply lookup_lt_is_Some. rewrite length_insert.
    apply lookup_lt_is_Some. auto.
  - intros j w0 Hj Ha0 Hn. rewrite Hw in Hj. rewrite Hc in Hn.
    destruct (decide (i = j)) as [<- | Hne].
    + rewrite list_lookup_insert_eq in Hj by (eapply lookup_lt_Some; eauto).
      injection Hj as <-. congruence.
    + rewrite list_lookup_insert_ne in Hj by exact Hne. eauto.
Qed.

Lemma reachable_sessions_ok (st : t) : reachable utcoffset st -> sessions_ok st.
Proof.
  induction 1 as [vs label r v err | st st' Hr IH Hs].
  - split; simpl; [discriminate|]. intros j w Hj. discriminate.
  - eapply sessions_change_ok; [apply step_sessions; exact Hs | exact IH].
Qed.

(** ** The record of the sessions *)

Lemma precedes_nil : cancel_precedes_construct [].
Proof. intros pre j post H. destruct pre; discriminate. Qed.

(** One more action: a construction wants every started session flagged
    or ended by then. *)
Lemma precedes_snoc (tr : list action) (a : action) :
  cancel_precedes_construct tr ->
  (forall j, a = Constructed j ->
     forall i, Started i ∈ tr -> FlagSet i ∈ tr \/ Ended i ∈ tr) ->
  cancel_precedes_construct (tr ++ [a]).
Proof.
  intros Htr Ha pre j post E.
  destruct post as [|x post _] using rev_ind.
  - apply app_inj_tail in E as [-> ->]. eapply Ha. reflexivity.
  - change (pre ++ Constructed j :: post ++ [x])
      with (pre ++ (Constructed j :: post) ++ [x]) in E.
    rewrite app_assoc in E. apply app_inj_tail in E as [E _].
    eapply Htr. exact E.
Qed.

Lemma precedes_flag_actions (st : t) :
  cancel_precedes_construct (trace st) ->
  cancel_precedes_construct (trace st ++ flag_actions st).
Proof.
  intros H. unfold flag_actions.
  destruct (current_worker st) as [i|]; [|rewrite app_nil_r; exact H].
  destruct (workers st !! i) as [w|]; [|rewrite app_nil_r; exact H].
  destruct (_ && _); [|rewrite app_nil_r; exact H].
  apply precedes_snoc; [exact H | discriminate].
Qed.

Lemma flag_actions_elem (st : t) (a : action) :
  a ∈ flag_actions st ->
  exists i w, a = FlagSet i /\ current_worker st = Some i
    /\ workers st !! i = Some w /\ SpeechWorker.is_alive w = true
    /\ SpeechWorker.stop_flag w = false.
Proof.
  unfold flag_actions.
  destruct (current_worker st) as [i|]; [|intros H; inversion H].
  destruct (workers st !! i) as [w|] eqn:Hw; [|intros H; inversion H].
  destruct (SpeechWorker.is_alive w) eqn:Ha; simpl; [|intros H; inversion H].
  destruct (SpeechWorker.stop_flag w) eqn:Hf; simpl; [intros H; inversion H|].
  intros H. apply list_elem_of_singleton in H as ->. eauto 10.
Qed.

Lemma flag_actions_current (st : t) (i : nat) (w : SpeechWorker.t) :
  current_worker st = Some i -> workers st !! i = Some w ->
  SpeechWorker.is_alive w = true -> SpeechWorker.stop_flag w = false ->
  flag_actions st = [FlagSet i].
Proof.
  intros Hc Hw Ha Hf. unfold flag_actions. rewrite Hc, Hw, Ha, Hf. reflexivity.
Qed.

(** In a state whose record agrees with its workers, every session that
    was started has its flag set or has ended once [stop_speaking] has
    run. *)
Lemma all_flagged_or_ended (st : t) :
  sessions_ok st -> trace_ok st ->
  forall i, Started i ∈ trace st ++ flag_actions st ->
    FlagSet i ∈ trace st ++ flag_actions st
    \/ Ended i ∈ trace st ++ flag_actions st.
Proof.
  intros [_ Hflag] (H1 & H2 & H3 & _) i Hi.
  apply elem_of_app in Hi as [Hi | Hi].
  2:{ apply flag_actions_elem in Hi as (j & w & E & _). discriminate. }
  apply H1 in Hi. apply lookup_lt_is_Some in Hi as [w Hw].
  destruct (SpeechWorker.is_alive w) eqn:Ha.
  - left. destruct (SpeechWorker.stop_flag w) eqn:Hf.
    + apply elem_of_app. left. eapply H3; eauto.
    + destruct (decide (current_worker st = Some i)) as [Hc | Hc].
      * rewrite (flag_actions_current st i w Hc Hw Ha Hf).
        apply elem_of_app. right. apply list_elem_of_singleton. reflexivity.
      * rewrite (Hflag i w Hw Ha Hc) in Hf. discriminate.
  - right. apply elem_of_app. left. eapply H2; eauto.
Qed.

Lemma signalled_trace_ok (st : t) (tr : list action) :
  trace_ok st ->
  (forall a, a ∈ trace st ++ flag_actions st -> a ∈ tr) ->
  forall i w', signalled st !! i = Some w' ->
    (SpeechWorker.is_alive w' = false -> Ended i ∈ tr)
    /\ (SpeechWorker.stop_flag w' = true -> FlagSet i ∈ tr).
Proof.
  intros (H1 & H2 & H3 & _) Hsub i w' Hw'.
  destruct (signalled_lookup st i w' Hw')
    as (w & Hw & Hal & [-> | (Hc & Ha & ->)]).
  - split; intros H; apply Hsub, elem_of_app; left; eauto.
  - split; intros H.
    + rewrite Hal, Ha in H. discriminate.
    + apply Hsub, elem_of_app.
      destruct (SpeechWorker.stop_flag w) eqn:Hf; [left; eauto|].
      right. rewrite (flag_actions_current st i w Hc Hw Ha Hf).
      apply list_elem_of_singleton. reflexivity.
Qed.

Lemma sessions_change_trace_ok (st st' : t) :
  sessions_change st st' -> sessions_ok st -> trace_ok st -> trace_ok st'.
Proof.
  intros Hc Hok Htr. pose proof Htr as (H1 & H2 & H3 & H4).
  destruct Hc as [Hw Hc Ht | Hw Hc Ht | w Hw Hc Ha Hf Ht | i Hi Hdead Hw Hc Ht
                  | i w w' Hi Hal Ha Hf Hw Hc Ht].
  - unfold trace_ok. rewrite Hw, Ht. auto.
  - unfold trace_ok. rewrite Hw, Ht, length_signalled.
    split; [|split; [|split]].
    + intros i Hi. apply elem_of_app in Hi as [Hi | Hi]; [auto|].
      apply flag_actions_elem in Hi as (j & w & E & _). discriminate.
    + intros i w' Hw' Hd.
      apply (signalled_trace_ok st _ Htr (fun a H => H) i w' Hw'). exact Hd.
    + intros i w' Hw' Hd.
      apply (signalled_trace_ok st _ Htr (fun a H => H) i w' Hw'). exact Hd.
    + apply precedes_flag_actions. exact H4.
  - unfold trace_ok. rewrite Hw, Ht, length_app, length_signalled. simpl.
    assert (Hsub : forall a, a ∈ trace st ++ flag_actions st ->
              a ∈ trace st ++ flag_actions st
                  ++ [Constructed (length (workers st));
                      Started (length (workers st))]).
    { intros a Ha0. rewrite app_assoc. apply elem_of_app. left. exact Ha0. }
    assert (Hold : forall i w0, (signalled st ++ [w]) !! i = Some w0 ->
              signalled st !! i = Some w0
              \/ (i = length (workers st) /\ w0 = w)).
    { intros i w0 Hi.
      destruct (decide (i < length (workers st))%nat) as [Hlt | Hge].
      - left. rewrite lookup_app_l in Hi by (rewrite length_signalled; lia).
        exact Hi.
      - right. eapply lookup_fresh_session;
          [apply length_signalled | lia | exact Hi]. }
    split; [|split; [|split]].
    + intros i Hi. rewrite app_assoc in Hi.
      apply elem_of_app in Hi as [Hi | Hi].
      * apply elem_of_app in Hi as [Hi | Hi]; [apply H1 in Hi; lia|].
        apply flag_actions_elem in Hi as (j & w0 & E & _). discriminate.
      * apply elem_of_cons in Hi as [Hi | Hi]; [discriminate|].
        apply list_elem_of_singleton in Hi. injection Hi as ->. lia.
    + intros i w0 Hi Hd. destruct (Hold i w0 Hi) as [Hs | [_ ->]].
      * apply (signalled_trace_ok st _ Htr Hsub i w0 Hs). exact Hd.
      * congruence.
    + intros i w0 Hi Hd. destruct (Hold i w0 Hi) as [Hs | [_ ->]].
      * apply (signalled_trace_ok st _ Htr Hsub i w0 Hs). exact Hd.
      * congruence.
    + change [Constructed (length (workers st)); Started (length (workers st))]
        with ([Constructed (length (workers st))]
              ++ [Started (length (workers st))]).
      rewrite !app_assoc. apply precedes_snoc; [|discriminate].
      apply precedes_snoc; [apply precedes_flag_actions; exact H4|].
      intros j _. apply all_flagged_or_ended; assumption.
  - unfold trace_ok. rewrite Hw, Ht. auto.
  - unfold trace_ok. rewrite Hw, Ht, length_insert.
    split; [|split; [|split]].
    + intros j Hj. apply elem_of_app in Hj as [Hj | Hj]; [auto|].
      apply list_elem_of_singleton in Hj. discriminate.
    + intros j w0 Hj Hd. apply elem_of_app.
      destruct (decide (i = j)) as [<- | Hne].
      * right. apply list_elem_of_singleton. reflexivity.
      * rewrite list_lookup_insert_ne in Hj by exact Hne. left. eauto.
    + intros j w0 Hj Hd. apply elem_of_app. left.
      destruct (decide (i = j)) as [<- | Hne].
      * rewrite list_lookup_insert_eq in Hj by (eapply lookup_lt_Some; eauto).
        injection Hj as <-. rewrite Hf in Hd. eauto.
      * rewrite list_lookup_insert_ne in Hj by exact Hne. eauto.
    + apply precedes_snoc; [exact H4 | discriminate].
Qed.

Lemma reachable_trace_ok (st : t) : reachable utcoffset st -> trace_ok st.
Proof.
  induction 1 as [vs label r v err | st st' Hr IH Hs].
  - unfold trace_ok. simpl. split; [|split; [|split]].
    + intros i Hi. inversion Hi.
    + intros i w Hw. discriminate.
    + intros i w Hw. discriminate.
    + apply precedes_nil.
  - eapply sessions_change_trace_ok;
      [apply step_sessions; exact Hs | | exact IH].
    apply reachable_sessions_ok. exact Hr.
Qed.

End Sessions.

(* ================================================================== *)
(** * The sliders *)
(* ================================================================== *)

Section Sliders.
Variable utcoffset : Z -> Z.
Import ChatTTSApp.

Ltac monad :=
  unfold bind, get, modify, ret, raise, showdialog, _set_status; simpl.

Lemma scale_set_within (lo hi x reading : float) :
  within lo hi lo -> within lo hi hi -> within lo hi reading ->
  within lo hi (scale_set lo hi x reading).
Proof.
  intros Hlo Hhi Hr. unfold scale_set.
  destruct (x =? x)%float eqn:E; [|exact Hr].
  destruct (x <? lo)%float eqn:E1; [exact Hlo|].
  destruct (hi <? x)%float eqn:E2; [exact Hhi|].
  repeat split; assumption.
Qed.

Lemma within_rate_lo : within 80 260 80.
Proof. repeat split. Qed.

Lemma within_rate_hi : within 80 260 260.
Proof. repeat split. Qed.

Lemma within_volume_lo : within 0 100 0.
Proof. repeat split. Qed.

Lemma within_volume_hi : within 0 100 100.
Proof. repeat split. Qed.

Lemma digits2_pos_bounds (m : positive) :
  2 ^ (Z.pos (digits2_pos m) - 1) <= Z.pos m < 2 ^ Z.pos (digits2_pos m).
Proof.
  induction m as [m IH | m IH |]; simpl digits2_pos.
  - rewrite Pos2Z.inj_succ.
    replace (Z.succ (Z.pos (digits2_pos m)) - 1)
      with (Z.succ (Z.pos (digits2_pos m) - 1)) by lia.
    rewrite !Z.pow_succ_r by lia. lia.
  - rewrite Pos2Z.inj_succ.
    replace (Z.succ (Z.pos (digits2_pos m)) - 1)
      with (Z.succ (Z.pos (digits2_pos m) - 1)) by lia.
    rewrite !Z.pow_succ_r by lia. lia.
  - simpl. lia.
Qed.

(** A reading of the rate slider is an integer from 80 to 260 once
    [int] has cut its fraction. *)
Lemma within_rate (x : float) :
  within 80 260 x -> exists r, py_int_of_float x = Some r /\ 80 <= r <= 260.
Proof.
  intros (H1 & H2 & H3). unfold py_int_of_float.
  rewrite FloatAxioms.ltb_spec in H1, H2. rewrite FloatAxioms.eqb_spec in H3.
  pose proof (Prim2SF_valid x) as Hv.
  change (Prim2SF 80) with (S754_finite false 5629499534213120 (-46)) in H1.
  change (Prim2SF 260) with (S754_finite false 4573968371548160 (-44)) in H2.
  destruct (Prim2SF x) as [s | s | | s m e].
  - destruct s; discriminate.
  - destruct s; discriminate.
  - discriminate.
  - destruct s; [discriminate|].
    unfold SFltb, SFcompare in H1, H2.
    unfold FloatAxioms.valid_binary, valid_binary, bounded,
      canonical_mantissa, fexp, emin in Hv.
    apply andb_prop in Hv as [Hc _]. apply Z.eqb_eq in Hc.
    change (PosDef.Pos.compare_cont Eq) with Pos.compare in *.
    pose proof (digits2_pos_bounds m) as Hd.
    assert (Hdig : -46 <= e -> Z.pos (digits2_pos m) = 53).
    { unfold FloatOps.prec, FloatOps.emax in Hc. lia. }
    destruct (Z.compare_spec e (-46)) as [E1 | E1 | E1]; [| discriminate |].
    + subst e. rewrite Hdig in Hd by lia.
      change (2 ^ (53 - 1)) with 4503599627370496 in Hd.
      change (2 ^ 53) with 9007199254740992 in Hd.
      destruct (Pos.compare_spec m 5629499534213120) as [E | E | E];
        [| discriminate |].
      * subst m. eexists. split; [reflexivity|]. vm_compute.
        split; discriminate.
      * eexists. split; [reflexivity|].
        change (0 <=? -46) with false. cbv iota.
        change (2 ^ (- -46)) with 70368744177664.
        apply Pos2Z.pos_lt_pos in E. clear - E Hd.
        Z.div_mod_to_equations. lia.
    + rewrite Hdig in Hd by lia.
      change (2 ^ (53 - 1)) with 4503599627370496 in Hd.
      change (2 ^ 53) with 9007199254740992 in Hd.
      destruct (Z.compare_spec (-44) e) as [E2 | E2 | E2]; [| discriminate |].
      * subst e.
        destruct (Pos.compare_spec 4573968371548160 m) as [E | E | E];
          [| discriminate |].
        -- subst m. eexists. split; [reflexivity|]. vm_compute.
           split; discriminate.
        -- eexists. split; [reflexivity|].
           change (0 <=? -44) with false. cbv iota.
           change (2 ^ (- -44)) with 17592186044416.
           apply Pos2Z.pos_lt_pos in E. clear - E Hd.
           Z.div_mod_to_equations. lia.
      * assert (e = -45) by lia. subst e.
        eexists. split; [reflexivity|].
        change (0 <=? -45) with false. cbv iota.
        change (2 ^ (- -45)) with 35184372088832.
        clear - Hd.
        Z.div_mod_to_equations. lia.
Qed.

(** The volume handed to a session lies between 0.0 and 1.0, whatever the
    slider reads. *)
Lemma clamp_within (q : float) : within 0 1 (py_max 0 (py_min 1 q)).
Proof.
  unfold py_max, py_min.
  destruct (q <? 1)%float eqn:H1; [|repeat split].
  destruct (0 <? q)%float eqn:H0; [|repeat split].
  unfold within. rewrite !FloatAxioms.ltb_spec in *.
  rewrite FloatAxioms.eqb_spec.
  change (Prim2SF 0) with (S754_zero false) in *.
  change (Prim2SF 1) with (S754_finite false 4503599627370496 (-52)) in *.
  destruct (Prim2SF q) as [s | s | | s m e]; try discriminate.
  - destruct s; discriminate.
  - destruct s; [discriminate|].
    unfold SFltb, SFeqb, SFcompare in *.
    change (PosDef.Pos.compare_cont Eq) with Pos.compare in *.
    rewrite Z.compare_refl, Pos.compare_refl.
    split; [reflexivity|]. split; [|reflexivity].
    rewrite (Z.compare_antisym e (-52)).
    destruct (e ?= -52) eqn:E; simpl in *; try discriminate; try reflexivity.
    rewrite (Pos.compare_antisym m 4503599627370496).
    destruct (m ?= 4503599627370496)%positive; simpl in *;
      try discriminate; reflexivity.
Qed.

(** What a handler does to the sliders. *)
Lemma _speak_text_sliders (text : pystr) (st : t) :
  sld_rate (snd (_speak_text text st)) = sld_rate st
  /\ sld_volume (snd (_speak_text text st)) = sld_volume st.
Proof.
  rewrite _speak_text_spec.
  destruct (py_int_of_float (sld_rate st)); simpl; auto.
Qed.

Lemma dispatch_sliders (ev : event) (st : t) :
  (sld_rate (dispatch utcoffset ev st) = sld_rate st
   \/ exists x, sld_rate (dispatch utcoffset ev st)
                = scale_set 80 260 x (sld_rate st))
  /\ (sld_volume (dispatch utcoffset ev st) = sld_volume st
      \/ exists x, sld_volume (dispatch utcoffset ev st)
                   = scale_set 0 100 x (sld_volume st)).
Proof.
  unfold dispatch. destruct ev; simpl; try (split; left; reflexivity).
  - destruct (strip (txt_input st)) as [|c r] eqn:E.
    + rewrite send_message_blank by exact E. split; left; reflexivity.
    + rewrite send_message_spec by congruence.
      destruct (auto_speak_var st); [|split; left; reflexivity].
      destruct (_speak_text_sliders (strip (txt_input st))
                  (stored utcoffset st now)) as [-> ->].
      split; left; reflexivity.
  - rewrite stop_speaking_spec. split; left; reflexivity.
  - unfold replay_last. monad. destruct (last (messages st)) as [m|];
      [|split; left; reflexivity].
    destruct (_speak_text_sliders (Message.text m) st) as [-> ->].
    split; left; reflexivity.
  - unfold export_log. monad. destruct (messages st); simpl;
      [split; left; reflexivity|].
    destruct path; split; left; reflexivity.
  - unfold export_log. monad. destruct (messages st); simpl;
      [split; left; reflexivity|].
    destruct path; [|destruct f]; split; left; reflexivity.
  - unfold clear_log. monad. destruct (messages st); simpl;
      [split; left; reflexivity|].
    destruct yes; split; left; reflexivity.
  - unfold _ctx_replay, try_except, clicked_line. monad.
    destruct (rc_click_index st) as [i|]; simpl; [|split; left; reflexivity].
    set (text := if contains 93 _ then _ else _).
    destruct text as [|c r]; simpl; [split; left; reflexivity|].
    destruct (_speak_text_sliders (c :: r) st) as [H1 H2].
    destruct (_speak_text (c :: r) st) as [[a|e] s']; simpl in *;
      [rewrite H1, H2; split; left; reflexivity|].
    destruct (is_Exception e); simpl; rewrite H1, H2; split; left; reflexivity.
  - destruct (rc_click_index st) as [i|] eqn:Hi.
    + rewrite (_ctx_delete_spec st i Hi). simpl.
      destruct (line_id _); split; left; reflexivity.
    + unfold _ctx_delete, try_except, clicked_line. monad. rewrite Hi. simpl.
      split; left; reflexivity.
  - rewrite _poll_worker_done_spec. simpl.
    destruct (current_worker st) as [i|]; [|split; left; reflexivity].
    destruct (workers st !! i) as [w|]; [|split; left; reflexivity].
    destruct (SpeechWorker.is_alive w); split; left; reflexivity.
  - split; [right; eexists; reflexivity | left; reflexivity].
  - split; [left; reflexivity | right; eexists; reflexivity].
Qed.

Lemma step_sliders (st st' : t) :
  step utcoffset st st' -> sliders_ok st -> sliders_ok st'.
Proof.
  intros Hs [Hr Hv].
  assert (K : (sld_rate st' = sld_rate st
               \/ exists x, sld_rate st' = scale_set 80 260 x (sld_rate st))
              /\ (sld_volume st' = sld_volume st
                  \/ exists x, sld_volume st'
                               = scale_set 0 100 x (sld_volume st))).
  { destruct Hs as [ev s | n s | i o s s' H].
    - apply dispatch_sliders.
    - rewrite _poll_worker_done_spec. simpl.
      destruct (current_worker s) as [i|]; [|split; left; reflexivity].
      destruct (workers s !! i) as [w|]; [|split; left; reflexivity].
      destruct (SpeechWorker.is_alive w); split; left; reflexivity.
    - unfold worker_exit in H. destruct (workers s !! i) as [w|];
        [|discriminate].
      destruct (_ && _); [|discriminate]. injection H as <-.
      split; left; reflexivity. }
  unfold sliders_ok.
  destruct K as [[E1 | [x E1]] [E2 | [y E2]]]; rewrite E1, E2; split; auto;
    apply scale_set_within;
    auto using within_rate_lo, within_rate_hi, within_volume_lo,
               within_volume_hi.
Qed.

Lemma reachable_sliders_ok (st : t) : reachable utcoffset st -> sliders_ok st.
Proof.
  induction 1 as [vs label r v err | st st' Hr IH Hs].
  - split; simpl; apply scale_set_within;
      auto using within_rate_lo, within_rate_hi, within_volume_lo,
                 within_volume_hi.
  - eapply step_sliders; eauto.
Qed.

(** In a reachable state the rate slider gives [int] a number. *)
Lemma reachable_rate (st : t) :
  reachable utcoffset st ->
  exists r, py_int_of_float (sld_rate st) = Some r /\ 80 <= r <= 260.
Proof.
  intros Hr. apply within_rate. apply (reachable_sliders_ok st Hr).
Qed.

End Sliders.

Section CancelBeforeReplace.
Variable utcoffset : Z -> Z.
Import ChatTTSApp.

(** C1: in every reachable state the current-worker reference names at most
    one, existing, session, and every other session that is still alive has
    its cancel flag set, so at most one alive session is uncancelled.  The
    record of what happened to the sessions, kept in the order in which the
    handlers did it, shows that whenever a session was constructed, every
    session started before had by then had its cancel flag set or had
    ended.  A speak request that finds the current session [i] running
    returns, and adds to that record the setting of the flag of [i] (unless
    the flag was set already, in which case the record has it), then the
    construction of the new session, then its start, in this order; the new
    session is the current one, alive and uncancelled, with the text
    requested. *)
Theorem cancel_before_replace (st : t) (text : pystr) :
  reachable utcoffset st ->
  sessions_ok st
  /\ (forall j1 j2 w1 w2,
        workers st !! j1 = Some w1 -> workers st !! j2 = Some w2 ->
        SpeechWorker.is_alive w1 = true -> SpeechWorker.stop_flag w1 = false ->
        SpeechWorker.is_alive w2 = true -> SpeechWorker.stop_flag w2 = false ->
        j1 = j2 /\ current_worker st = Some j1)
  /\ cancel_precedes_construct (trace st)
  /\ (forall i w,
        current_worker st = Some i -> workers st !! i = Some w ->
        SpeechWorker.is_alive w = true ->
        exists (st2 : t) (w2 : SpeechWorker.t) (before : list action),
          _speak_text text st = (Ret tt, st2)
          /\ before
             = trace st
               ++ (if SpeechWorker.stop_flag w then [] else [FlagSet i])
          /\ FlagSet i ∈ before
          /\ trace st2
             = before ++ [Constructed (length (workers st));
                          Started (length (workers st))]
          /\ workers st2 = <[i := SpeechWorker.stop w]> (workers st) ++ [w2]
          /\ current_worker st2 = Some (length (workers st))
          /\ SpeechWorker.is_alive w2 = true
          /\ SpeechWorker.stop_flag w2 = false
          /\ SpeechWorker.text w2 = text
          /\ workers st2 !! i = Some (SpeechWorker.stop w))
  /\ sessions_ok (snd (_speak_text text st))
  /\ cancel_precedes_construct (trace (snd (_speak_text text st))).
Proof.
  intros Hr. pose proof (reachable_sessions_ok utcoffset st Hr) as Hok.
  pose proof (reachable_trace_ok utcoffset st Hr) as Htr.
  assert (Hch : sessions_change st (snd (_speak_text text st)))
    by (apply _speak_text_sessions; reflexivity).
  split; [exact Hok|]. split; [|split; [apply Htr|split; [|split]]].
  - destruct Hok as [_ Hflag]. intros j1 j2 w1 w2 H1 H2 Ha1 Hf1 Ha2 Hf2.
    assert (C1 : current_worker st = Some j1).
    { destruct (decide (current_worker st = Some j1)) as [E|E]; [exact E|].
      rewrite (Hflag j1 w1 H1 Ha1 E) in Hf1. discriminate. }
    assert (C2 : current_worker st = Some j2).
    { destruct (decide (current_worker st = Some j2)) as [E|E]; [exact E|].
      rewrite (Hflag j2 w2 H2 Ha2 E) in Hf2. discriminate. }
    split; [congruence | exact C1].
  - intros i w Hc Hw Ha.
    assert (Hsig : signalled st = <[i := SpeechWorker.stop w]> (workers st)).
    { unfold signalled. rewrite Hc, Hw, Ha. reflexivity. }
    assert (Hact : flag_actions st
                   = if SpeechWorker.stop_flag w then [] else [FlagSet i]).
    { unfold flag_actions. rewrite Hc, Hw, Ha.
      destruct (SpeechWorker.stop_flag w); reflexivity. }
    destruct (reachable_rate utcoffset st Hr) as (r & Hrate & _).
    rewrite _speak_text_spec, Hrate.
    eexists. eexists. eexists.
    split; [reflexivity|]. split; [reflexivity|].
    cbn [workers current_worker trace set_lbl_status set_current_worker
         set_workers set_trace].
    split; [|split; [|split; [|split; [|split; [|split; [|split]]]]]].
    + destruct (SpeechWorker.stop_flag w) eqn:Hf.
      * rewrite app_nil_r. destruct Htr as (_ & _ & H3 & _). eauto.
      * apply elem_of_app. right. apply list_elem_of_singleton. reflexivity.
    + rewrite Hact, app_assoc. reflexivity.
    + rewrite Hsig. reflexivity.
    + reflexivity.
    + reflexivity.
    + reflexivity.
    + reflexivity.
    + rewrite lookup_app_l
        by (rewrite length_signalled; eapply lookup_lt_Some; eauto).
      rewrite Hsig. apply list_lookup_insert_eq. eapply lookup_lt_Some; eauto.
  - eapply sessions_change_ok; [exact Hch | exact Hok].
  - eapply sessions_change_trace_ok; [exact Hch | exact Hok | exact Htr].
Qed.

End CancelBeforeReplace.

Lemma cancel_before_replace_witness :
  reachable Clock.UTC hello_sent
  /\ map SpeechWorker.is_alive (ChatTTSApp.workers hello_sent) = [true]
  /\ ChatTTSApp.current_worker hello_sent = Some 0%nat
  /\ ChatTTSApp.trace (snd (ChatTTSApp._speak_text (py "World") hello_sent))
     = [Constructed 0; Started 0; FlagSet 0; Constructed 1; Started 1]
  /\ cancel_precedes_construct
       (ChatTTSApp.trace (snd (ChatTTSApp._speak_text (py "World") hello_sent))).
Proof.
  assert (Hr : reachable Clock.UTC hello_sent).
  { unfold hello_sent. apply reachable_play, reachable_bare. }
  split; [exact Hr|]. split; [reflexivity|]. split; [reflexivity|].
  split; [reflexivity|].
  destruct (cancel_before_replace Clock.UTC hello_sent (py "World") Hr)
    as (_ & _ & _ & _ & _ & H).
  exact H.
Defined.

(* ================================================================== *)
(** * The run of a speech worker *)
(* ================================================================== *)

Section Run.
Import SpeechWorker.

Lemma runAndWait_cancelled (o : engine_run) (flags : list bool) (fr : frame) :
  In true flags -> runAndWait o flags fr = (Raise SystemExit, fr).
Proof.
  induction flags as [|f flags IH]; intros H; [destruct H|].
  simpl. destruct f; [reflexivity|].
  destruct H as [H|H]; [discriminate|].
  unfold bind. simpl. apply IH. exact H.
Qed.

Lemma runAndWait_undisturbed (o : engine_run) (flags : list bool) (fr : frame) :
  Forall (fun b => b = false) flags ->
  runAndWait o flags fr = call (runAndWait_raises o) fr.
Proof.
  induction 1 as [|f flags Hf _ IH]; [reflexivity|].
  subst f. simpl. unfold bind. simpl. exact IH.
Qed.

Lemma try_pass_tolerated (r : option pyexc) (fr : frame) :
  tolerated r -> try_pass (call r) fr = (Ret tt, fr).
Proof.
  destruct r as [e|]; simpl; [|reflexivity].
  intros H. unfold try_pass, try_except, call, raise. simpl. rewrite H.
  reflexivity.
Qed.

(** The frame in which [run] reaches [runAndWait]. *)
Lemma run_try_started (o : engine_run) (w : t) :
  utterance_started o ->
  run_try o {| self := w; engine := false |}
  = bind (runAndWait o (word_flags o)) (fun _ => call (stop_raises o))
      {| self := w; engine := true |}.
Proof.
  intros (Hi & Hv & Hr & Hvol & Hc & Hs).
  unfold run_try. rewrite Hi, Hc, Hs.
  unfold bind at 1. simpl. unfold bind at 1. simpl. unfold bind at 1. simpl.
  unfold bind at 1.
  assert (Hvoice :
    (if truthy (voice_id w) then try_pass (call (set_voice_raises o)) else ret tt)
      {| self := w; engine := true |} = (Ret tt, {| self := w; engine := true |})).
  { destruct (truthy (voice_id w)); [apply try_pass_tolerated; exact Hv|reflexivity]. }
  rewrite Hvoice.
  unfold bind at 1. rewrite (try_pass_tolerated _ _ Hr).
  unfold bind at 1. rewrite (try_pass_tolerated _ _ Hvol).
  reflexivity.
Qed.

Lemma run_cancelled (o : engine_run) (w : t) :
  utterance_started o -> In true (word_flags o) ->
  fst (run_thread o w) = set_thread Dead w.
Proof.
  intros Hs Hc. unfold run_thread, run, try_finally, try_except.
  rewrite (run_try_started o w Hs). unfold bind at 1.
  rewrite (runAndWait_cancelled o _ _ Hc). simpl.
  unfold on_SystemExit, try_pass, try_except, bind, get. simpl.
  destruct (abort_stop_raises o) as [[|m|m]|]; reflexivity.
Qed.

Lemma run_failed (o : engine_run) (w : t) (msg : pystr) :
  engine_fails o (Exception msg) ->
  run_thread o w
  = (set_thread Dead (set_exc (Some (Exception msg)) w), None).
Proof.
  intros H. unfold run_thread, run, try_finally, try_except.
  destruct H as [Hi | Hi Hv Hr Hvol Hc | Hi Hv Hr Hvol Hc Hsay
                 | Hs Hn Hrw | Hs Hn Hrw Hst].
  - unfold run_try. rewrite Hi. reflexivity.
  - unfold run_try. rewrite Hi, Hc.
    unfold bind at 1. simpl. unfold bind at 1. simpl. unfold bind at 1. simpl.
    unfold bind at 1.
    destruct (truthy (voice_id w));
      [rewrite (try_pass_tolerated _ _ Hv)|simpl];
      (unfold bind at 1; rewrite (try_pass_tolerated _ _ Hr);
       unfold bind at 1; rewrite (try_pass_tolerated _ _ Hvol);
       reflexivity).
  - unfold run_try. rewrite Hi, Hc, Hsay.
    unfold bind at 1. simpl. unfold bind at 1. simpl. unfold bind at 1. simpl.
    unfold bind at 1.
    destruct (truthy (voice_id w));
      [rewrite (try_pass_tolerated _ _ Hv)|simpl];
      (unfold bind at 1; rewrite (try_pass_tolerated _ _ Hr);
       unfold bind at 1; rewrite (try_pass_tolerated _ _ Hvol);
       reflexivity).
  - rewrite (run_try_started o w Hs). unfold bind at 1.
    rewrite (runAndWait_undisturbed o _ _ Hn), Hrw. reflexivity.
  - rewrite (run_try_started o w Hs). unfold bind at 1.
    rewrite (runAndWait_undisturbed o _ _ Hn), Hrw, Hst. reflexivity.
Qed.

(** C2: when a word-boundary check of a running utterance finds the cancel
    flag set, the abort it raises is not recorded as a failure: [run] ends
    with [exc] as it was, which is [None] for a worker as constructed,
    whatever the engine does afterwards (its [stop] failing included). *)
Theorem cancellation_is_not_failure (o : engine_run) (w : t) :
  utterance_started o ->
  In true (word_flags o) ->
  exc w = None ->
  fst (run_thread o w) = set_thread Dead w
  /\ exc (fst (run_thread o w)) = None
  /\ is_alive (fst (run_thread o w)) = false.
Proof.
  intros Hs Hc Hw. rewrite (run_cancelled o w Hs Hc).
  split; [reflexivity|]. split; [exact Hw | reflexivity].
Qed.

End Run.

Lemma cancellation_is_not_failure_witness :
  utterance_started cancelled_engine
  /\ In true (word_flags cancelled_engine)
  /\ SpeechWorker.exc
       (fst (SpeechWorker.run_thread cancelled_engine stopping_worker))
     = None.
Proof.
  assert (Hs : utterance_started cancelled_engine).
  { repeat split. }
  assert (Hc : In true (word_flags cancelled_engine)).
  { simpl. auto. }
  split; [exact Hs|]. split; [exact Hc|].
  destruct (cancellation_is_not_failure cancelled_engine stopping_worker
              Hs Hc eq_refl)
    as (_ & H & _).
  exact H.
Defined.

(* ================================================================== *)
(** * Reporting a failed utterance *)
(* ================================================================== *)

Section Report.
Variable utcoffset : Z -> Z.
Import ChatTTSApp.

Ltac monad :=
  unfold bind, get, modify, ret, raise, showdialog, _set_status; simpl.

Lemma dispatch_Poll_spec (st : t) :
  dispatch utcoffset Poll st
  = match current_worker st with
    | Some i =>
        match workers st !! i with
        | Some w =>
            if SpeechWorker.is_alive w then st
            else set_lbl_status Idle
                   (set_current_worker None
                      match SpeechWorker.exc w with
                      | Some e => set_dialogs (dialogs st ++ [SpeakFailed e]) st
                      | None => st
                      end)
        | None => st
        end
    | None => st
    end.
Proof.
  unfold dispatch. simpl. rewrite _poll_worker_done_spec. simpl.
  destruct (current_worker st) as [i|]; [|reflexivity].
  destruct (workers st !! i) as [w|]; [|reflexivity].
  destruct (SpeechWorker.is_alive w); [reflexivity|].
  destruct (SpeechWorker.exc w); [reflexivity|].
  destruct st; simpl; rewrite app_nil_r; reflexivity.
Qed.

Lemma _speak_text_dialogs (text : pystr) (st : t) :
  dialogs (snd (_speak_text text st)) = dialogs st.
Proof.
  rewrite _speak_text_spec.
  destruct (py_int_of_float (sld_rate st)); reflexivity.
Qed.

Lemma speak_failures_snoc_info (ds : list dialog) (d : dialog) :
  (forall e, d <> SpeakFailed e) ->
  speak_failures (ds ++ [d]) = speak_failures ds.
Proof.
  intros H. unfold speak_failures. rewrite omap_app. simpl.
  destruct d; try apply app_nil_r. exfalso. eapply H. reflexivity.
Qed.

Lemma dispatch_speak_failures (ev : event) (st : t) :
  ev <> Poll ->
  speak_failures (dialogs (dispatch utcoffset ev st)) = speak_failures (dialogs st).
Proof.
  intros Hev. unfold dispatch. destruct ev; simpl; try reflexivity.
  - destruct (strip (txt_input st)) as [|c r] eqn:E.
    + rewrite send_message_blank by exact E. reflexivity.
    + rewrite send_message_spec by congruence.
      destruct (auto_speak_var st); [|reflexivity].
      rewrite _speak_text_dialogs. reflexivity.
  - rewrite stop_speaking_spec. reflexivity.
  - unfold replay_last. monad. destruct (last (messages st)) as [m|];
      [|reflexivity].
    rewrite _speak_text_dialogs. reflexivity.
  - unfold export_log. monad. destruct (messages st); simpl.
    + apply speak_failures_snoc_info. discriminate.
    + destruct path; simpl; [reflexivity|].
      apply speak_failures_snoc_info. discriminate.
  - unfold export_log. monad. destruct (messages st); simpl.
    + apply speak_failures_snoc_info. discriminate.
    + destruct path; [|destruct f]; reflexivity.
  - unfold clear_log. monad. destruct (messages st); simpl; [reflexivity|].
    destruct yes; reflexivity.
  - unfold _ctx_replay, try_except, clicked_line. monad.
    destruct (rc_click_index st) as [i|]; simpl; [|reflexivity].
    set (text := if contains 93 _ then _ else _).
    destruct text as [|c r]; simpl; [reflexivity|].
    pose proof (_speak_text_dialogs (c :: r) st) as H.
    destruct (_speak_text (c :: r) st) as [[a|e] s']; simpl in *;
      [rewrite H; reflexivity|].
    destruct (is_Exception e); simpl; rewrite H; reflexivity.
  - destruct (rc_click_index st) as [i|] eqn:Hi.
    + rewrite (_ctx_delete_spec st i Hi). simpl.
      destruct (line_id _); reflexivity.
    + unfold _ctx_delete, try_except, clicked_line. monad. rewrite Hi.
      reflexivity.
  - contradiction.
Qed.

Lemma worker_exit_dialogs (j : nat) (o : engine_run) (st st' : t) :
  worker_exit j o st = Some st' -> dialogs st' = dialogs st.
Proof.
  unfold worker_exit. destruct (workers st !! j) as [w|]; [|discriminate].
  destruct (_ && _); [|discriminate].
  intros H. injection H as <-. reflexivity.
Qed.

(** C3: an engine failure in the course of an utterance is caught inside
    [run] and kept in [exc]: [run] returns normally and the worker ends
    dead with the exception stored.  Nothing is shown to the user when that
    happens, and no handler but the poll step ever adds a speech-failure
    message box; the poll step that finds the current worker dead shows its
    stored exception and clears the current-worker reference. *)
Theorem failure_surfaces_only_at_poll (st st' : t) (i : nat)
    (o : engine_run) (msg : pystr) :
  engine_fails o (Exception msg) ->
  current_worker st = Some i ->
  worker_exit i o st = Some st' ->
  (forall w, SpeechWorker.run_thread o w
             = (SpeechWorker.set_thread Dead
                  (SpeechWorker.set_exc (Some (Exception msg)) w), None))
  /\ (exists w', workers st' !! i = Some w'
        /\ SpeechWorker.exc w' = Some (Exception msg)
        /\ SpeechWorker.is_alive w' = false)
  /\ dialogs st' = dialogs st
  /\ (forall s ev, ev <> Poll ->
        speak_failures (dialogs (dispatch utcoffset ev s))
        = speak_failures (dialogs s))
  /\ (forall s j o' s', worker_exit j o' s = Some s' -> dialogs s' = dialogs s)
  /\ dialogs (dispatch utcoffset Poll st')
     = dialogs st' ++ [SpeakFailed (Exception msg)]
  /\ current_worker (dispatch utcoffset Poll st') = None.
Proof.
  intros Hf Hc Hx.
  split; [intros w; apply run_failed; exact Hf|].
  pose proof (worker_exit_dialogs i o st st' Hx) as Hd.
  unfold worker_exit in Hx.
  destruct (workers st !! i) as [w|] eqn:Hw; [|discriminate].
  destruct (_ && _); [|discriminate]. injection Hx as <-.
  assert (Hlook : workers (set_trace (trace st ++ [Ended i])
                    (set_workers
                       (<[i := fst (SpeechWorker.run_thread o w)]> (workers st))
                       st))
                  !! i
                  = Some (SpeechWorker.set_thread Dead
                            (SpeechWorker.set_exc (Some (Exception msg)) w))).
  { simpl. rewrite (run_failed o w msg Hf). simpl.
    apply list_lookup_insert_eq. eapply lookup_lt_Some; eauto. }
  split; [eexists; split; [exact Hlook | split; reflexivity]|].
  split; [exact Hd|].
  split; [intros s ev Hev; apply dispatch_speak_failures; exact Hev|].
  split; [intros s j o' s' H; eapply worker_exit_dialogs; exact H|].
  rewrite dispatch_Poll_spec.
  change (current_worker (set_trace _ (set_workers _ st)))
    with (current_worker st).
  rewrite Hc, Hlook. simpl. auto.
Qed.

End Report.

Lemma failure_surfaces_only_at_poll_witness :
  engine_fails broken_engine (Exception (py "device lost"))
  /\ ChatTTSApp.current_worker hello_sent = Some 0%nat
  /\ worker_exit 0 broken_engine hello_sent = Some hello_broken
  /\ ChatTTSApp.dialogs (dispatch Clock.UTC Poll hello_broken)
     = ChatTTSApp.dialogs hello_broken
       ++ [SpeakFailed (Exception (py "device lost"))].
Proof.
  assert (Hf : engine_fails broken_engine (Exception (py "device lost"))).
  { apply fails_runAndWait; [repeat split | repeat constructor | reflexivity]. }
  assert (Hx : worker_exit 0 broken_engine hello_sent = Some hello_broken).
  { reflexivity. }
  split; [exact Hf|]. split; [reflexivity|]. split; [exact Hx|].
  destruct (failure_surfaces_only_at_poll Clock.UTC hello_sent hello_broken 0
              broken_engine (py "device lost") Hf eq_refl Hx)
    as (_ & _ & _ & _ & _ & H & _).
  exact H.
Defined.

(* ================================================================== *)
(** * Rate and volume of a session *)
(* ================================================================== *)

Section Sliders.
Import ChatTTSApp.

Lemma speak_session (st : t) (text : pystr) (r : Z) :
  py_int_of_float (sld_rate st) = Some r ->
  exists st' w,
    _speak_text text st = (Ret tt, st')
    /\ current_worker st' = Some (length (workers st))
    /\ workers st' !! length (workers st) = Some w
    /\ SpeechWorker.is_alive w = true
    /\ SpeechWorker.text w = text
    /\ SpeechWorker.rate w = r
    /\ SpeechWorker.volume w = py_max 0 (py_min 1 (sld_volume st / 100)).
Proof.
  intros Hr. rewrite _speak_text_spec, Hr.
  eexists. eexists. split; [reflexivity|].
  cbn [workers current_worker set_lbl_status set_current_worker set_workers set_trace].
  split; [reflexivity|]. split.
  - rewrite lookup_app_r by (rewrite length_signalled; lia).
    rewrite length_signalled, Nat.sub_diag. reflexivity.
  - repeat split.
Qed.

Lemma clamp_cases (v : float) :
  let q := (v / 100)%float in
  let vol := py_max 0 (py_min 1 q) in
  vol = 0%float \/ vol = 1%float
  \/ (vol = q /\ (0 <? q)%float = true /\ (q <? 1)%float = true).
Proof.
  intros q vol. subst vol. unfold py_max, py_min.
  destruct (q <? 1)%float eqn:H1.
  - destruct (0 <? q)%float eqn:H0; auto.
  - right. left. reflexivity.
Qed.

(** C7: a speak request hands the rate slider's 80 and 260 to the session
    as the rates 80 and 260, and the volume slider's 0 and 100 as the
    volumes 0.0 and 1.0; whatever the volume slider reads, the session's
    volume is the reading divided by 100 when that lies strictly between 0.0
    and 1.0, and 0.0 or 1.0 otherwise. *)
Theorem slider_bounds_reach_the_session (st : t) (text : pystr) :
  let speak x v := _speak_text text (set_sld_volume v (set_sld_rate x st)) in
  let session st' := workers st' !! length (workers st) in
  (forall v, exists st' w,
      speak 80%float v = (Ret tt, st') /\ session st' = Some w
      /\ current_worker st' = Some (length (workers st))
      /\ SpeechWorker.rate w = 80)
  /\ (forall v, exists st' w,
      speak 260%float v = (Ret tt, st') /\ session st' = Some w
      /\ current_worker st' = Some (length (workers st))
      /\ SpeechWorker.rate w = 260)
  /\ (forall x r, py_int_of_float x = Some r -> exists st' w,
      speak x 0%float = (Ret tt, st') /\ session st' = Some w
      /\ SpeechWorker.rate w = r /\ SpeechWorker.volume w = 0%float)
  /\ (forall x r, py_int_of_float x = Some r -> exists st' w,
      speak x 100%float = (Ret tt, st') /\ session st' = Some w
      /\ SpeechWorker.rate w = r /\ SpeechWorker.volume w = 1%float)
  /\ (forall x v r, py_int_of_float x = Some r -> exists st' w,
      speak x v = (Ret tt, st') /\ session st' = Some w
      /\ SpeechWorker.volume w = py_max 0 (py_min 1 (v / 100))
      /\ (SpeechWorker.volume w = 0%float \/ SpeechWorker.volume w = 1%float
          \/ (SpeechWorker.volume w = (v / 100)%float
              /\ (0 <? v / 100)%float = true /\ (v / 100 <? 1)%float = true))).
Proof.
  intros speak session.
  assert (H : forall x v r, py_int_of_float x = Some r -> exists st' w,
             speak x v = (Ret tt, st') /\ session st' = Some w
             /\ current_worker st' = Some (length (workers st))
             /\ SpeechWorker.rate w = r
             /\ SpeechWorker.volume w = py_max 0 (py_min 1 (v / 100))).
  { intros x v r Hr. subst speak session.
    destruct (speak_session (set_sld_volume v (set_sld_rate x st)) text r Hr)
      as (st' & w & H1 & H2 & H3 & _ & _ & H4 & H5).
    exists st', w. auto. }
  split; [|split; [|split; [|split]]].
  - intros v. destruct (H 80%float v 80 eq_refl) as (st' & w & ? & ? & ? & ? & _).
    exists st', w. auto.
  - intros v. destruct (H 260%float v 260 eq_refl) as (st' & w & ? & ? & ? & ? & _).
    exists st', w. auto.
  - intros x r Hr. destruct (H x 0%float r Hr) as (st' & w & ? & ? & _ & ? & Hv).
    exists st', w. auto.
  - intros x r Hr. destruct (H x 100%float r Hr) as (st' & w & ? & ? & _ & ? & Hv).
    exists st', w. auto.
  - intros x v r Hr. destruct (H x v r Hr) as (st' & w & ? & ? & _ & _ & Hv).
    exists st', w. split; [assumption|]. split; [assumption|].
    split; [exact Hv|]. rewrite Hv. apply clamp_cases.
Qed.

End Sliders.

Lemma slider_bounds_reach_the_session_witness :
  py_int_of_float 260 = Some 260
  /\ exists st' w,
       ChatTTSApp._speak_text (py "Hi")
         (ChatTTSApp.set_sld_volume 100 (ChatTTSApp.set_sld_rate 260 hello_sent))
       = (Ret tt, st')
       /\ ChatTTSApp.workers st' !! length (ChatTTSApp.workers hello_sent) = Some w
       /\ SpeechWorker.rate w = 260 /\ SpeechWorker.volume w = 1%float.
Proof.
  split; [reflexivity|].
  destruct (slider_bounds_reach_the_session hello_sent (py "Hi"))
    as (_ & _ & _ & H & _).
  exact (H 260%float 260 eq_refl).
Defined.

(* ================================================================== *)
(** * Numerals, time stamps and lines *)
(* ================================================================== *)

Section Numerals.

Ltac char_facts H :=
  unfold numeral_char, stamp_char, is_digit, isspace in H;
  rewrite ?orb_true_iff, ?andb_true_iff, ?N.leb_le, ?N.eqb_eq in H.

Lemma numeral_char_plain (c : N) :
  numeral_char c = true ->
  isspace c = false /\ c <> 32%N /\ c <> 93%N /\ c <> LF /\ c <> CR /\ c <> 43%N.
Proof.
  intros H. char_facts H. unfold LF, CR. split; [|lia].
  destruct (isspace c) eqn:E; [|reflexivity]. exfalso.
  char_facts E. lia.
Qed.

Lemma stamp_char_plain (c : N) :
  stamp_char c = true -> c <> 93%N /\ c <> LF /\ c <> CR.
Proof. intros H. char_facts H. unfold LF, CR. lia. Qed.

Lemma uint_codes_digits (d : Decimal.uint) :
  Forall (fun c => is_digit c = true) (uint_codes d).
Proof. induction d; simpl; constructor; auto. Qed.

Lemma Forall_replicate_zero (k : nat) :
  Forall (fun c => is_digit c = true) (replicate k 48%N).
Proof. induction k; simpl; constructor; auto. Qed.

Lemma format_0d_chars (w : nat) (z : Z) :
  Forall (fun c => numeral_char c = true) (format_0d w z).
Proof.
  assert (H : forall l, Forall (fun c => is_digit c = true) l ->
                        Forall (fun c => numeral_char c = true) l).
  { intros l Hl. eapply Forall_impl; [exact Hl|]. simpl. intros c Hc.
    unfold numeral_char. rewrite Hc. reflexivity. }
  unfold format_0d, str_of_N. destruct (z <? 0).
  - constructor; [reflexivity|]. apply H, Forall_app.
    split; [apply Forall_replicate_zero | apply uint_codes_digits].
  - apply H, Forall_app.
    split; [apply Forall_replicate_zero | apply uint_codes_digits].
Qed.

Lemma format_0d_stamp_chars (w : nat) (z : Z) :
  Forall (fun c => stamp_char c = true) (format_0d w z).
Proof.
  eapply Forall_impl; [apply format_0d_chars|]. simpl. intros c Hc.
  unfold numeral_char in Hc. unfold stamp_char.
  apply orb_true_iff in Hc as [-> | ->]; [reflexivity|].
  rewrite orb_true_r. reflexivity.
Qed.

Lemma hms_chars (t : Z) : Forall (fun c => stamp_char c = true) (Clock.hms t).
Proof.
  unfold Clock.hms.
  repeat (apply Forall_app; split);
    try apply format_0d_stamp_chars; repeat constructor.
Qed.

Lemma ymd_chars (t : Z) : Forall (fun c => stamp_char c = true) (Clock.ymd t).
Proof.
  unfold Clock.ymd. destruct (Clock.civil_from_days _) as [[y m] d].
  repeat (apply Forall_app; split);
    try apply format_0d_stamp_chars; repeat constructor.
Qed.

Lemma strftime_full_chars (utcoffset : Z -> Z) (ts : Z) :
  Forall (fun c => stamp_char c = true) (Clock.strftime_full utcoffset ts).
Proof.
  unfold Clock.strftime_full.
  apply Forall_app; split; [apply ymd_chars|].
  apply Forall_app; split; [repeat constructor | apply hms_chars].
Qed.

(** ** [int] reads back what [format] wrote *)

Lemma digits_value_digit (acc : Z) (b : bool) (c : N) (s : pystr) :
  is_digit c = true ->
  digits_value acc b (c :: s) = digits_value (10 * acc + (Z.of_N c - 48)) true s.
Proof. intros H. simpl. rewrite H. reflexivity. Qed.

Lemma digits_value_pos (d : Decimal.uint) (p : positive) :
  digits_value (Z.pos p) true (uint_codes d)
  = Some (Z.pos (Pos.of_uint_acc d p)).
Proof.
  revert p. induction d; intros p; [reflexivity| ..];
    cbn [uint_codes Pos.of_uint_acc];
    rewrite digits_value_digit by reflexivity;
    rewrite <- IHd; f_equal; lia.
Qed.

Lemma digits_value_zero (d : Decimal.uint) :
  digits_value 0 true (uint_codes d) = Some (Z.of_N (Pos.of_uint d)).
Proof.
  induction d; [reflexivity| ..];
    cbn [uint_codes Pos.of_uint];
    rewrite digits_value_digit by reflexivity;
    [exact IHd | ..]; apply (digits_value_pos d).
Qed.

Lemma digits_value_first (d : Decimal.uint) :
  d <> Decimal.Nil ->
  digits_value 0 false (uint_codes d) = Some (Z.of_N (Pos.of_uint d)).
Proof.
  intros Hd. rewrite <- digits_value_zero.
  destruct d; [contradiction| ..]; cbn [uint_codes];
    rewrite !digits_value_digit by reflexivity; reflexivity.
Qed.

Lemma digits_value_padding (k : nat) (b : bool) (s : pystr) :
  digits_value 0 b (replicate k 48%N ++ s)
  = digits_value 0 (b || negb (Nat.eqb k 0)) s.
Proof.
  revert b. induction k as [|k IH]; intros b; simpl replicate; simpl app.
  - rewrite orb_false_r. reflexivity.
  - rewrite digits_value_digit by reflexivity. simpl Z.add.
    rewrite IH. simpl. rewrite orb_true_r. reflexivity.
Qed.

Lemma digits_value_padded (k : nat) (n : N) :
  digits_value 0 false (replicate k 48%N ++ str_of_N n) = Some (Z.of_N n).
Proof.
  unfold str_of_N.
  assert (Hn : N.to_uint n <> Decimal.Nil).
  { destruct n; [discriminate | apply DecimalPos.Unsigned.to_uint_nonnil]. }
  rewrite digits_value_padding. simpl orb.
  destruct (Nat.eqb k 0); simpl negb.
  - rewrite (digits_value_first _ Hn).
    change (Pos.of_uint (N.to_uint n)) with (N.of_uint (N.to_uint n)).
    rewrite DecimalN.Unsigned.of_to. reflexivity.
  - rewrite digits_value_zero.
    change (Pos.of_uint (N.to_uint n)) with (N.of_uint (N.to_uint n)).
    rewrite DecimalN.Unsigned.of_to. reflexivity.
Qed.

Lemma str_of_N_nonempty (n : N) : str_of_N n <> [].
Proof.
  unfold str_of_N.
  assert (Hn : N.to_uint n <> Decimal.Nil).
  { destruct n; [discriminate | apply DecimalPos.Unsigned.to_uint_nonnil]. }
  destruct (N.to_uint n); [contradiction| ..]; discriminate.
Qed.

Lemma lstrip_plain (s : pystr) :
  Forall (fun c => isspace c = false) s -> lstrip s = s.
Proof. destruct 1 as [|c s Hc _]; simpl; [|rewrite Hc]; reflexivity. Qed.

Lemma strip_plain (s : pystr) :
  Forall (fun c => isspace c = false) s -> strip s = s.
Proof.
  intros H. unfold strip, rstrip. rewrite (lstrip_plain s H).
  rewrite lstrip_plain; [apply rev_involutive|].
  apply Forall_rev. exact H.
Qed.

Lemma py_int_format_0d (w : nat) (z : Z) : py_int (format_0d w z) = Some z.
Proof.
  unfold py_int. rewrite strip_plain.
  2:{ eapply Forall_impl; [apply format_0d_chars|]. simpl. intros c Hc.
      apply numeral_char_plain. exact Hc. }
  unfold format_0d. destruct (z <? 0) eqn:Hz.
  - rewrite N.eqb_refl, digits_value_padded. simpl.
    f_equal. apply Z.ltb_lt in Hz. lia.
  - apply Z.ltb_ge in Hz.
    assert (Hv := digits_value_padded (w - length (str_of_N (Z.abs_N z)))
                    (Z.abs_N z)).
    destruct (replicate _ 48%N ++ str_of_N (Z.abs_N z)) as [|c ds] eqn:E.
    + apply app_eq_nil in E as [_ E]. exfalso. eapply str_of_N_nonempty; eauto.
    + assert (Hc : is_digit c = true).
      { assert (F : Forall (fun c => is_digit c = true) (c :: ds)).
        { rewrite <- E. apply Forall_app.
          split; [apply Forall_replicate_zero | apply uint_codes_digits]. }
        inversion F; assumption. }
      assert (H45 : (c =? 45)%N = false).
      { apply N.eqb_neq. unfold is_digit in Hc.
        rewrite andb_true_iff, !N.leb_le in Hc. lia. }
      assert (H43 : (c =? 43)%N = false).
      { apply N.eqb_neq. unfold is_digit in Hc.
        rewrite andb_true_iff, !N.leb_le in Hc. lia. }
      rewrite H45, H43, Hv. f_equal. lia.
Qed.

(** ** [int] reads a numeral of the message counter back *)

Lemma to_ascii_decimal_plain (s : pystr) :
  Forall (fun c => (c <? 127)%N = true) s -> to_ascii_decimal s = Some s.
Proof.
  induction 1 as [|c s Hc _ IH]; [reflexivity|].
  simpl. rewrite Hc, IH. reflexivity.
Qed.

Lemma skip_spaces_plain (s : pystr) :
  Forall (fun c => ascii_space c = false) s -> skip_spaces s = s.
Proof. destruct 1 as [|c s Hc _]; simpl; [|rewrite Hc]; reflexivity. Qed.

Lemma trim_spaces_plain (s : pystr) :
  Forall (fun c => ascii_space c = false) s -> trim_spaces s = s.
Proof.
  intros H. unfold trim_spaces. rewrite (skip_spaces_plain s H).
  rewrite skip_spaces_plain; [apply rev_involutive|].
  apply Forall_rev. exact H.
Qed.

Lemma numeral_char_ascii (c : N) :
  numeral_char c = true -> (c <? 127)%N = true /\ ascii_space c = false.
Proof.
  intros H. char_facts H. split; [apply N.ltb_lt; lia|].
  unfold ascii_space.
  destruct (((9 <=? c) && (c <=? 13))%N || (c =? 32)%N) eqn:E; [|reflexivity].
  exfalso. rewrite orb_true_iff, andb_true_iff, !N.leb_le, N.eqb_eq in E. lia.
Qed.

Lemma signed_digits_format_0d (w : nat) (z : Z) :
  signed_digits (format_0d w z) = Some z.
Proof.
  transitivity (py_int (format_0d w z)); [|apply py_int_format_0d].
  unfold py_int. rewrite strip_plain; [reflexivity|].
  eapply Forall_impl; [apply format_0d_chars|]. simpl. intros c Hc.
  apply numeral_char_plain. exact Hc.
Qed.

(** [int] reads an integer back from its rendering, as long as that has no
    more digits than [int] takes. *)
Lemma int_of_str_format_0d (w : nat) (z : Z) :
  (length (format_0d w z) <= int_max_str_digits)%nat ->
  int_of_str (format_0d w z) = Some z.
Proof.
  intros Hlen. unfold int_of_str.
  rewrite to_ascii_decimal_plain.
  2:{ eapply Forall_impl; [apply format_0d_chars|]. simpl. intros c Hc.
      apply numeral_char_ascii. exact Hc. }
  rewrite trim_spaces_plain.
  2:{ eapply Forall_impl; [apply format_0d_chars|]. simpl. intros c Hc.
      apply numeral_char_ascii. exact Hc. }
  cbv zeta.
  assert (Hd : (length (filter (fun c => is_digit c = true) (format_0d w z))
                <= int_max_str_digits)%nat).
  { etransitivity; [apply length_filter | exact Hlen]. }
  apply Nat.leb_le in Hd. rewrite Hd. apply signed_digits_format_0d.
Qed.

End Numerals.

(* ================================================================== *)
(** * The export file *)
(* ================================================================== *)

Section Lines.

Lemma before_app (sep : N) (a b : pystr) :
  Forall (fun c => c <> sep) a -> before sep (a ++ sep :: b) = a.
Proof.
  induction 1 as [|c a Hc _ IH]; simpl.
  - rewrite N.eqb_refl. reflexivity.
  - apply N.eqb_neq in Hc. rewrite Hc, IH. reflexivity.
Qed.

Lemma after_app (sep : N) (a b : pystr) :
  Forall (fun c => c <> sep) a -> after sep (a ++ sep :: b) = b.
Proof.
  induction 1 as [|c a Hc _ IH]; simpl.
  - rewrite N.eqb_refl. reflexivity.
  - apply N.eqb_neq in Hc. rewrite Hc, IH. reflexivity.
Qed.

Lemma contains_app (sep : N) (a b : pystr) :
  contains sep (a ++ sep :: b) = true.
Proof.
  unfold contains. rewrite existsb_app. simpl. rewrite N.eqb_refl.
  apply orb_true_r.
Qed.

Lemma split_on_app (sep : N) (l rest : pystr) :
  Forall (fun c => c <> sep) l ->
  split_on sep (l ++ sep :: rest) = l :: split_on sep rest.
Proof.
  induction 1 as [|c l Hc _ IH]; simpl.
  - rewrite N.eqb_refl. reflexivity.
  - apply N.eqb_neq in Hc. rewrite Hc, IH. reflexivity.
Qed.

Lemma split_on_terminated (ls : list pystr) :
  Forall (Forall (fun c => c <> LF)) ls ->
  split_on LF (concat (map (fun l => l ++ [LF]) ls)) = ls ++ [[]].
Proof.
  induction 1 as [|l ls Hl _ IH]; [reflexivity|].
  simpl. rewrite <- app_assoc. simpl. rewrite (split_on_app LF l _ Hl), IH.
  reflexivity.
Qed.

Lemma lines_terminated (ls : list pystr) :
  Forall (Forall (fun c => c <> LF)) ls ->
  lines (concat (map (fun l => l ++ [LF]) ls)) = ls.
Proof.
  intros H. unfold lines. rewrite (split_on_terminated ls H).
  rewrite rev_app_distr. simpl. apply rev_involutive.
Qed.

Lemma read_write_text (crlf : bool) (s : pystr) :
  Forall (fun c => c <> CR) s -> read_text (write_text crlf s) = s.
Proof.
  induction 1 as [|c s Hc _ IH]; [reflexivity|].
  apply N.eqb_neq in Hc. simpl.
  destruct (c =? LF)%N eqn:E.
  - apply N.eqb_eq in E. subst c. destruct crlf; simpl; rewrite IH; reflexivity.
  - simpl. rewrite Hc, IH. reflexivity.
Qed.

End Lines.

Section ExportFile.
Variable utcoffset : Z -> Z.
Import ChatTTSApp.

Lemma log_line_record (m : Message.t) :
  log_line (Clock.strftime_full utcoffset (Message.ts m)) m
  = export_record utcoffset m ++ [LF].
Proof.
  unfold log_line, export_record. rewrite <- !app_assoc. reflexivity.
Qed.

Lemma export_text_records (msgs : list Message.t) :
  export_text utcoffset msgs
  = concat (map (fun l => l ++ [LF]) (map (export_record utcoffset) msgs)).
Proof.
  unfold export_text. rewrite map_map. f_equal.
  apply map_ext. intros m. apply log_line_record.
Qed.

Lemma export_record_single_line (m : Message.t) :
  single_line (Message.text m) -> single_line (export_record utcoffset m).
Proof.
  intros Ht. unfold single_line, export_record.
  apply Forall_app. split; [repeat constructor; discriminate|].
  apply Forall_app. split.
  { eapply Forall_impl; [apply format_0d_chars|]. simpl. intros c Hc.
    apply numeral_char_plain in Hc. tauto. }
  apply Forall_app. split; [repeat constructor; discriminate|].
  apply Forall_app. split.
  { eapply Forall_impl; [apply strftime_full_chars|]. simpl. intros c Hc.
    apply stamp_char_plain in Hc. tauto. }
  apply Forall_app. split; [repeat constructor; discriminate | exact Ht].
Qed.

Lemma single_line_no_LF (s : pystr) :
  single_line s -> Forall (fun c => c <> LF) s.
Proof. intros H. eapply Forall_impl; [exact H|]. simpl. tauto. Qed.

Lemma single_line_no_CR (s : pystr) :
  single_line s -> Forall (fun c => c <> CR) s.
Proof. intros H. eapply Forall_impl; [exact H|]. simpl. tauto. Qed.

Lemma file_lines_export (crlf : bool) (msgs : list Message.t) :
  Forall (fun m => single_line (Message.text m)) msgs ->
  file_lines (write_text crlf (export_text utcoffset msgs))
  = map (export_record utcoffset) msgs.
Proof.
  intros H. unfold file_lines. rewrite export_text_records.
  assert (Hrec : Forall single_line (map (export_record utcoffset) msgs)).
  { apply Forall_map. eapply Forall_impl; [exact H|]. simpl.
    intros m. apply export_record_single_line. }
  rewrite read_write_text.
  - apply lines_terminated. eapply Forall_impl; [exact Hrec|].
    apply single_line_no_LF.
  - apply Forall_concat, Forall_map. eapply Forall_impl; [exact Hrec|]. simpl.
    intros l Hl. apply Forall_app. split; [apply single_line_no_CR; exact Hl|].
    repeat constructor. discriminate.
Qed.

Lemma read_line_record (m : Message.t) :
  read_line (export_record utcoffset m) = Some (entry_of utcoffset m).
Proof.
  unfold export_record, read_line, entry_of.
  set (num := format_0d 3 (Message.id m)).
  set (stamp := Clock.strftime_full utcoffset (Message.ts m)).
  change (py "[" ++ num ++ py " " ++ stamp ++ py "] " ++ Message.text m)
    with (91%N :: num ++ 32%N :: stamp ++ 93%N :: 32%N :: Message.text m).
  assert (Hnum : forall t, Forall (fun c => c <> t) num \/ t <> 32%N /\ t <> 93%N).
  { intros t. destruct (decide (t = 32%N \/ t = 93%N)) as [Ht|Ht]; [left|right; tauto].
    eapply Forall_impl; [apply format_0d_chars|]. simpl. intros c Hc.
    apply numeral_char_plain in Hc. destruct Ht; subst t; tauto. }
  assert (Hstamp : Forall (fun c => c <> 93%N) stamp).
  { eapply Forall_impl; [apply strftime_full_chars|]. simpl. intros c Hc.
    apply stamp_char_plain in Hc. tauto. }
  assert (H32 : Forall (fun c => c <> 32%N) num).
  { destruct (Hnum 32%N) as [H|[H _]]; [exact H | congruence]. }
  assert (H93 : Forall (fun c => c <> 93%N) (num ++ 32%N :: stamp)).
  { apply Forall_app. split.
    - destruct (Hnum 93%N) as [H|[_ H]]; [exact H | congruence].
    - constructor; [discriminate | exact Hstamp]. }
  replace (num ++ 32%N :: stamp ++ 93%N :: 32%N :: Message.text m)
    with ((num ++ 32%N :: stamp) ++ 93%N :: 32%N :: Message.text m)
    by (rewrite <- app_assoc; reflexivity).
  rewrite N.eqb_refl, contains_app, (before_app _ _ _ H93), (after_app _ _ _ H93).
  simpl andb. cbv iota. rewrite N.eqb_refl.
  rewrite (before_app _ _ _ H32), (after_app _ _ _ H32).
  unfold num. rewrite py_int_format_0d. reflexivity.
Qed.

Lemma export_record_id (m1 m2 : Message.t) :
  export_record utcoffset m1 = export_record utcoffset m2 ->
  Message.id m1 = Message.id m2.
Proof.
  intros H. apply (f_equal read_line) in H.
  rewrite !read_line_record in H. unfold entry_of in H. congruence.
Qed.

Lemma export_log_writes (path : pystr) (st : t) :
  messages st <> [] -> path <> [] ->
  files (dispatch utcoffset (ExportLog path) st)
  = (path, export_text utcoffset (messages st)) :: files st.
Proof.
  intros Hm Hp. unfold dispatch. simpl. unfold export_log.
  unfold bind, get, modify, showdialog. simpl.
  destruct (messages st); [congruence|]. destruct path; [congruence|].
  reflexivity.
Qed.

End ExportFile.

Section ExportFormat.
Variable utcoffset : Z -> Z.
Import ChatTTSApp.

Lemma format_0d_3_width (z : Z) :
  (3 <= length (format_0d 3 z))%nat
  /\ (0 <= z < 1000 -> length (format_0d 3 z) = 3%nat).
Proof.
  split.
  - unfold format_0d. destruct (z <? 0); simpl length;
      rewrite length_app, length_replicate; lia.
  - intros Hz.
    assert (Hall : forallb (fun k => Nat.eqb (length (format_0d 3 (Z.of_nat k))) 3)
                     (seq 0 1000) = true) by (vm_compute; reflexivity).
    rewrite forallb_forall in Hall.
    specialize (Hall (Z.to_nat z)). rewrite Z2Nat.id in Hall by lia.
    apply Nat.eqb_eq, Hall, in_seq. lia.
Qed.

Lemma no_record_of_other_id (m : Message.t) (msgs : list Message.t) :
  Message.id m ∉ map Message.id msgs ->
  filter (fun l => l = export_record utcoffset m)
         (map (export_record utcoffset) msgs) = [].
Proof.
  induction msgs as [|x msgs IH]; intros Hm; [reflexivity|].
  simpl map. rewrite filter_cons.
  simpl in Hm. apply not_elem_of_cons in Hm as [Hx Hm].
  destruct (decide (export_record utcoffset x = export_record utcoffset m))
    as [E|E]; [|apply IH; exact Hm].
  apply export_record_id in E. congruence.
Qed.

Lemma one_record_of_each_id (m : Message.t) (msgs : list Message.t) :
  NoDup (map Message.id msgs) -> m ∈ msgs ->
  length (filter (fun l => l = export_record utcoffset m)
                 (map (export_record utcoffset) msgs)) = 1%nat.
Proof.
  induction msgs as [|x msgs IH]; intros Hnd Hm; [inversion Hm|].
  simpl in Hnd. apply NoDup_cons in Hnd as [Hx Hnd].
  simpl map. rewrite filter_cons.
  apply elem_of_cons in Hm as [-> | Hm].
  - destruct (decide (export_record utcoffset x = export_record utcoffset x));
      [|congruence].
    simpl. rewrite (no_record_of_other_id x msgs Hx). reflexivity.
  - destruct (decide (export_record utcoffset x = export_record utcoffset m))
      as [E|E]; [|apply IH; assumption].
    exfalso. apply export_record_id in E. apply Hx. rewrite E.
    apply list_elem_of_fmap. exists m. auto.
Qed.

(** C6, as the code has it: the exported text is, in the order of the
    history, one record [[<id> <timestamp>] <text>] and a newline per
    message, the id zero-padded to at least three digits (exactly three
    below 1000) and reading back as the id.  When no text of the history
    holds a line break, the records are the lines of the file, one line per
    message, and with distinct ids each message has exactly one line of its
    own. *)
Theorem export_one_record_per_message (crlf : bool) (msgs : list Message.t) :
  export_text utcoffset msgs
  = concat (map (fun m => export_record utcoffset m ++ [LF]) msgs)
  /\ (forall m, m ∈ msgs ->
        py_int (format_0d 3 (Message.id m)) = Some (Message.id m)
        /\ (3 <= length (format_0d 3 (Message.id m)))%nat
        /\ (0 <= Message.id m < 1000 ->
            length (format_0d 3 (Message.id m)) = 3%nat))
  /\ (Forall (fun m => single_line (Message.text m)) msgs ->
      file_lines (write_text crlf (export_text utcoffset msgs))
      = map (export_record utcoffset) msgs
      /\ (NoDup (map Message.id msgs) ->
          one_line_per_message utcoffset crlf msgs)).
Proof.
  split; [rewrite export_text_records, map_map; reflexivity|]. split.
  - intros m _. split; [apply py_int_format_0d | apply format_0d_3_width].
  - intros H. split; [apply file_lines_export; exact H|].
    intros Hnd m Hm. rewrite (file_lines_export utcoffset crlf msgs H).
    apply one_record_of_each_id; assumption.
Qed.

(** C5, as the code has it: when no text of a non-empty history holds a line
    break, the file that [export_log] writes reads back, line by line, as
    the id, the formatted time stamp and the exact text of each message, one
    entry per message in the order of the history. *)
Theorem export_reads_back (crlf : bool) (st : t) (path : pystr) :
  messages st <> [] ->
  path <> [] ->
  Forall (fun m => single_line (Message.text m)) (messages st) ->
  exists text,
    files (dispatch utcoffset (ExportLog path) st) = (path, text) :: files st
    /\ read_export (write_text crlf text)
       = map (fun m => Some (entry_of utcoffset m)) (messages st)
    /\ length (read_export (write_text crlf text)) = length (messages st).
Proof.
  intros Hm Hp Hs. exists (export_text utcoffset (messages st)).
  split; [apply export_log_writes; assumption|].
  assert (E : read_export (write_text crlf (export_text utcoffset (messages st)))
              = map (fun m => Some (entry_of utcoffset m)) (messages st)).
  { unfold read_export. rewrite (file_lines_export utcoffset crlf _ Hs).
    rewrite map_map. apply map_ext. intros m. apply read_line_record. }
  split; [exact E|]. rewrite E. apply length_map.
Qed.

End ExportFormat.

Lemma export_one_record_per_message_witness :
  Forall (fun m => single_line (Message.text m))
         (ChatTTSApp.messages hello_world_sent)
  /\ NoDup (map Message.id (ChatTTSApp.messages hello_world_sent))
  /\ one_line_per_message Clock.UTC true (ChatTTSApp.messages hello_world_sent).
Proof.
  assert (M : ChatTTSApp.messages hello_world_sent
              = [ {| Message.id := 1; Message.ts := 0;
                     Message.text := py "Hello" |};
                  {| Message.id := 2; Message.ts := 1000000;
                     Message.text := py "World" |} ])
    by (vm_compute; reflexivity).
  assert (H : Forall (fun m => single_line (Message.text m))
                     (ChatTTSApp.messages hello_world_sent)).
  { rewrite M. repeat constructor; discriminate. }
  assert (Hnd : NoDup (map Message.id (ChatTTSApp.messages hello_world_sent))).
  { rewrite M. change (NoDup [1; 2]). apply NoDup_cons. split.
    - rewrite list_elem_of_singleton. discriminate.
    - apply NoDup_singleton. }
  split; [exact H|]. split; [exact Hnd|].
  destruct (export_one_record_per_message Clock.UTC true
              (ChatTTSApp.messages hello_world_sent)) as (_ & _ & E).
  exact (proj2 (E H) Hnd).
Defined.

Lemma export_reads_back_witness :
  ChatTTSApp.messages hello_world_sent <> []
  /\ py "out.txt" <> []
  /\ Forall (fun m => single_line (Message.text m))
            (ChatTTSApp.messages hello_world_sent)
  /\ exists text,
       ChatTTSApp.files (dispatch Clock.UTC (ExportLog (py "out.txt")) hello_world_sent)
       = (py "out.txt", text) :: ChatTTSApp.files hello_world_sent
       /\ read_export (write_text false text)
          = map (fun m => Some (entry_of Clock.UTC m))
                (ChatTTSApp.messages hello_world_sent)
       /\ length (read_export (write_text false text))
          = length (ChatTTSApp.messages hello_world_sent).
Proof.
  assert (M : ChatTTSApp.messages hello_world_sent
              = [ {| Message.id := 1; Message.ts := 0;
                     Message.text := py "Hello" |};
                  {| Message.id := 2; Message.ts := 1000000;
                     Message.text := py "World" |} ])
    by (vm_compute; reflexivity).
  assert (Hm : ChatTTSApp.messages hello_world_sent <> [])
    by (rewrite M; discriminate).
  assert (Hp : py "out.txt" <> []) by discriminate.
  assert (H : Forall (fun m => single_line (Message.text m))
                     (ChatTTSApp.messages hello_world_sent)).
  { rewrite M. repeat constructor; discriminate. }
  split; [exact Hm|]. split; [exact Hp|]. split; [exact H|].
  exact (export_reads_back Clock.UTC false hello_world_sent (py "out.txt") Hm Hp H).
Defined.

(** The sentence of C6 fails on a message of two lines: its record is
    spread over two lines of the file, neither of which is the record. *)
Lemma two_line_message_has_no_line_of_its_own :
  ~ one_line_per_message Clock.UTC false (ChatTTSApp.messages two_lines_sent).
Proof.
  intros H.
  specialize (H {| Message.id := 1; Message.ts := 0; Message.text := py "a
b" |}).
  assert (Hin : {| Message.id := 1; Message.ts := 0; Message.text := py "a
b" |} ∈ ChatTTSApp.messages two_lines_sent).
  { vm_compute. apply list_elem_of_here. }
  specialize (H Hin). vm_compute in H. discriminate.
Qed.

(** The sentence of C5 fails: a history of one message and a history of two
    are exported to the same file, so that no way of reading the file gives
    back the entries of both. *)
Lemma export_does_not_round_trip : ~ export_round_trips Clock.UTC false.
Proof.
  intros [read H].
  assert (H1 : reachable Clock.UTC lookalike_sent).
  { unfold lookalike_sent. apply reachable_play, reachable_bare. }
  assert (H2 : reachable Clock.UTC a_b_sent).
  { unfold a_b_sent. apply reachable_play, reachable_bare. }
  pose proof (H lookalike_sent H1 ltac:(vm_compute; discriminate)) as E1.
  pose proof (H a_b_sent H2 ltac:(vm_compute; discriminate)) as E2.
  assert (Esame :
    ChatTTSApp.export_text Clock.UTC (ChatTTSApp.messages lookalike_sent)
    = ChatTTSApp.export_text Clock.UTC (ChatTTSApp.messages a_b_sent))
    by (vm_compute; reflexivity).
  rewrite Esame, E2 in E1. apply (f_equal (@length entry)) in E1.
  vm_compute in E1. discriminate E1.
Qed.

(* ================================================================== *)
(** * Effects of the handlers on the sessions *)
(* ================================================================== *)

Section Effects.
Variable utcoffset : Z -> Z.
Import ChatTTSApp.

Ltac monad :=
  unfold bind, get, modify, ret, raise, showdialog, _set_status; simpl.

Lemma _speak_text_effect (text : pystr) (st s : t) :
  workers s = workers st -> current_worker s = current_worker st ->
  sld_rate s = sld_rate st ->
  handler_effect st (snd (_speak_text text s)).
Proof.
  intros Hw Hc Hr. rewrite _speak_text_spec.
  destruct (py_int_of_float (sld_rate s)) as [r|] eqn:E; simpl.
  - eapply (effect_speak _ _ s text r); simpl.
    + rewrite <- Hr. exact E.
    + rewrite (signalled_from st s Hw Hc). reflexivity.
    + rewrite Hw. reflexivity.
  - apply effect_signal; simpl; [apply signalled_from|]; assumption.
Qed.

Lemma _poll_worker_done_effect (n : nat) (st : t) :
  handler_effect st (snd (_poll_worker_done n st)).
Proof.
  rewrite _poll_worker_done_spec. simpl.
  destruct (current_worker st) as [i|] eqn:Hc;
    [|apply effect_none; reflexivity].
  destruct (workers st !! i) as [w|] eqn:Hw;
    [|apply effect_none; reflexivity].
  destruct (SpeechWorker.is_alive w) eqn:Ha;
    [apply effect_none; reflexivity|].
  eapply effect_clear; simpl; eauto.
Qed.

Lemma dispatch_effect (ev : event) (st : t) :
  handler_effect st (dispatch utcoffset ev st).
Proof.
  unfold dispatch. destruct ev; simpl;
    try (apply effect_none; reflexivity).
  - destruct (strip (txt_input st)) as [|c r] eqn:E.
    + rewrite send_message_blank by exact E. apply effect_none; reflexivity.
    + rewrite send_message_spec by congruence.
      destruct (auto_speak_var st); [|apply effect_none; reflexivity].
      apply _speak_text_effect; reflexivity.
  - rewrite stop_speaking_spec. apply effect_signal; reflexivity.
  - unfold replay_last. monad. destruct (last (messages st)) as [m|];
      [|apply effect_none; reflexivity].
    apply _speak_text_effect; reflexivity.
  - unfold export_log. monad. destruct (messages st); simpl;
      [apply effect_none; reflexivity|].
    destruct path; apply effect_none; reflexivity.
  - unfold export_log. monad. destruct (messages st); simpl;
      [apply effect_none; reflexivity|].
    destruct path; [|destruct f]; apply effect_none; reflexivity.
  - unfold clear_log. monad. destruct (messages st); simpl;
      [apply effect_none; reflexivity|].
    destruct yes; apply effect_none; reflexivity.
  - unfold _ctx_replay, try_except, clicked_line. monad.
    destruct (rc_click_index st) as [i|]; simpl;
      [|apply effect_none; reflexivity].
    set (text := if contains 93 _ then _ else _).
    destruct text as [|c r]; simpl; [apply effect_none; reflexivity|].
    pose proof (_speak_text_effect (c :: r) st st eq_refl eq_refl eq_refl)
      as H.
    destruct (_speak_text (c :: r) st) as [[a|e] s']; simpl in *; [exact H|].
    destruct (is_Exception e); exact H.
  - destruct (rc_click_index st) as [i|] eqn:Hi.
    + rewrite (_ctx_delete_spec st i Hi). simpl.
      destruct (line_id _); apply effect_none; reflexivity.
    + unfold _ctx_delete, try_except, clicked_line. monad. rewrite Hi. simpl.
      apply effect_none; reflexivity.
  - apply _poll_worker_done_effect.
Qed.

End Effects.

(* ================================================================== *)
(** * The shape of every run of a worker *)
(* ================================================================== *)

Section RunShape.
Import SpeechWorker.

(** X1: Whatever the engine does, [run] ends with the worker dead and only
    [exc] possibly changed, and then to an [Exception] that one of the calls
    of the utterance proper (starting the engine, connecting the callback,
    queueing the text, speaking, stopping) raised; text, voice, rate, volume
    and cancel flag are as before; and what escapes [run], if anything, is
    no [Exception] and was raised by a call of the engine. *)
Theorem run_always_ends_clean (o : engine_run) (w : t) :
  exists e',
    fst (run_thread o w) = set_thread Dead (set_exc e' w)
    /\ (e' = exc w
        \/ exists msg, e' = Some (Exception msg)
                       /\ engine_raised o (Exception msg))
    /\ text (fst (run_thread o w)) = text w
    /\ stop_flag (fst (run_thread o w)) = stop_flag w
    /\ is_alive (fst (run_thread o w)) = false
    /\ (forall e, snd (run_thread o w) = Some e ->
          is_Exception e = false /\ engine_raised_any o e).
Proof.
  destruct (run_shape o w) as (e' & Hfst & He & Hdead & Hesc).
  exists e'. split; [exact Hfst|]. split; [exact He|].
  rewrite Hfst. split; [reflexivity|]. split; [reflexivity|].
  split; [reflexivity | exact Hesc].
Qed.

(** X2: Failures of the best-effort settings never change how a run ends: the
    run with a voice, rate or volume that the engine rejects with an
    [Exception] ends as the run in which the engine accepts them. *)
Theorem rejected_settings_are_ignored (o : engine_run) (w : t) :
  tolerated (set_voice_raises o) ->
  tolerated (set_rate_raises o) ->
  tolerated (set_volume_raises o) ->
  run_thread o w
  = run_thread
      {| init_raises := init_raises o; set_voice_raises := None;
         set_rate_raises := None; set_volume_raises := None;
         connect_raises := connect_raises o; say_raises := say_raises o;
         word_flags := word_flags o;
         runAndWait_raises := runAndWait_raises o;
         stop_raises := stop_raises o;
         abort_stop_raises := abort_stop_raises o |} w.
Proof.
  intros Hv Hr Hvol.
  assert (E : forall fr, run_try o fr
    = run_try {| init_raises := init_raises o; set_voice_raises := None;
         set_rate_raises := None; set_volume_raises := None;
         connect_raises := connect_raises o; say_raises := say_raises o;
         word_flags := word_flags o;
         runAndWait_raises := runAndWait_raises o;
         stop_raises := stop_raises o;
         abort_stop_raises := abort_stop_raises o |} fr).
  { intros fr. unfold run_try. simpl.
    apply bind_ext; [reflexivity|]. intros _ s1.
    apply bind_ext; [reflexivity|]. intros _ s2.
    apply bind_ext; [reflexivity|]. intros fr' s3.
    apply bind_ext.
    { intros s. destruct (truthy _); [|reflexivity].
      apply try_pass_tolerated. exact Hv. }
    intros _ s4. apply bind_ext; [intros s; apply try_pass_tolerated, Hr|].
    intros _ s5. apply bind_ext; [intros s; apply try_pass_tolerated, Hvol|].
    intros _ s6. apply bind_ext; [reflexivity|].
    intros _ s7. apply bind_ext; [reflexivity|].
    intros _ s8. apply bind_ext; [|reflexivity].
    intros s. apply runAndWait_same. reflexivity. }
  unfold run_thread, run, try_finally, try_except. rewrite E. reflexivity.
Qed.

End RunShape.

Lemma rejected_settings_are_ignored_witness :
  tolerated (set_volume_raises broken_engine)
  /\ SpeechWorker.run_thread broken_engine stopping_worker
     = SpeechWorker.run_thread
         {| init_raises := None; set_voice_raises := None;
            set_rate_raises := None; set_volume_raises := None;
            connect_raises := None; say_raises := None;
            word_flags := [false; false];
            runAndWait_raises := Some (Exception (py "device lost"));
            stop_raises := None; abort_stop_raises := None |}
         stopping_worker.
Proof.
  split; [reflexivity|].
  exact (rejected_settings_are_ignored broken_engine stopping_worker I I eq_refl).
Defined.

(* ================================================================== *)
(** * How worker records evolve *)
(* ================================================================== *)

Section Evolution.
Variable utcoffset : Z -> Z.
Import ChatTTSApp.

Lemma later_worker_refl (w : SpeechWorker.t) : later_worker w w.
Proof. repeat split; auto. Qed.

Lemma later_worker_trans (w1 w2 w3 : SpeechWorker.t) :
  later_worker w1 w2 -> later_worker w2 w3 -> later_worker w1 w3.
Proof.
  intros (A1 & A2 & A3 & A4 & A5 & A6 & A7) (B1 & B2 & B3 & B4 & B5 & B6 & B7).
  repeat split; try congruence; auto.
  intros Hd. pose proof (A7 Hd) as ->. apply B7. exact Hd.
Qed.

Lemma later_worker_stop (w : SpeechWorker.t) :
  SpeechWorker.is_alive w = true -> later_worker w (SpeechWorker.stop w).
Proof. intros Ha. repeat split; auto. congruence. Qed.

Lemma signalled_at (st : t) (i : nat) (w : SpeechWorker.t) :
  workers st !! i = Some w ->
  exists w', signalled st !! i = Some w' /\ later_worker w w'
             /\ failed w' = failed w.
Proof.
  intros Hw. unfold signalled.
  destruct (current_worker st) as [c|];
    [|eauto using later_worker_refl].
  destruct (workers st !! c) as [wc|] eqn:Hc;
    [|eauto using later_worker_refl].
  destruct (SpeechWorker.is_alive wc) eqn:Ha;
    [|eauto using later_worker_refl].
  destruct (decide (c = i)) as [-> | Hne].
  - assert (wc = w) by congruence. subst wc.
    exists (SpeechWorker.stop w).
    rewrite list_lookup_insert_eq by (eapply lookup_lt_Some; eauto).
    split; [reflexivity|]. split; [apply later_worker_stop; exact Ha|].
    reflexivity.
  - exists w. rewrite list_lookup_insert_ne by exact Hne.
    eauto using later_worker_refl.
Qed.

Lemma effect_later_worker (st st' : t) (i : nat) (w : SpeechWorker.t) :
  handler_effect st st' -> workers st !! i = Some w ->
  exists w', workers st' !! i = Some w' /\ later_worker w w'.
Proof.
  intros [E _ | E _ | s0 text r _ E _ | c wc _ _ _ E _] Hw; rewrite E.
  - eauto using later_worker_refl.
  - destruct (signalled_at st i w Hw) as (w' & H1 & H2 & _). eauto.
  - destruct (signalled_at st i w Hw) as (w' & H1 & H2 & _).
    exists w'. split; [|exact H2].
    rewrite lookup_app_l by (eapply lookup_lt_Some; eauto). exact H1.
  - eauto using later_worker_refl.
Qed.

Lemma step_later_worker (st st' : t) (i : nat) (w : SpeechWorker.t) :
  step utcoffset st st' -> workers st !! i = Some w ->
  exists w', workers st' !! i = Some w' /\ later_worker w w'.
Proof.
  intros Hs Hw. destruct Hs as [ev s | n s | j o s s' Hx].
  - eapply effect_later_worker; [apply dispatch_effect | exact Hw].
  - eapply effect_later_worker; [apply _poll_worker_done_effect | exact Hw].
  - unfold worker_exit in Hx.
    destruct (workers s !! j) as [wj|] eqn:Hj; [|discriminate].
    destruct (SpeechWorker.is_alive wj) eqn:Ha; [|discriminate].
    destruct (implb _ _); [|discriminate]. injection Hx as <-. simpl.
    destruct (decide (j = i)) as [-> | Hne].
    + assert (wj = w) by congruence. subst wj.
      rewrite list_lookup_insert_eq by (eapply lookup_lt_Some; eauto).
      eexists. split; [reflexivity|].
      destruct (run_shape o w) as (e' & -> & He & _).
      repeat split; simpl; auto; [|congruence].
      intros Hsome. destruct He as [-> | (msg & -> & _)]; [exact Hsome | eauto].
    + rewrite list_lookup_insert_ne by exact Hne.
      eauto using later_worker_refl.
Qed.

(** X3: Through any run of the application a worker keeps its place among the
    workers and its text, voice, rate and volume; its cancel flag, once
    set, stays set; a captured failure stays captured; and once its thread
    has ended, nothing of it changes any more. *)
Theorem workers_only_move_forward (st st' : t) (i : nat)
    (w : SpeechWorker.t) :
  rtc (step utcoffset) st st' ->
  workers st !! i = Some w ->
  exists w', workers st' !! i = Some w' /\ later_worker w w'.
Proof.
  intros Hs. revert w. induction Hs as [x | x y z Hxy Hyz IH]; intros w Hw.
  - eauto using later_worker_refl.
  - destruct (step_later_worker x y i w Hxy Hw) as (w1 & H1 & L1).
    destruct (IH w1 H1) as (w2 & H2 & L2).
    eauto using later_worker_trans.
Qed.

(** ** Stopping *)

Lemma signalled_idempotent (st : t) :
  signalled (snd (stop_speaking true st)) = signalled st.
Proof.
  rewrite stop_speaking_spec. unfold signalled at 1. simpl.
  destruct (current_worker st) as [i|] eqn:Hc; [|reflexivity].
  destruct (signalled st !! i) as [w'|] eqn:Hw'; [|reflexivity].
  destruct (SpeechWorker.is_alive w') eqn:Ha; [|reflexivity].
  unfold signalled in *. rewrite Hc in *.
  destruct (workers st !! i) as [w|] eqn:Hw; [|congruence].
  destruct (SpeechWorker.is_alive w) eqn:Ha0.
  - rewrite list_lookup_insert_eq in Hw' by (eapply lookup_lt_Some; eauto).
    injection Hw' as <-. rewrite list_insert_insert_eq. reflexivity.
  - assert (w' = w) by congruence. subst w'. congruence.
Qed.

Lemma flag_actions_stopped (st : t) :
  flag_actions (snd (stop_speaking true st)) = [].
Proof.
  rewrite stop_speaking_spec. unfold flag_actions. simpl.
  destruct (current_worker st) as [i|] eqn:Hc; [|reflexivity].
  destruct (signalled st !! i) as [w'|] eqn:Hw'; [|reflexivity].
  destruct (signalled_lookup st i w' Hw')
    as (w & Hw & Hal & [-> | (_ & _ & ->)]).
  - destruct (SpeechWorker.is_alive w) eqn:Ha; [|reflexivity].
    unfold signalled in Hw'. rewrite Hc, Hw, Ha in Hw'.
    rewrite list_lookup_insert_eq in Hw' by (eapply lookup_lt_Some; eauto).
    injection Hw' as Hw'. rewrite <- Hw'.
    destruct (SpeechWorker.is_alive (SpeechWorker.stop w)); reflexivity.
  - destruct (SpeechWorker.is_alive (SpeechWorker.stop w)); reflexivity.
Qed.

(** X4: Stopping twice is stopping once, with or without the wait; and a stop
    touches at most one worker, the current one, and of it only the cancel
    flag. *)
Theorem stop_speaking_is_idempotent (st : t) (j1 j2 : bool) :
  stop_speaking j2 (snd (stop_speaking j1 st)) = stop_speaking j1 st
  /\ lbl_status (snd (stop_speaking j1 st)) = Stopped
  /\ current_worker (snd (stop_speaking j1 st)) = current_worker st
  /\ messages (snd (stop_speaking j1 st)) = messages st
  /\ length (workers (snd (stop_speaking j1 st))) = length (workers st)
  /\ (forall i w, workers st !! i = Some w ->
        current_worker st <> Some i ->
        workers (snd (stop_speaking j1 st)) !! i = Some w).
Proof.
  split.
  { rewrite (stop_speaking_spec j2).
    assert (E : stop_speaking j1 st = stop_speaking true st)
      by (rewrite !stop_speaking_spec; reflexivity).
    rewrite E, signalled_idempotent, flag_actions_stopped, app_nil_r.
    rewrite stop_speaking_spec. reflexivity. }
  rewrite !stop_speaking_spec. simpl.
  split; [reflexivity | split; [reflexivity | split; [reflexivity|]]].
  - split; [apply length_signalled|].
    intros i w Hw Hn. unfold signalled.
    destruct (current_worker st) as [c|]; [|exact Hw].
    destruct (workers st !! c) as [wc|]; [|exact Hw].
    destruct (SpeechWorker.is_alive wc); [|exact Hw].
    rewrite list_lookup_insert_ne by congruence. exact Hw.
Qed.

End Evolution.

Lemma workers_only_move_forward_witness :
  rtc (step Clock.UTC) hello_sent hello_world_sent
  /\ exists w', ChatTTSApp.workers hello_world_sent !! 0%nat = Some w'
       /\ later_worker
            (SpeechWorker.start (session_for bare (py "Hello") 180)) w'.
Proof.
  assert (Hs : rtc (step Clock.UTC) hello_sent hello_world_sent).
  { unfold hello_world_sent, play, fold_left.
    eapply rtc_l; [apply (step_event Clock.UTC (Edit (py "World ")))|].
    eapply rtc_l; [apply (step_event Clock.UTC (Send 1000000))|].
    apply rtc_refl. }
  split; [exact Hs|].
  exact (workers_only_move_forward Clock.UTC hello_sent hello_world_sent 0
           (SpeechWorker.start (session_for bare (py "Hello") 180)) Hs eq_refl).
Defined.

(* ================================================================== *)
(** * Failure reports and the status line *)
(* ================================================================== *)

Section Reports.
Variable utcoffset : Z -> Z.
Import ChatTTSApp.

Ltac monad :=
  unfold bind, get, modify, ret, raise, showdialog, _set_status; simpl.

Lemma poll_or_not (ev : event) : ev = Poll \/ ev <> Poll.
Proof. destruct ev; (left; reflexivity) || (right; discriminate). Qed.

Lemma count_failed_app (l1 l2 : list SpeechWorker.t) :
  count_failed (l1 ++ l2) = (count_failed l1 + count_failed l2)%nat.
Proof. induction l1 as [|w l1 IH]; simpl; [reflexivity|]. rewrite IH. lia. Qed.

Lemma count_failed_insert (l : list SpeechWorker.t) (i : nat)
    (x y : SpeechWorker.t) :
  l !! i = Some y ->
  (count_failed (<[i := x]> l) + (if failed y then 1 else 0)
   = count_failed l + (if failed x then 1 else 0))%nat.
Proof.
  revert i. induction l as [|w l IH]; intros i Hi; [discriminate|].
  destruct i as [|i]; simpl in *.
  - injection Hi as ->. lia.
  - specialize (IH i Hi). lia.
Qed.

Lemma count_failed_signalled (st : t) :
  count_failed (signalled st) = count_failed (workers st).
Proof.
  unfold signalled. destruct (current_worker st) as [i|]; [|reflexivity].
  destruct (workers st !! i) as [w|] eqn:Hw; [|reflexivity].
  destruct (SpeechWorker.is_alive w); [|reflexivity].
  pose proof (count_failed_insert _ i (SpeechWorker.stop w) w Hw) as H.
  change (failed (SpeechWorker.stop w)) with (failed w) in H. lia.
Qed.

Lemma unreported_signalled (st s : t) :
  workers s = signalled st -> current_worker s = current_worker st ->
  unreported_current s = unreported_current st.
Proof.
  intros Hw Hc. unfold unreported_current. rewrite Hw, Hc.
  destruct (current_worker st) as [i|]; [|reflexivity].
  destruct (workers st !! i) as [w|] eqn:E.
  - destruct (signalled_at st i w E) as (w' & -> & _ & ->). reflexivity.
  - assert (signalled st !! i = None) as ->; [|reflexivity].
    apply lookup_ge_None. rewrite length_signalled.
    apply lookup_ge_None. exact E.
Qed.

Lemma move_accounts (mv : move) (st st' : t) :
  make utcoffset mv st = Some st' ->
  (length (speak_failures (dialogs st')) + unreported_current st'
   + count_failed (workers st)
   <= length (speak_failures (dialogs st)) + unreported_current st
      + count_failed (workers st'))%nat.
Proof.
  destruct mv as [ev | j o]; simpl; intros Hx.
  - injection Hx as <-. rename st into s.
    destruct (poll_or_not ev) as [-> | Hev].
    + rewrite dispatch_Poll_spec. unfold unreported_current.
      destruct (current_worker s) as [i|] eqn:Hc; [|rewrite Hc; lia].
      destruct (workers s !! i) as [w|] eqn:Hw; [|rewrite Hc, Hw; lia].
      destruct (SpeechWorker.is_alive w); [rewrite Hc, Hw; lia|].
      unfold failed.
      destruct (SpeechWorker.exc w) as [e|]; simpl; [|lia].
      unfold speak_failures. rewrite omap_app, length_app. simpl. lia.
    + rewrite (dispatch_speak_failures utcoffset ev s Hev).
      destruct (dispatch_effect utcoffset ev s)
        as [E C | E C | s0 text r _ E C | c wc _ _ _ E C].
      * unfold unreported_current. rewrite E, C. lia.
      * rewrite (unreported_signalled s _ E C), E, count_failed_signalled. lia.
      * unfold unreported_current. rewrite C, E.
        rewrite lookup_app_r by (rewrite length_signalled; lia).
        rewrite length_signalled, Nat.sub_diag. simpl.
        rewrite count_failed_app, count_failed_signalled. simpl. lia.
      * unfold unreported_current at 1. rewrite C, E. lia.
  - rename st into s, st' into s'.
    pose proof (worker_exit_dialogs j o s s' Hx) as Hd. rewrite Hd.
    unfold worker_exit in Hx.
    destruct (workers s !! j) as [wj|] eqn:Hj; [|discriminate].
    destruct (_ && _); [|discriminate]. injection Hx as <-.
    destruct (run_shape o wj) as (e' & Hrun & He & _).
    assert (Hmono : failed wj = true ->
                    failed (fst (SpeechWorker.run_thread o wj)) = true).
    { rewrite Hrun. unfold failed. simpl.
      destruct He as [-> | (msg & -> & _)]; auto. }
    pose proof (count_failed_insert _ j (fst (SpeechWorker.run_thread o wj))
                  wj Hj) as Hcount.
    unfold unreported_current. simpl.
    destruct (current_worker s) as [c|]; [|
      destruct (failed wj), (failed (fst (SpeechWorker.run_thread o wj)));
      try (specialize (Hmono eq_refl); discriminate); lia].
    destruct (decide (j = c)) as [-> | Hne].
    + rewrite list_lookup_insert_eq by (eapply lookup_lt_Some; eauto).
      rewrite Hj.
      destruct (failed wj), (failed (fst (SpeechWorker.run_thread o wj)));
        try (specialize (Hmono eq_refl); discriminate); lia.
    + rewrite list_lookup_insert_ne by exact Hne.
      destruct (failed wj), (failed (fst (SpeechWorker.run_thread o wj)));
        try (specialize (Hmono eq_refl); discriminate); lia.
Qed.

Lemma run_moves_accounts (mvs : list move) (st st' : t) :
  run_moves utcoffset mvs st = Some st' ->
  (length (speak_failures (dialogs st)) + unreported_current st
   <= count_failed (workers st))%nat ->
  (length (speak_failures (dialogs st')) + unreported_current st'
   <= count_failed (workers st'))%nat.
Proof.
  revert st. induction mvs as [|mv mvs IH]; intros st Hrun Hst; simpl in Hrun.
  - injection Hrun as <-. exact Hst.
  - destruct (make utcoffset mv st) as [s|] eqn:E; [|discriminate].
    apply (IH s Hrun). pose proof (move_accounts mv st s E). lia.
Qed.

(** X5: A poll that finds the current worker dead with a captured failure
    shows that failure once, and once more for every poll that runs while
    its message box is open: re-entered [n] times it shows [n + 1] boxes
    for the one failure; then the reference is cleared.  A poll that finds
    no current worker, or finds it alive or without failure, shows
    nothing.  Over runs in which no poll is re-entered, the boxes never
    outnumber the workers that hold a failure, the failure of the current
    worker that no poll has seen yet not being among them. *)
Theorem failure_is_reported_once_per_poll (st : t) :
  (forall n i w e,
     current_worker st = Some i -> workers st !! i = Some w ->
     SpeechWorker.is_alive w = false -> SpeechWorker.exc w = Some e ->
     dialogs (snd (_poll_worker_done n st))
     = dialogs st ++ replicate (S n) (SpeakFailed e)
     /\ current_worker (snd (_poll_worker_done n st)) = None)
  /\ (forall n,
        (forall i w, current_worker st = Some i -> workers st !! i = Some w ->
           SpeechWorker.is_alive w = true \/ SpeechWorker.exc w = None) ->
        dialogs (snd (_poll_worker_done n st)) = dialogs st)
  /\ (forall vs label rate0 volume0 err mvs,
        run_moves utcoffset mvs (init vs label rate0 volume0 err) = Some st ->
        (length (speak_failures (dialogs st)) + unreported_current st
         <= count_failed (workers st))%nat).
Proof.
  split; [|split].
  - intros n i w e Hc Hw Ha He.
    rewrite _poll_worker_done_spec, Hc, Hw, Ha, He. split; reflexivity.
  - intros n H. rewrite _poll_worker_done_spec.
    destruct (current_worker st) as [i|]; [|reflexivity].
    destruct (workers st !! i) as [w|] eqn:Hw; [|reflexivity].
    destruct (SpeechWorker.is_alive w) eqn:Ha; [reflexivity|].
    destruct (H i w eq_refl Hw) as [E | E]; [congruence|].
    rewrite E. simpl. apply app_nil_r.
  - intros vs label rate0 volume0 err mvs Hrun.
    apply (run_moves_accounts mvs _ st Hrun).
    unfold unreported_current. destruct err; simpl; lia.
Qed.

(** ** The status line *)

Lemma _speak_text_status (text : pystr) (st : t) :
  status_change st (snd (_speak_text text st)).
Proof.
  rewrite _speak_text_spec.
  destruct (py_int_of_float (sld_rate st)); simpl.
  - apply status_speaking; simpl; eauto.
  - apply status_stopped. reflexivity.
Qed.

Lemma status_change_from (st s s' : t) :
  lbl_status s = lbl_status st -> current_worker s = current_worker st ->
  status_change s s' -> status_change st s'.
Proof.
  intros Hl Hc [A B | A | A B | A B].
  - apply status_kept; congruence.
  - apply status_stopped; assumption.
  - apply status_speaking; assumption.
  - apply status_idle; assumption.
Qed.

Lemma _poll_worker_done_status (n : nat) (st : t) :
  status_change st (snd (_poll_worker_done n st)).
Proof.
  rewrite _poll_worker_done_spec. simpl.
  destruct (current_worker st) as [i|]; [|apply status_kept; reflexivity].
  destruct (workers st !! i) as [w|]; [|apply status_kept; reflexivity].
  destruct (SpeechWorker.is_alive w); [apply status_kept; reflexivity|].
  apply status_idle; reflexivity.
Qed.

Lemma dispatch_status (ev : event) (st : t) :
  status_change st (dispatch utcoffset ev st).
Proof.
  destruct (poll_or_not ev) as [-> | Hev].
  { apply _poll_worker_done_status. }
  unfold dispatch. destruct ev; simpl;
    try (apply status_kept; reflexivity); try contradiction.
  - destruct (strip (txt_input st)) as [|c r] eqn:E.
    + rewrite send_message_blank by exact E. apply status_kept; reflexivity.
    + rewrite send_message_spec by congruence.
      destruct (auto_speak_var st); [|apply status_kept; reflexivity].
      eapply status_change_from; [| |apply _speak_text_status]; reflexivity.
  - rewrite stop_speaking_spec. apply status_stopped. reflexivity.
  - unfold replay_last. monad. destruct (last (messages st)) as [m|];
      [|apply status_kept; reflexivity].
    apply _speak_text_status.
  - unfold export_log. monad. destruct (messages st); simpl;
      [apply status_kept; reflexivity|].
    destruct path; apply status_kept; reflexivity.
  - unfold export_log. monad. destruct (messages st); simpl;
      [apply status_kept; reflexivity|].
    destruct path; [|destruct f]; apply status_kept; reflexivity.
  - unfold clear_log. monad. destruct (messages st); simpl;
      [apply status_kept; reflexivity|].
    destruct yes; apply status_kept; reflexivity.
  - unfold _ctx_replay, try_except, clicked_line. monad.
    destruct (rc_click_index st) as [i|]; simpl;
      [|apply status_kept; reflexivity].
    set (text := if contains 93 _ then _ else _).
    destruct text as [|c r]; simpl; [apply status_kept; reflexivity|].
    pose proof (_speak_text_status (c :: r) st) as H.
    destruct (_speak_text (c :: r) st) as [[a|e] s']; simpl in *; [exact H|].
    destruct (is_Exception e); exact H.
  - destruct (rc_click_index st) as [i|] eqn:Hi.
    + rewrite (_ctx_delete_spec st i Hi). simpl.
      destruct (line_id _); apply status_kept; reflexivity.
    + unfold _ctx_delete, try_except, clicked_line. monad. rewrite Hi. simpl.
      apply status_kept; reflexivity.
Qed.

(** X6: The status line reads 待命 only while there is no current worker, and
    朗讀中… only while there is one. *)
Theorem status_matches_current_worker (st : t) :
  reachable utcoffset st ->
  (lbl_status st = Idle -> current_worker st = None)
  /\ (lbl_status st = Speaking -> is_Some (current_worker st)).
Proof.
  induction 1 as [vs label r v err | st st' Hr [IH1 IH2] Hs].
  - split; [reflexivity | discriminate].
  - destruct Hs as [ev s | n s | j o s s' Hx].
    + destruct (dispatch_status ev s) as [A B | A | A B | A B];
        rewrite ?A, ?B; split; auto; try discriminate.
    + destruct (_poll_worker_done_status (S n) s) as [A B | A | A B | A B];
        rewrite ?A, ?B; split; auto; try discriminate.
    + unfold worker_exit in Hx.
      destruct (workers s !! j); [|discriminate].
      destruct (_ && _); [|discriminate]. injection Hx as <-. auto.
Qed.

End Reports.

Lemma hello_broken_reachable : reachable Clock.UTC hello_broken.
Proof.
  apply (reachable_step Clock.UTC hello_sent hello_broken).
  - unfold hello_sent. apply reachable_play, reachable_bare.
  - apply (step_worker Clock.UTC 0 broken_engine). reflexivity.
Qed.

Lemma failure_is_reported_once_per_poll_witness :
  ChatTTSApp.dialogs (snd (ChatTTSApp._poll_worker_done 2 hello_broken))
  = [SpeakFailed (Exception (py "device lost"));
     SpeakFailed (Exception (py "device lost"));
     SpeakFailed (Exception (py "device lost"))]
  /\ run_moves Clock.UTC
       [Handle (Edit (py "Hello")); Handle (Send 0); Exit 0 broken_engine;
        Handle Poll; Handle Poll] bare
     = Some hello_reported
  /\ (length (speak_failures (ChatTTSApp.dialogs hello_reported))
      + unreported_current hello_reported
      <= count_failed (ChatTTSApp.workers hello_reported))%nat.
Proof.
  assert (Hrun : run_moves Clock.UTC
            [Handle (Edit (py "Hello")); Handle (Send 0); Exit 0 broken_engine;
             Handle Poll; Handle Poll] bare
          = Some hello_reported) by (vm_compute; reflexivity).
  destruct (failure_is_reported_once_per_poll Clock.UTC hello_broken)
    as (H1 & _ & _).
  destruct (failure_is_reported_once_per_poll Clock.UTC hello_reported)
    as (_ & _ & H3).
  split.
  { exact (proj1 (H1 2%nat 0%nat _ (Exception (py "device lost"))
                     eq_refl eq_refl eq_refl eq_refl)). }
  split; [exact Hrun|].
  exact (H3 [] [] 180%float 100%float None _ Hrun).
Defined.

Lemma status_matches_current_worker_witness :
  reachable Clock.UTC hello_reported
  /\ ChatTTSApp.lbl_status hello_reported = Idle
  /\ ChatTTSApp.current_worker hello_reported = None.
Proof.
  assert (Hr : reachable Clock.UTC hello_reported).
  { unfold hello_reported. eapply reachable_step;
      [apply hello_broken_reachable | apply step_event]. }
  split; [exact Hr|]. split; [reflexivity|].
  exact (proj1 (status_matches_current_worker Clock.UTC hello_reported Hr)
           eq_refl).
Defined.

(* ================================================================== *)
(** * The transcript and the history *)
(* ================================================================== *)

Section Transcript.
Variable utcoffset : Z -> Z.
Import ChatTTSApp.

Ltac monad :=
  unfold bind, get, modify, ret, raise, showdialog, _set_status; simpl.

Lemma log_line_log_record (m : Message.t) :
  log_line (Clock.strftime_HMS utcoffset (Message.ts m)) m
  = log_record utcoffset m ++ [LF].
Proof. unfold log_line, log_record. rewrite <- !app_assoc. reflexivity. Qed.

Lemma log_record_head_chars (m : Message.t) (c : N) :
  (c = LF \/ c = 93%N) ->
  Forall (fun x => x <> c)
    (91%N :: format_0d 3 (Message.id m)
     ++ 32%N :: Clock.strftime_HMS utcoffset (Message.ts m)).
Proof.
  intros Hc. constructor; [destruct Hc; subst c; discriminate|].
  apply Forall_app. split.
  - eapply Forall_impl; [apply format_0d_chars|]. simpl. intros x Hx.
    apply numeral_char_plain in Hx. destruct Hc; subst c; tauto.
  - constructor; [destruct Hc; subst c; discriminate|].
    eapply Forall_impl; [apply hms_chars|]. simpl. intros x Hx.
    apply stamp_char_plain in Hx. destruct Hc; subst c; tauto.
Qed.

Lemma log_record_split (m : Message.t) :
  log_record utcoffset m
  = (91%N :: format_0d 3 (Message.id m)
     ++ 32%N :: Clock.strftime_HMS utcoffset (Message.ts m))
    ++ 93%N :: 32%N :: Message.text m.
Proof.
  unfold log_record. simpl. rewrite <- !app_assoc. reflexivity.
Qed.

Lemma lines_log_line (m : Message.t) :
  no_newline (Message.text m) ->
  lines (log_line (Clock.strftime_HMS utcoffset (Message.ts m)) m)
  = [log_record utcoffset m].
Proof.
  intros Ht. rewrite log_line_log_record.
  rewrite <- (app_nil_r (log_record utcoffset m ++ [LF])).
  apply (lines_terminated [log_record utcoffset m]).
  constructor; [|constructor]. rewrite log_record_split.
  apply Forall_app. split; [apply log_record_head_chars; auto|].
  constructor; [discriminate|]. constructor; [discriminate | exact Ht].
Qed.

Lemma token_app (a b : pystr) (c : N) :
  Forall (fun x => isspace x = false) a -> isspace c = true ->
  token (a ++ c :: b) = a.
Proof.
  intros Ha Hc. induction Ha as [|x a Hx _ IH]; simpl.
  - rewrite Hc. reflexivity.
  - rewrite Hx, IH. reflexivity.
Qed.

(** What [_append_log] writes at the head of a line, [_ctx_delete] reads
    back as the id of the message, unless the id has more digits than
    [int] takes. *)
Lemma line_id_log_record (m : Message.t) :
  convertible (Message.id m) ->
  line_id (log_record utcoffset m) = Some (Message.id m).
Proof.
  intros Hconv. unfold line_id. rewrite log_record_split.
  rewrite contains_app.
  rewrite before_app by (apply log_record_head_chars; auto).
  simpl starts_with_bracket. simpl andb.
  assert (Htok : first_token
                   (91%N :: format_0d 3 (Message.id m)
                    ++ 32%N :: Clock.strftime_HMS utcoffset (Message.ts m))
                 = Some (91%N :: format_0d 3 (Message.id m))).
  { unfold first_token. simpl lstrip. cbv iota. f_equal.
    apply (token_app (91%N :: format_0d 3 (Message.id m))); [|reflexivity].
    constructor; [reflexivity|].
    eapply Forall_impl; [apply format_0d_chars|]. simpl. intros x Hx.
    apply numeral_char_plain in Hx. tauto. }
  rewrite Htok. simpl tail. apply int_of_str_format_0d. exact Hconv.
Qed.

Lemma log_record_no_newline (m : Message.t) :
  no_newline (Message.text m) -> no_newline (log_record utcoffset m).
Proof.
  intros Ht. unfold no_newline. rewrite log_record_split.
  apply Forall_app. split; [apply log_record_head_chars; auto|].
  constructor; [discriminate|]. constructor; [discriminate | exact Ht].
Qed.

(** An insertion at the end of a widget whose last line is empty. *)
Lemma text_insert_end_record (m : Message.t) (st : t) :
  txt_log_tail st = [] -> no_newline (Message.text m) ->
  txt_log (text_insert_end
             (log_line (Clock.strftime_HMS utcoffset (Message.ts m)) m) st)
  = txt_log st ++ [log_record utcoffset m]
  /\ txt_log_tail
       (text_insert_end
          (log_line (Clock.strftime_HMS utcoffset (Message.ts m)) m) st)
     = [].
Proof.
  intros Htail Ht. unfold text_insert_end.
  cbn [txt_log txt_log_tail set_txt_log set_txt_log_tail].
  rewrite Htail, app_nil_l, log_line_log_record.
  rewrite (split_on_app LF _ [] (log_record_no_newline m Ht)).
  split; reflexivity.
Qed.


(** A numeral too long for [int] is no id. *)
Lemma int_of_str_too_long (digits : pystr) :
  (int_max_str_digits < length digits)%nat ->
  Forall (fun c => is_digit c = true) digits ->
  int_of_str digits = None.
Proof.
  intros Hlen Hd.
  assert (Hplain : Forall (fun c => numeral_char c = true) digits).
  { eapply Forall_impl; [exact Hd|]. simpl. intros c Hc.
    unfold numeral_char. rewrite Hc. reflexivity. }
  unfold int_of_str.
  rewrite to_ascii_decimal_plain.
  2:{ eapply Forall_impl; [exact Hplain|]. simpl. intros c Hc.
      apply numeral_char_ascii. exact Hc. }
  rewrite trim_spaces_plain.
  2:{ eapply Forall_impl; [exact Hplain|]. simpl. intros c Hc.
      apply numeral_char_ascii. exact Hc. }
  cbv zeta. rewrite filter_all by exact Hd.
  rewrite (proj2 (Nat.leb_gt _ _)) by exact Hlen. reflexivity.
Qed.

Lemma line_id_too_long (digits rest : pystr) :
  (int_max_str_digits < length digits)%nat ->
  Forall (fun c => is_digit c = true) digits ->
  line_id (py "[" ++ digits ++ py " " ++ rest) = None.
Proof.
  intros Hlen Hd. unfold line_id.
  destruct (starts_with_bracket _ && contains 93 _); [|reflexivity].
  assert (Hsp : Forall (fun x => isspace x = false) digits).
  { eapply Forall_impl; [exact Hd|]. simpl. intros c Hc.
    apply (numeral_char_plain c). unfold numeral_char. rewrite Hc.
    reflexivity. }
  assert (Hne : Forall (fun x => x <> 93%N) digits).
  { eapply Forall_impl; [exact Hd|]. simpl. intros c Hc.
    apply (numeral_char_plain c). unfold numeral_char. rewrite Hc.
    reflexivity. }
  assert (Hbefore : exists tl,
            before 93 (py "[" ++ digits ++ py " " ++ rest)
            = 91%N :: digits ++ 32%N :: tl).
  { change (py "[" ++ digits ++ py " " ++ rest)
      with (91%N :: digits ++ 32%N :: rest).
    simpl before. clear - Hne.
    induction Hne as [|c d Hc _ IH]; simpl.
    - eexists. reflexivity.
    - apply N.eqb_neq in Hc. rewrite Hc. destruct IH as [tl IH].
      injection IH as IH. rewrite IH. eexists. reflexivity. }
  destruct Hbefore as [tl ->].
  assert (Htok : first_token (91%N :: digits ++ 32%N :: tl)
                 = Some (91%N :: digits)).
  { unfold first_token. simpl lstrip. cbv iota. f_equal.
    apply (token_app (91%N :: digits)); [|reflexivity].
    constructor; [reflexivity | exact Hsp]. }
  rewrite Htok. simpl tail. apply int_of_str_too_long; assumption.
Qed.

Lemma filter_is_delete (l : list Message.t) (i : nat) (m : Message.t) :
  StronglySorted id_lt l -> l !! i = Some m ->
  filter (fun m' => Message.id m' <> Message.id m) l = delete i l.
Proof.
  intros Hs. revert i. induction Hs as [|x l Hs IH Hx]; intros i Hi;
    [discriminate|].
  rewrite filter_cons. destruct i as [|i]; simpl in Hi.
  - injection Hi as ->.
    destruct (decide (Message.id m <> Message.id m)); [congruence|].
    simpl. apply filter_all.
    eapply Forall_impl; [exact Hx|]. unfold id_lt. simpl. intros; lia.
  - assert (Hlt : id_lt x m).
    { eapply Forall_elem; [exact Hx|]. eapply list_elem_of_lookup_2; eauto. }
    unfold id_lt in Hlt.
    destruct (decide (Message.id x <> Message.id m)); [|lia].
    simpl. f_equal. apply IH. exact Hi.
Qed.


Lemma _speak_text_transcript (text : pystr) (st : t) :
  txt_log (snd (_speak_text text st)) = txt_log st
  /\ messages (snd (_speak_text text st)) = messages st
  /\ txt_log_tail (snd (_speak_text text st)) = txt_log_tail st.
Proof.
  rewrite _speak_text_spec.
  destruct (py_int_of_float (sld_rate st)); simpl; auto.
Qed.


Lemma text_line_in_sync (st : t) (i : nat) (m : Message.t) :
  in_sync utcoffset st -> messages st !! i = Some m ->
  text_line st i = log_record utcoffset m
  /\ (i < length (txt_log st))%nat.
Proof.
  intros Hsync Hm.
  assert (Hline : txt_log st !! i = Some (log_record utcoffset m)).
  { rewrite Hsync. rewrite list_lookup_fmap, Hm. reflexivity. }
  pose proof (lookup_lt_Some _ _ _ Hline) as Hlt.
  split; [|exact Hlt].
  unfold text_line, text_lines. rewrite lookup_app_l by exact Hlt.
  rewrite Hline. reflexivity.
Qed.

Lemma delete_map {A B} (f : A -> B) (i : nat) (l : list A) :
  delete i (map f l) = map f (delete i l).
Proof.
  revert i. induction l as [|x l IH]; intros [|i]; simpl; try reflexivity.
  f_equal. apply IH.
Qed.

Lemma delete_out_of_range {A} (l : list A) (i : nat) :
  l !! i = None -> delete i l = l.
Proof.
  revert i. induction l as [|x l IH]; intros [|i] H; simpl in *;
    try reflexivity; [discriminate|].
  f_equal. apply IH. exact H.
Qed.

Lemma _ctx_delete_in_sync (st : t) (i : nat) (m : Message.t) :
  ids_fresh st -> in_sync utcoffset st ->
  rc_click_index st = Some i -> messages st !! i = Some m ->
  convertible (Message.id m) ->
  messages (dispatch utcoffset CtxDelete st) = delete i (messages st)
  /\ txt_log (dispatch utcoffset CtxDelete st) = delete i (txt_log st)
  /\ txt_log_tail (dispatch utcoffset CtxDelete st) = txt_log_tail st.
Proof.
  intros [Hs _] Hsync Hi Hm Hconv. unfold dispatch. simpl.
  rewrite (_ctx_delete_spec st i Hi).
  destruct (text_line_in_sync st i m Hsync Hm) as [-> Hlt].
  rewrite (line_id_log_record m Hconv). simpl.
  assert (E1 : (i <? length (txt_log st))%nat = true)
    by (apply Nat.ltb_lt; exact Hlt).
  assert (E2 : (i =? length (txt_log st))%nat = false)
    by (apply Nat.eqb_neq; lia).
  rewrite E1, E2.
  split; [apply filter_is_delete; assumption | split; reflexivity].
Qed.





(** X8: With the transcript in sync, deleting at the [i]-th line, the line of
    a message whose id is within the digits [int] takes, removes the [i]-th
    message from the history and the [i]-th line from the transcript, and
    nothing else of either. *)
Theorem delete_removes_the_clicked_message (st : t) (i : nat)
    (m : Message.t) :
  reachable utcoffset st ->
  in_sync utcoffset st ->
  rc_click_index st = Some i ->
  messages st !! i = Some m ->
  convertible (Message.id m) ->
  let st' := dispatch utcoffset CtxDelete st in
  messages st' = delete i (messages st)
  /\ txt_log st' = delete i (txt_log st)
  /\ in_sync utcoffset st'
  /\ m ∉ messages st'.
Proof.
  intros Hr Hsync Hi Hm Hconv st'. subst st'.
  pose proof (reachable_ids_fresh utcoffset st Hr) as Hfresh.
  destruct (_ctx_delete_in_sync st i m Hfresh Hsync Hi Hm Hconv)
    as (E1 & E2 & _).
  split; [exact E1|]. split; [exact E2|]. split.
  - unfold in_sync. rewrite E1, E2, Hsync. apply delete_map.
  - rewrite E1, <- (filter_is_delete _ i m (proj1 Hfresh) Hm).
    intros Hin. apply list_elem_of_filter in Hin as [Hne _]. congruence.
Qed.

End Transcript.

Lemma world_clicked_reachable : reachable Clock.UTC world_clicked.
Proof.
  unfold world_clicked, hello_world_sent, hello_sent.
  eapply reachable_step; [|apply step_event].
  apply reachable_play, reachable_play, reachable_bare.
Qed.


Lemma delete_removes_the_clicked_message_witness :
  reachable Clock.UTC world_clicked
  /\ in_sync Clock.UTC world_clicked
  /\ ChatTTSApp.rc_click_index world_clicked = Some 1%nat
  /\ convertible 2
  /\ map Message.text
       (ChatTTSApp.messages (dispatch Clock.UTC CtxDelete world_clicked))
     = [py "Hello"].
Proof.
  assert (H1 : in_sync Clock.UTC world_clicked) by (vm_compute; reflexivity).
  assert (Hc : convertible 2) by (apply Nat.leb_le; reflexivity).
  split; [apply world_clicked_reachable|]. split; [exact H1|].
  split; [reflexivity|]. split; [exact Hc|].
  destruct (delete_removes_the_clicked_message Clock.UTC world_clicked 1
              {| Message.id := 2; Message.ts := 1000000;
                 Message.text := py "World" |}
              world_clicked_reachable H1 eq_refl eq_refl Hc) as (E & _).
  rewrite E. vm_compute. reflexivity.
Defined.

(* ================================================================== *)
(** * Replaying, and what can go wrong in a handler *)
(* ================================================================== *)

Section Replay.
Variable utcoffset : Z -> Z.
Import ChatTTSApp.

Ltac monad :=
  unfold bind, get, modify, ret, raise, showdialog, _set_status; simpl.

Lemma strip_of_stripped (s : pystr) : stripped s -> strip s = s.
Proof.
  intros (Hne & Hhead & Hlast). unfold strip.
  assert (Hl : lstrip s = s).
  { destruct s as [|c s]; [reflexivity|]. simpl.
    rewrite (Hhead c eq_refl). reflexivity. }
  rewrite Hl. unfold rstrip.
  destruct (last s) as [c|] eqn:El.
  - apply last_Some in El as [s0 ->]. rewrite rev_app_distr. simpl.
    rewrite (Hlast c eq_refl). simpl.
    rewrite rev_involutive. reflexivity.
  - apply last_None in El. contradiction.
Qed.

Lemma strip_after_blank (s : pystr) : strip (32%N :: s) = strip s.
Proof. reflexivity. Qed.

(** X9: With the transcript in sync, replaying at the line of a message starts
    a session on exactly the text of that message, and leaves history and
    transcript as they are. *)
Theorem replay_speaks_the_clicked_message (st : t) (i : nat)
    (m : Message.t) (r : Z) :
  reachable utcoffset st ->
  in_sync utcoffset st ->
  rc_click_index st = Some i ->
  messages st !! i = Some m ->
  py_int_of_float (sld_rate st) = Some r ->
  exists st' w,
    _ctx_replay st = (Ret tt, st')
    /\ current_worker st' = Some (length (workers st))
    /\ workers st' !! length (workers st) = Some w
    /\ SpeechWorker.text w = Message.text m
    /\ SpeechWorker.is_alive w = true
    /\ messages st' = messages st
    /\ txt_log st' = txt_log st.
Proof.
  intros Hr Hsync Hi Hm Hrate.
  assert (Hstripped : stripped (Message.text m)).
  { apply (Forall_elem (fun m => stripped (Message.text m)) (messages st) m);
      [apply (reachable_texts_stripped utcoffset st Hr)|].
    eapply list_elem_of_lookup_2; eauto. }
  destruct (text_line_in_sync utcoffset st i m Hsync Hm) as [Hline _].
  destruct (speak_session st (Message.text m) r Hrate)
    as (st' & w & E & H1 & H2 & H3 & H4 & _).
  exists st', w.
  split; [|pose proof (_speak_text_transcript (Message.text m) st) as HT;
           rewrite E in HT; simpl in HT; tauto].
  unfold _ctx_replay, try_except, clicked_line. monad.
  rewrite Hi. simpl. rewrite Hline.
  rewrite log_record_split, contains_app.
  rewrite after_app by (apply log_record_head_chars; auto).
  rewrite strip_after_blank, (strip_of_stripped _ Hstripped).
  destruct (Message.text m) as [|c s] eqn:Et; [destruct Hstripped; congruence|].
  rewrite E. reflexivity.
Qed.

(** X10: [replay_last] does nothing on an empty history; otherwise it is a speak
    request for the text of the newest message, which leaves the history
    alone. *)
Theorem replay_last_speaks_the_newest (st : t) :
  (messages st = [] -> replay_last st = (Ret tt, st))
  /\ (forall m, last (messages st) = Some m ->
        replay_last st = _speak_text (Message.text m) st
        /\ messages (snd (replay_last st)) = messages st
        /\ next_id (snd (replay_last st)) = next_id st
        /\ (forall r, py_int_of_float (sld_rate st) = Some r ->
              exists w, workers (snd (replay_last st)) !! length (workers st)
                        = Some w
                        /\ SpeechWorker.text w = Message.text m)).
Proof.
  split.
  - intros E. unfold replay_last. monad. rewrite E. reflexivity.
  - intros m Hm.
    assert (E : replay_last st = _speak_text (Message.text m) st).
    { unfold replay_last. monad. rewrite Hm. reflexivity. }
    rewrite E. split; [reflexivity|].
    destruct (_speak_text_history (Message.text m) st) as [H1 H2].
    split; [exact H1|]. split; [exact H2|].
    intros r Hrate.
    destruct (speak_session st (Message.text m) r Hrate)
      as (st' & w & E' & _ & H3 & _ & H4 & _).
    rewrite E'. eauto.
Qed.

(** X11: In a reachable state a handler lets an exception out in one case
    only: the export of a non-empty history, to a path that was chosen,
    when the file cannot be opened or written; the exception is then the
    one [open] or [write] raised, and no box tells the user.  Speaking
    never fails on the rate, since the slider keeps to its scale; the
    context-menu handlers swallow what goes wrong in them. *)
Theorem handlers_raise_only_when_the_file_fails (ev : event) (st : t) :
  reachable utcoffset st ->
  (forall e, fst (handler utcoffset ev st) = Raise e ->
     exists path f,
       ev = ExportFails path f /\ messages st <> [] /\ path <> []
       /\ (f = OpenFails e \/ exists n, f = WriteFails e n))
  /\ (forall path e,
        messages st <> [] -> path <> [] ->
        handler utcoffset (ExportFails path (OpenFails e)) st = (Raise e, st)
        /\ forall n,
             fst (handler utcoffset (ExportFails path (WriteFails e n)) st)
             = Raise e
             /\ dialogs (dispatch utcoffset
                           (ExportFails path (WriteFails e n)) st)
                = dialogs st).
Proof.
  intros Hr. destruct (reachable_rate utcoffset st Hr) as (r0 & Hrate & _).
  split.
  - intros e. destruct ev; simpl; try discriminate.
    + destruct (strip (txt_input st)) as [|c r] eqn:E.
      * rewrite send_message_blank by exact E. discriminate.
      * rewrite send_message_spec by congruence.
        destruct (auto_speak_var st); [|discriminate].
        rewrite _speak_text_spec.
        change (sld_rate (stored utcoffset st now)) with (sld_rate st).
        rewrite Hrate. discriminate.
    + rewrite stop_speaking_spec. discriminate.
    + unfold replay_last. monad. destruct (last (messages st)) as [m|];
        [|discriminate].
      rewrite _speak_text_spec, Hrate. discriminate.
    + unfold export_log. monad. destruct (messages st); [discriminate|].
      destruct path; discriminate.
    + unfold export_log. monad.
      destruct (messages st) eqn:Em; [discriminate|].
      destruct path eqn:Ep; [discriminate|].
      destruct f as [x | x k]; simpl; intros H; injection H as <-;
        (eexists; eexists; split; [reflexivity|]);
        (split; [discriminate|]); (split; [discriminate|]); eauto.
    + unfold clear_log. monad. destruct (messages st); [discriminate|].
      destruct yes; discriminate.
    + unfold _ctx_replay, try_except, clicked_line. monad.
      destruct (rc_click_index st) as [i|]; simpl; [|discriminate].
      set (text := if contains 93 _ then _ else _).
      destruct text as [|c r]; simpl; [discriminate|].
      rewrite _speak_text_spec, Hrate. discriminate.
    + destruct (rc_click_index st) as [i|] eqn:Hi.
      * rewrite (_ctx_delete_spec st i Hi). discriminate.
      * unfold _ctx_delete, try_except, clicked_line. monad. rewrite Hi.
        discriminate.
    + rewrite _poll_worker_done_spec. discriminate.
  - intros path e Hm Hp. unfold dispatch. simpl. unfold export_log. monad.
    destruct (messages st) as [|m0 ms]; [congruence|].
    destruct path as [|c0 cs]; [congruence|]. split; [reflexivity|].
    intros k. split; reflexivity.
Qed.

(** ** What a session is given *)

Lemma Forall_signalled (P : SpeechWorker.t -> Prop) (st : t) :
  (forall w, P w -> P (SpeechWorker.stop w)) ->
  Forall P (workers st) -> Forall P (signalled st).
Proof.
  intros Hstop H. unfold signalled.
  destruct (current_worker st) as [i|]; [|exact H].
  destruct (workers st !! i) as [w|] eqn:Hw; [|exact H].
  destruct (SpeechWorker.is_alive w); [|exact H].
  apply Forall_insert; [exact H|]. apply Hstop.
  apply (Forall_elem P (workers st) w H).
  eapply list_elem_of_lookup_2; eauto.
Qed.

Lemma effect_sessions_in_range (st st' : t) :
  sliders_ok st -> handler_effect st st' ->
  Forall session_in_range (workers st) ->
  Forall session_in_range (workers st').
Proof.
  intros [Hrate _] He H.
  assert (Hsig : Forall session_in_range (signalled st)).
  { apply Forall_signalled; [|exact H]. intros w Hw. exact Hw. }
  destruct He as [E _ | E _ | s0 text r Hr E _ | c wc _ _ _ E _]; rewrite E;
    auto.
  apply Forall_app. split; [exact Hsig|]. constructor; [|constructor].
  destruct (within_rate _ Hrate) as (r' & Hr' & Hrange).
  assert (r = r') by congruence. subst r'.
  split; [exact Hrange | apply clamp_within].
Qed.

Lemma step_sessions_in_range (st st' : t) :
  sliders_ok st -> step utcoffset st st' ->
  Forall session_in_range (workers st) ->
  Forall session_in_range (workers st').
Proof.
  intros Hok Hs H. destruct Hs as [ev s | n s | j o s s' Hx].
  - eapply effect_sessions_in_range; [exact Hok | apply dispatch_effect | exact H].
  - eapply effect_sessions_in_range;
      [exact Hok | apply _poll_worker_done_effect | exact H].
  - unfold worker_exit in Hx.
    destruct (workers s !! j) as [wj|] eqn:Hj; [|discriminate].
    destruct (_ && _); [|discriminate]. injection Hx as <-. simpl.
    apply Forall_insert; [exact H|].
    destruct (run_shape o wj) as (e' & -> & _).
    apply (Forall_elem session_in_range (workers s) wj H).
    eapply list_elem_of_lookup_2; eauto.
Qed.

(** X12: The sliders keep to their scales: in every reachable state the rate
    slider reads between 80 and 260 and the volume slider between 0 and
    100, whatever the engine gave as defaults and wherever the sliders were
    dragged.  So [int] of the rate is a number from 80 to 260, a speak
    request always returns, and every session constructed so far was given
    a rate from 80 to 260 and a volume from 0.0 to 1.0. *)
Theorem sliders_stay_on_their_scales (st : t) :
  reachable utcoffset st ->
  within 80 260 (sld_rate st)
  /\ within 0 100 (sld_volume st)
  /\ (exists r, py_int_of_float (sld_rate st) = Some r /\ 80 <= r <= 260)
  /\ (forall text, fst (_speak_text text st) = Ret tt)
  /\ Forall session_in_range (workers st).
Proof.
  intros Hr. destruct (reachable_sliders_ok utcoffset st Hr) as [H1 H2].
  destruct (reachable_rate utcoffset st Hr) as (r & Hrate & Hrange).
  split; [exact H1|]. split; [exact H2|]. split; [eauto|]. split.
  - intros text. rewrite _speak_text_spec, Hrate. reflexivity.
  - clear - Hr. induction Hr as [vs label r v err | st st' Hr IH Hs].
    + constructor.
    + eapply step_sessions_in_range;
        [apply (reachable_sliders_ok utcoffset); exact Hr | exact Hs | exact IH].
Qed.

(** X13: [send_message] keeps the content of the input box, so that sending
    again, with nothing typed in between, stores the same text under the
    next id. *)
Theorem resend_repeats_the_text (st : t) (t1 t2 : Z) :
  strip (txt_input st) <> [] ->
  txt_input (dispatch utcoffset (Send t1) st) = txt_input st
  /\ messages (play utcoffset [Send t1; Send t2] st)
     = messages st
       ++ [ {| Message.id := next_id st; Message.ts := t1;
               Message.text := strip (txt_input st) |};
            {| Message.id := next_id st + 1; Message.ts := t2;
               Message.text := strip (txt_input st) |} ].
Proof.
  intros Hne.
  assert (Hin : txt_input (dispatch utcoffset (Send t1) st) = txt_input st).
  { unfold dispatch. simpl. rewrite send_message_spec by exact Hne.
    destruct (auto_speak_var st); [|reflexivity].
    rewrite _speak_text_spec.
    destruct (py_int_of_float _); reflexivity. }
  split; [exact Hin|]. simpl.
  destruct (send_message_appends utcoffset t1 st Hne) as [M1 N1].
  assert (Hne2 : strip (txt_input (dispatch utcoffset (Send t1) st)) <> [])
    by (rewrite Hin; exact Hne).
  destruct (send_message_appends utcoffset t2 _ Hne2) as [M2 _].
  rewrite M2, M1. unfold submitted. rewrite N1, Hin, <- app_assoc.
  reflexivity.
Qed.

End Replay.

Lemma replay_speaks_the_clicked_message_witness :
  reachable Clock.UTC world_clicked
  /\ in_sync Clock.UTC world_clicked
  /\ exists st' w,
       ChatTTSApp._ctx_replay world_clicked = (Ret tt, st')
       /\ ChatTTSApp.workers st' !! 2%nat = Some w
       /\ SpeechWorker.text w = py "World".
Proof.
  assert (H1 : in_sync Clock.UTC world_clicked) by reflexivity.
  split; [apply world_clicked_reachable|]. split; [exact H1|].
  destruct (replay_speaks_the_clicked_message Clock.UTC world_clicked 1
              {| Message.id := 2; Message.ts := 1000000;
                 Message.text := py "World" |} 180
              world_clicked_reachable H1 eq_refl eq_refl eq_refl)
    as (st' & w & E & _ & Hw & Ht & _).
  exists st', w. auto.
Defined.

Lemma replay_last_speaks_the_newest_witness :
  last (ChatTTSApp.messages hello_world_sent)
  = Some {| Message.id := 2; Message.ts := 1000000;
            Message.text := py "World" |}
  /\ ChatTTSApp.replay_last hello_world_sent
     = ChatTTSApp._speak_text (py "World") hello_world_sent
  /\ exists w,
       ChatTTSApp.workers (snd (ChatTTSApp.replay_last hello_world_sent))
         !! 2%nat = Some w
       /\ SpeechWorker.text w = py "World".
Proof.
  assert (Hl : last (ChatTTSApp.messages hello_world_sent)
               = Some {| Message.id := 2; Message.ts := 1000000;
                         Message.text := py "World" |})
    by (vm_compute; reflexivity).
  assert (Hrate : py_int_of_float (ChatTTSApp.sld_rate hello_world_sent)
                  = Some 180) by (vm_compute; reflexivity).
  destruct (proj2 (replay_last_speaks_the_newest hello_world_sent) _ Hl)
    as (E & _ & _ & H).
  split; [exact Hl|]. split; [exact E|].
  exact (H 180 Hrate).
Defined.

Lemma handlers_raise_only_when_the_file_fails_witness :
  reachable Clock.UTC hello_sent
  /\ handler Clock.UTC
       (ExportFails (py "out.txt")
          (OpenFails (Exception (py "Permission denied")))) hello_sent
     = (Raise (Exception (py "Permission denied")), hello_sent).
Proof.
  assert (Hr : reachable Clock.UTC hello_sent).
  { unfold hello_sent. apply reachable_play, reachable_bare. }
  assert (Hm : ChatTTSApp.messages hello_sent <> [])
    by (vm_compute; discriminate).
  split; [exact Hr|].
  exact (proj1 (proj2 (handlers_raise_only_when_the_file_fails Clock.UTC
                         (Edit []) hello_sent Hr)
                  (py "out.txt") (Exception (py "Permission denied"))
                  Hm ltac:(discriminate))).
Defined.

Lemma sliders_stay_on_their_scales_witness :
  reachable Clock.UTC rate_dragged
  /\ ChatTTSApp.sld_rate rate_dragged = 260%float
  /\ ChatTTSApp.sld_volume rate_dragged = 0%float
  /\ exists r, py_int_of_float (ChatTTSApp.sld_rate rate_dragged) = Some r
               /\ 80 <= r <= 260.
Proof.
  assert (Hr : reachable Clock.UTC rate_dragged).
  { unfold rate_dragged. apply reachable_play.
    unfold hello_sent. apply reachable_play, reachable_bare. }
  split; [exact Hr|]. split; [vm_compute; reflexivity|].
  split; [vm_compute; reflexivity|].
  destruct (sliders_stay_on_their_scales Clock.UTC rate_dragged Hr)
    as (_ & _ & H & _).
  exact H.
Defined.

Lemma resend_repeats_the_text_witness :
  strip (ChatTTSApp.txt_input hello_sent) <> []
  /\ map Message.text
       (ChatTTSApp.messages (play Clock.UTC [Send 5; Send 6] hello_sent))
     = [py "Hello"; py "Hello"; py "Hello"].
Proof.
  assert (Hne : strip (ChatTTSApp.txt_input hello_sent) <> [])
    by (vm_compute; discriminate).
  split; [exact Hne|].
  rewrite (proj2 (resend_repeats_the_text Clock.UTC hello_sent 5 6 Hne)).
  reflexivity.
Defined.

(* ================================================================== *)
(** * Export, clear, delete and poll at their edges *)
(* ================================================================== *)

Section Edges.
Variable utcoffset : Z -> Z.
Import ChatTTSApp.

Ltac monad :=
  unfold bind, get, modify, ret, raise, showdialog, _set_status; simpl.


(** X15: [clear_log] does nothing on an empty history or when the user answers
    no.  Confirmed on a history that is not empty, it empties history and
    transcript and nothing else: the id counter goes on, the sessions are
    not touched, so a running utterance keeps running; after it there is
    nothing to replay or to export. *)
Theorem clear_log_empties_the_history_only (st : t) (yes : bool) :
  let st' := dispatch utcoffset (ClearLog yes) st in
  (messages st = [] \/ yes = false -> st' = st)
  /\ (messages st <> [] -> yes = true ->
      messages st' = [] /\ txt_log st' = []
      /\ next_id st' = next_id st /\ workers st' = workers st
      /\ current_worker st' = current_worker st
      /\ lbl_status st' = lbl_status st
      /\ dispatch utcoffset ReplayLast st' = st'
      /\ forall path, files (dispatch utcoffset (ExportLog path) st') = files st).
Proof.
  intros st'. subst st'. unfold dispatch. simpl. unfold clear_log. monad.
  split.
  - intros [E | ->]; [rewrite E; reflexivity|].
    destruct (messages st); reflexivity.
  - intros Hne ->. destruct (messages st) as [|m l] eqn:E; [congruence|].
    simpl. repeat split; reflexivity.
Qed.

(** X16: [_ctx_delete] always returns.  Without a right click before it, it
    changes nothing.  With one, the widget loses the line clicked: a line
    above the last one goes with its newline; at the last line of the
    widget (the empty line below the transcript, as a rule) the line before
    it loses its newline and becomes the last line; an index beyond is the
    end of the text, where nothing is deleted.  The history loses the
    messages whose id the line reads as, which are none when the line does
    not read as an id (a line of text below the first line of a message, a
    numeral of more digits than [int] takes) or when no message carries the
    id. *)
Theorem delete_at_a_line_without_message (st : t) :
  fst (_ctx_delete st) = Ret tt
  /\ (rc_click_index st = None -> dispatch utcoffset CtxDelete st = st)
  /\ (forall i, rc_click_index st = Some i ->
        let st' := dispatch utcoffset CtxDelete st in
        ((i < length (txt_log st))%nat ->
         txt_log st' = delete i (txt_log st)
         /\ txt_log_tail st' = txt_log_tail st)
        /\ (i = length (txt_log st) ->
            txt_log st' = removelast (txt_log st)
            /\ txt_log_tail st' = List.last (txt_log st) [])
        /\ ((length (txt_log st) < i)%nat ->
            txt_log st' = txt_log st /\ txt_log_tail st' = txt_log_tail st)
        /\ (line_id (text_line st i) = None -> messages st' = messages st)
        /\ (forall k, line_id (text_line st i) = Some k ->
              messages st'
              = filter (fun m => Message.id m <> k) (messages st)
              /\ (Forall (fun m => Message.id m <> k) (messages st) ->
                  messages st' = messages st)))
  /\ (forall digits, (int_max_str_digits < length digits)%nat ->
        Forall (fun c => is_digit c = true) digits ->
        forall rest, line_id (py "[" ++ digits ++ py " " ++ rest) = None).
Proof.
  split; [|split; [|split]].
  - destruct (rc_click_index st) as [i|] eqn:Hi.
    + rewrite (_ctx_delete_spec st i Hi). reflexivity.
    + unfold _ctx_delete, try_except, clicked_line. monad. rewrite Hi.
      reflexivity.
  - intros Hi. unfold dispatch. simpl.
    unfold _ctx_delete, try_except, clicked_line. monad. rewrite Hi.
    reflexivity.
  - intros i Hi st'. subst st'. unfold dispatch. simpl.
    rewrite (_ctx_delete_spec st i Hi).
    assert (Hlog : forall s, txt_log s = txt_log st ->
              txt_log_tail s = txt_log_tail st ->
              ((i < length (txt_log st))%nat ->
               txt_log (text_delete_line i s) = delete i (txt_log st)
               /\ txt_log_tail (text_delete_line i s) = txt_log_tail st)
              /\ (i = length (txt_log st) ->
                  txt_log (text_delete_line i s) = removelast (txt_log st)
                  /\ txt_log_tail (text_delete_line i s)
                     = List.last (txt_log st) [])
              /\ ((length (txt_log st) < i)%nat ->
                  txt_log (text_delete_line i s) = txt_log st
                  /\ txt_log_tail (text_delete_line i s) = txt_log_tail st)).
    { intros s E1 E2. simpl. rewrite E1, E2.
      split; [|split]; intros H.
      - rewrite (proj2 (Nat.ltb_lt _ _) H).
        rewrite (proj2 (Nat.eqb_neq _ _)) by lia. auto.
      - subst i. rewrite Nat.ltb_irrefl, Nat.eqb_refl. auto.
      - rewrite (proj2 (Nat.ltb_ge _ _)) by lia.
        rewrite (proj2 (Nat.eqb_neq _ _)) by lia. auto. }
    destruct (line_id (text_line st i)) as [k|].
    + destruct (Hlog (set_messages
                        (filter (fun m => Message.id m <> k) (messages st)) st)
                  eq_refl eq_refl) as (L1 & L2 & L3).
      split; [exact L1|]. split; [exact L2|]. split; [exact L3|].
      split; [discriminate|]. intros k' Hk. injection Hk as <-.
      split; [reflexivity|]. intros Hall. apply filter_all. exact Hall.
    + destruct (Hlog st eq_refl eq_refl) as (L1 & L2 & L3).
      split; [exact L1|]. split; [exact L2|]. split; [exact L3|].
      split; [reflexivity | discriminate].
  - intros digits Hlen Hd rest. apply line_id_too_long; assumption.
Qed.

(** X17: A poll (not re-entered) that finds the current worker alive
    changes nothing; a poll that finds it dead clears the reference, after
    which polling again changes nothing more. *)
Theorem poll_settles (st : t) :
  (forall i w, current_worker st = Some i -> workers st !! i = Some w ->
     SpeechWorker.is_alive w = true -> dispatch utcoffset Poll st = st)
  /\ (forall i w, current_worker st = Some i -> workers st !! i = Some w ->
       SpeechWorker.is_alive w = false ->
       current_worker (dispatch utcoffset Poll st) = None
       /\ lbl_status (dispatch utcoffset Poll st) = Idle
       /\ workers (dispatch utcoffset Poll st) = workers st
       /\ messages (dispatch utcoffset Poll st) = messages st)
  /\ dispatch utcoffset Poll (dispatch utcoffset Poll st)
     = dispatch utcoffset Poll st.
Proof.
  split; [|split].
  - intros i w Hc Hw Ha. rewrite dispatch_Poll_spec, Hc, Hw, Ha.
    reflexivity.
  - intros i w Hc Hw Ha. rewrite dispatch_Poll_spec, Hc, Hw, Ha.
    destruct (SpeechWorker.exc w); simpl; auto.
  - rewrite (dispatch_Poll_spec utcoffset st).
    destruct (current_worker st) as [i|] eqn:Hc;
      [|rewrite dispatch_Poll_spec, Hc; reflexivity].
    destruct (workers st !! i) as [w|] eqn:Hw;
      [|rewrite dispatch_Poll_spec, Hc, Hw; reflexivity].
    destruct (SpeechWorker.is_alive w) eqn:Ha;
      [rewrite dispatch_Poll_spec, Hc, Hw, Ha; reflexivity|].
    rewrite dispatch_Poll_spec. reflexivity.
Qed.

Lemma history_change_bounds (st st' : t) :
  history_change st st' ->
  Z.of_nat (length (messages st)) < next_id st
  /\ Forall (fun m => 1 <= Message.id m) (messages st) ->
  Z.of_nat (length (messages st')) < next_id st'
  /\ Forall (fun m => 1 <= Message.id m) (messages st').
Proof.
  intros [Hm Hn | now Hne Hm Hn | Hm Hn | k Hm Hn] [Hlen Hpos];
    rewrite Hm, Hn.
  - auto.
  - split; [rewrite length_app; simpl; lia|].
    apply Forall_app. split; [exact Hpos|]. constructor; [|constructor].
    simpl. lia.
  - split; [simpl; lia | constructor].
  - split; [|apply Forall_filter_keep; exact Hpos].
    pose proof (length_filter (fun m => Message.id m <> k) (messages st)). lia.
Qed.

(** X18: The ids of the history are positive and below the counter, and the
    history never holds more messages than ids were given out. *)
Theorem ids_count_the_submissions (st : t) :
  reachable utcoffset st ->
  1 <= next_id st
  /\ Z.of_nat (length (messages st)) <= next_id st - 1
  /\ Forall (fun m => 1 <= Message.id m < next_id st) (messages st).
Proof.
  intros Hr.
  assert (H : Z.of_nat (length (messages st)) < next_id st
              /\ Forall (fun m => 1 <= Message.id m) (messages st)).
  { induction Hr as [vs label r v err | st st' Hr IH Hs].
    - simpl. split; [lia | constructor].
    - eapply history_change_bounds; [apply (step_history utcoffset); exact Hs|].
      exact IH. }
  destruct H as [Hlen Hpos].
  destruct (reachable_ids_fresh utcoffset st Hr) as [_ Hbelow].
  split; [lia|]. split; [lia|].
  apply List.Forall_forall. intros m Hm. apply list_elem_of_In in Hm.
  pose proof (Forall_elem _ _ _ Hpos Hm).
  pose proof (Forall_elem _ _ _ Hbelow Hm). simpl in *. lia.
Qed.

End Edges.

Lemma clear_log_empties_the_history_only_witness :
  ChatTTSApp.messages hello_world_sent <> []
  /\ ChatTTSApp.txt_log (dispatch Clock.UTC (ClearLog true) hello_world_sent) = []
  /\ ChatTTSApp.next_id (dispatch Clock.UTC (ClearLog true) hello_world_sent) = 3.
Proof.
  assert (Hne : ChatTTSApp.messages hello_world_sent <> [])
    by (vm_compute; discriminate).
  split; [exact Hne|].
  destruct (proj2 (clear_log_empties_the_history_only Clock.UTC
                     hello_world_sent true) Hne eq_refl)
    as (_ & H1 & H2 & _).
  split; [exact H1 | rewrite H2; reflexivity].
Defined.


Lemma delete_at_a_line_without_message_witness :
  ChatTTSApp.rc_click_index continuation_clicked = Some 1%nat
  /\ line_id (ChatTTSApp.text_line continuation_clicked 1) = None
  /\ ChatTTSApp.txt_log (dispatch Clock.UTC CtxDelete continuation_clicked)
     = [py "[001 00:00:00] a"]
  /\ ChatTTSApp.messages (dispatch Clock.UTC CtxDelete continuation_clicked)
     = ChatTTSApp.messages continuation_clicked
  /\ ChatTTSApp.txt_log_tail (dispatch Clock.UTC CtxDelete below_clicked)
     = py "[002 00:00:01] World".
Proof.
  assert (Hn : line_id (ChatTTSApp.text_line continuation_clicked 1) = None)
    by (vm_compute; reflexivity).
  assert (Hc : ChatTTSApp.rc_click_index continuation_clicked = Some 1%nat)
    by (vm_compute; reflexivity).
  assert (Hb : ChatTTSApp.rc_click_index below_clicked = Some 2%nat)
    by (vm_compute; reflexivity).
  assert (L1 : (1 < length (ChatTTSApp.txt_log continuation_clicked))%nat)
    by (vm_compute; lia).
  assert (L2 : 2%nat = length (ChatTTSApp.txt_log below_clicked))
    by (vm_compute; reflexivity).
  split; [exact Hc|]. split; [exact Hn|].
  pose proof (delete_at_a_line_without_message Clock.UTC continuation_clicked)
    as (_ & _ & H & _).
  pose proof (H 1%nat Hc) as (H1 & _ & _ & H2 & _).
  pose proof (delete_at_a_line_without_message Clock.UTC below_clicked)
    as (_ & _ & H' & _).
  pose proof (H' 2%nat Hb) as (_ & H3 & _).
  split; [|split; [exact (H2 Hn)|]].
  - rewrite (proj1 (H1 L1)). vm_compute. reflexivity.
  - rewrite (proj2 (H3 L2)). vm_compute. reflexivity.
Defined.

Lemma poll_settles_witness :
  ChatTTSApp.current_worker hello_sent = Some 0%nat
  /\ dispatch Clock.UTC Poll hello_sent = hello_sent.
Proof.
  assert (Hc : ChatTTSApp.current_worker hello_sent = Some 0%nat)
    by (vm_compute; reflexivity).
  split; [exact Hc|].
  destruct (ChatTTSApp.workers hello_sent !! 0%nat) as [w|] eqn:Hw;
    [|vm_compute in Hw; discriminate Hw].
  assert (Ha : SpeechWorker.is_alive w = true).
  { assert (E : SpeechWorker.is_alive
                  <$> ChatTTSApp.workers hello_sent !! 0%nat = Some true)
      by (vm_compute; reflexivity).
    rewrite Hw in E. injection E as E. exact E. }
  exact (proj1 (poll_settles Clock.UTC hello_sent) 0%nat w Hc Hw Ha).
Defined.

Lemma ids_count_the_submissions_witness :
  reachable Clock.UTC world_clicked
  /\ Z.of_nat (length (ChatTTSApp.messages world_clicked))
     <= ChatTTSApp.next_id world_clicked - 1.
Proof.
  split; [apply world_clicked_reachable|].
  exact (proj1 (proj2 (ids_count_the_submissions Clock.UTC world_clicked
                         world_clicked_reachable))).
Defined.

(* ================================================================== *)
(** * The selected voice *)
(* ================================================================== *)

Section Voices.
Import ChatTTSApp.

Lemma index_of_voice_some (d : pystr) (vs : list Voice) (i : nat) :
  index_of_voice d vs = Some i ->
  exists v, vs !! i = Some v /\ voice_ident v = d.
Proof.
  revert i. induction vs as [|x vs IH]; intros i H; [discriminate|].
  simpl in H. destruct (bool_decide (voice_ident x = d)) eqn:E.
  - injection H as <-. apply bool_decide_eq_true in E. eauto.
  - destruct (index_of_voice d vs) as [j|]; [|discriminate].
    injection H as <-. destruct (IH j eq_refl) as (v & Hv & Hd). eauto.
Qed.

Lemma index_of_voice_none (d : pystr) (vs : list Voice) :
  index_of_voice d vs = None -> Forall (fun v => voice_ident v <> d) vs.
Proof.
  induction vs as [|x vs IH]; intros H; [constructor|].
  simpl in H. destruct (bool_decide (voice_ident x = d)) eqn:E; [discriminate|].
  apply bool_decide_eq_false in E.
  destruct (index_of_voice d vs); [discriminate|].
  constructor; auto.
Qed.

Lemma index_of_voice_found (d : pystr) (vs : list Voice) (v : Voice) :
  v ∈ vs -> voice_ident v = d -> is_Some (index_of_voice d vs).
Proof.
  intros Hv Hd. destruct (index_of_voice d vs) eqn:E; [eauto|].
  apply index_of_voice_none in E.
  pose proof (Forall_elem _ _ _ E Hv). contradiction.
Qed.

Lemma find_by_label (vs : list Voice) (i : nat) (v : Voice) :
  NoDup (map voice_label vs) -> vs !! i = Some v ->
  List.find (fun v' => bool_decide (voice_label v' = voice_label v)) vs
  = Some v.
Proof.
  revert i. induction vs as [|x vs IH]; intros i Hnd Hi; [discriminate|].
  simpl in Hnd. apply NoDup_cons in Hnd as [Hx Hnd].
  destruct i as [|i]; simpl in *.
  - injection Hi as ->. rewrite bool_decide_eq_true_2 by reflexivity.
    reflexivity.
  - rewrite bool_decide_eq_false_2; [eapply IH; eauto|].
    intros E. apply Hx. rewrite E. apply list_elem_of_fmap.
    exists v. split; [reflexivity|]. eapply list_elem_of_lookup_2; eauto.
Qed.

Lemma _current_voice_id_at (vs : list Voice) (i : nat) (v : Voice)
    (rate0 volume0 : float) (err : option pyexc) :
  NoDup (map voice_label vs) -> vs !! i = Some v -> voice_label v <> [] ->
  _current_voice_id (init vs (voice_label v) rate0 volume0 err)
  = Some (voice_ident v).
Proof.
  intros Hnd Hi Hl. unfold _current_voice_id. simpl.
  destruct (voice_label v) as [|c l] eqn:E; [congruence|].
  destruct vs as [|v0 vs']; [discriminate|].
  rewrite <- E. rewrite (find_by_label (v0 :: vs') i v Hnd Hi). reflexivity.
Qed.

Lemma find_first (P : Voice -> bool) (pre post : list Voice) (v : Voice) :
  Forall (fun x => P x = false) pre -> P v = true ->
  List.find P (pre ++ v :: post) = Some v.
Proof.
  intros Hpre Hv. induction Hpre as [|x pre Hx _ IH]; simpl.
  - rewrite Hv. reflexivity.
  - rewrite Hx. exact IH.
Qed.

Lemma find_none (P : Voice -> bool) (l : list Voice) :
  Forall (fun x => P x = false) l -> List.find P l = None.
Proof.
  induction 1 as [|x l Hx _ IH]; simpl; [reflexivity|]. rewrite Hx. exact IH.
Qed.

(** X19: The voice a session is given is never one the engine did not list:
    [_current_voice_id] yields nothing exactly when nothing is selected or
    there are no voices; otherwise it yields the id of the first voice that
    has the selected label, and the id of the first voice of all when no
    voice has that label. *)
Theorem current_voice_is_a_listed_voice (st : t) :
  (_current_voice_id st = None <-> cmb_voice st = [] \/ voices st = [])
  /\ (forall d, _current_voice_id st = Some d ->
        exists v, v ∈ voices st /\ voice_ident v = d)
  /\ (forall pre v post,
        cmb_voice st <> [] ->
        voices st = pre ++ v :: post ->
        Forall (fun v' => voice_label v' <> cmb_voice st) pre ->
        voice_label v = cmb_voice st ->
        _current_voice_id st = Some (voice_ident v))
  /\ (forall v0 vs,
        cmb_voice st <> [] ->
        voices st = v0 :: vs ->
        Forall (fun v' => voice_label v' <> cmb_voice st) (v0 :: vs) ->
        _current_voice_id st = Some (voice_ident v0)).
Proof.
  unfold _current_voice_id. split; [|split; [|split]].
  - destruct (cmb_voice st) as [|c l]; [tauto|].
    destruct (voices st) as [|v0 vs]; [tauto|].
    destruct (List.find _ (v0 :: vs));
      (split; [discriminate | intros [?|?]; discriminate]).
  - destruct (cmb_voice st) as [|c l]; [discriminate|].
    destruct (voices st) as [|v0 vs]; [discriminate|].
    destruct (List.find _ (v0 :: vs)) as [v|] eqn:E.
    + intros d Hd. injection Hd as <-. exists v. split; [|reflexivity].
      apply find_some in E as [E _]. apply list_elem_of_In. exact E.
    + intros d Hd. injection Hd as <-. exists v0. split; [|reflexivity].
      apply list_elem_of_here.
  - intros pre v post Hl Hv Hpre Hlab.
    destruct (cmb_voice st) as [|c l] eqn:El; [congruence|].
    rewrite Hv. destruct (pre ++ v :: post) as [|v0 vs] eqn:Evs.
    { destruct pre; discriminate. }
    rewrite <- Evs. rewrite (find_first _ pre post v); [reflexivity| |].
    + eapply Forall_impl; [exact Hpre|]. simpl. intros x Hx.
      apply bool_decide_eq_false_2. exact Hx.
    + apply bool_decide_eq_true_2. exact Hlab.
  - intros v0 vs Hl Hv Hall.
    destruct (cmb_voice st) as [|c l] eqn:El; [congruence|].
    rewrite Hv. rewrite find_none; [reflexivity|].
    eapply Forall_impl; [exact Hall|]. simpl. intros x Hx.
    apply bool_decide_eq_false_2. exact Hx.
Qed.

(** X20: With voices of distinct, non-empty labels, the label that [_build_ui]
    preselects leads [_current_voice_id] back to the default voice id when
    a listed voice has it, and to the first voice otherwise. *)
Theorem preselected_voice_is_current (vs : list Voice) (d : pystr)
    (rate0 volume0 : float) (err : option pyexc) :
  NoDup (map voice_label vs) ->
  Forall (fun v => voice_label v <> []) vs ->
  let st := init vs (preselected vs d) rate0 volume0 err in
  ((exists v, v ∈ vs /\ voice_ident v = d) -> _current_voice_id st = Some d)
  /\ (Forall (fun v => voice_ident v <> d) vs ->
      _current_voice_id st = option_map voice_ident (head vs)).
Proof.
  intros Hnd Hne st. subst st. split.
  - intros (v & Hv & Hd).
    destruct (index_of_voice_found d vs v Hv Hd) as [i Hi].
    destruct (index_of_voice_some d vs i Hi) as (v' & Hv' & Hd').
    assert (E : preselected vs d = voice_label v').
    { unfold preselected. destruct vs as [|v0 vs']; [discriminate|].
      rewrite Hi. change (default 0%nat (Some i)) with i.
      rewrite list_lookup_fmap, Hv'. reflexivity. }
    rewrite E, <- Hd'. apply (_current_voice_id_at vs i v'); auto.
    eapply (Forall_elem _ _ _ Hne). eapply list_elem_of_lookup_2; eauto.
  - intros Hall. destruct vs as [|v0 vs']; [reflexivity|].
    assert (Hi : index_of_voice d (v0 :: vs') = None).
    { destruct (index_of_voice d (v0 :: vs')) as [i|] eqn:E; [|reflexivity].
      destruct (index_of_voice_some _ _ _ E) as (v & Hv & Hd).
      exfalso. eapply (Forall_elem _ _ _ Hall); [|exact Hd].
      eapply list_elem_of_lookup_2; eauto. }
    assert (E : preselected (v0 :: vs') d = voice_label v0).
    { unfold preselected. rewrite Hi. reflexivity. }
    rewrite E. simpl head. simpl option_map.
    apply (_current_voice_id_at (v0 :: vs') 0 v0); auto.
    inversion Hne; assumption.
Qed.

End Voices.

Lemma current_voice_is_a_listed_voice_witness :
  ChatTTSApp.cmb_voice
    (ChatTTSApp.init two_voices (py "Mei-Jia  (zh_TW)") 180 100 None) <> []
  /\ ChatTTSApp._current_voice_id
       (ChatTTSApp.init two_voices (py "Mei-Jia  (zh_TW)") 180 100 None)
     = Some (py "v.zh")
  /\ ChatTTSApp._current_voice_id
       (ChatTTSApp.init two_voices (py "Samantha") 180 100 None)
     = Some (py "v.en").
Proof.
  assert (H1 : ChatTTSApp.cmb_voice
                 (ChatTTSApp.init two_voices (py "Mei-Jia  (zh_TW)") 180 100
                    None) <> []) by discriminate.
  assert (H2 : ChatTTSApp.cmb_voice
                 (ChatTTSApp.init two_voices (py "Samantha") 180 100 None)
               <> []) by discriminate.
  split; [exact H1|]. split.
  - destruct (current_voice_is_a_listed_voice
                (ChatTTSApp.init two_voices (py "Mei-Jia  (zh_TW)") 180 100
                   None)) as (_ & _ & H & _).
    apply (H [ {| voice_ident := py "v.en"; voice_name := Some (py "Anna");
                  voice_languages := [py "en_US"] |} ]
             {| voice_ident := py "v.zh"; voice_name := Some (py "Mei-Jia");
                voice_languages := [py "zh_TW"] |} [] H1 eq_refl);
      [|reflexivity].
    constructor; [discriminate | constructor].
  - destruct (current_voice_is_a_listed_voice
                (ChatTTSApp.init two_voices (py "Samantha") 180 100 None))
      as (_ & _ & _ & H).
    apply (H _ _ H2 eq_refl).
    constructor; [discriminate|]. constructor; [discriminate | constructor].
Defined.

Lemma preselected_voice_is_current_witness :
  NoDup (map voice_label two_voices)
  /\ preselected two_voices (py "v.zh") = py "Mei-Jia  (zh_TW)"
  /\ ChatTTSApp._current_voice_id
       (ChatTTSApp.init two_voices (preselected two_voices (py "v.zh"))
          180 100 None)
     = Some (py "v.zh").
Proof.
  assert (Hnd : NoDup (map voice_label two_voices)).
  { apply NoDup_cons. split.
    - rewrite list_elem_of_singleton. discriminate.
    - apply NoDup_singleton. }
  assert (Hne : Forall (fun v => voice_label v <> []) two_voices).
  { repeat constructor; discriminate. }
  split; [exact Hnd|]. split; [reflexivity|].
  apply (proj1 (preselected_voice_is_current two_voices (py "v.zh") 180 100
                  None Hnd Hne)).
  eexists. split; [apply list_elem_of_further, list_elem_of_here | reflexivity].
Defined.

(* ================================================================== *)
(** * The life of a session, end to end *)
(* ================================================================== *)

Section Life.
Variable utcoffset : Z -> Z.
Import ChatTTSApp.

Lemma effect_superseded (s s' : t) :
  handler_effect s s' ->
  (length (workers s) <= length (workers s'))%nat
  /\ (forall i, (i < length (workers s))%nat ->
        current_worker s <> Some i -> current_worker s' <> Some i).
Proof.
  intros [E C | E C | s0 text r _ E C | c wc _ _ _ E C]; rewrite E, C.
  - auto.
  - rewrite length_signalled. auto.
  - rewrite length_app, length_signalled. simpl. split; [lia|].
    intros i Hi _ H. injection H as H. lia.
  - split; [lia | discriminate].
Qed.

Lemma step_superseded (s s' : t) :
  step utcoffset s s' ->
  (length (workers s) <= length (workers s'))%nat
  /\ (forall i, (i < length (workers s))%nat ->
        current_worker s <> Some i -> current_worker s' <> Some i).
Proof.
  intros [ev st | n st | j o st st' Hx].
  - apply effect_superseded, dispatch_effect.
  - apply effect_superseded, _poll_worker_done_effect.
  - unfold worker_exit in Hx. destruct (workers st !! j); [|discriminate].
    destruct (_ && _); [|discriminate]. injection Hx as <-. simpl.
    rewrite length_insert. auto.
Qed.

(** X21: A session that has been replaced, or dropped by a poll, is never the
    current one again: whatever it captures later, no poll looks at it. *)
Theorem superseded_session_is_never_current_again (st st' : t) (i : nat) :
  rtc (step utcoffset) st st' ->
  (i < length (workers st))%nat ->
  current_worker st <> Some i ->
  current_worker st' <> Some i
  /\ (length (workers st) <= length (workers st'))%nat.
Proof.
  intros Hs. induction Hs as [x | x y z Hxy Hyz IH]; intros Hi Hc.
  - auto.
  - destruct (step_superseded x y Hxy) as [Hlen Hkeep].
    destruct IH as [IH1 IH2]; [lia | apply Hkeep; assumption|].
    split; [exact IH1 | lia].
Qed.

(** X22: The user stops a running utterance; its worker meets the cancel flag
    at a word boundary and ends; the next poll then clears the current
    worker and shows no message box. *)
Theorem stopped_utterance_is_cleared_silently (st st2 : t) (i : nat)
    (w : SpeechWorker.t) (o : engine_run) :
  current_worker st = Some i ->
  workers st !! i = Some w ->
  SpeechWorker.is_alive w = true ->
  SpeechWorker.exc w = None ->
  utterance_started o ->
  In true (word_flags o) ->
  worker_exit i o (dispatch utcoffset StopSpeaking st) = Some st2 ->
  let st3 := dispatch utcoffset Poll st2 in
  workers st2 !! i
  = Some (SpeechWorker.set_thread Dead (SpeechWorker.stop w))
  /\ dialogs st3 = dialogs st
  /\ current_worker st3 = None
  /\ lbl_status st3 = Idle
  /\ messages st3 = messages st.
Proof.
  intros Hc Hw Ha He Hstart Hseen Hx st3. subst st3.
  unfold dispatch in Hx. simpl in Hx. rewrite stop_speaking_spec in Hx.
  simpl in Hx. unfold worker_exit in Hx. simpl in Hx.
  assert (Hsig : signalled st !! i = Some (SpeechWorker.stop w)).
  { unfold signalled. rewrite Hc, Hw, Ha.
    apply list_lookup_insert_eq. eapply lookup_lt_Some; eauto. }
  rewrite Hsig in Hx.
  destruct (_ && _); [|discriminate]. injection Hx as <-. simpl.
  rewrite (run_cancelled o (SpeechWorker.stop w) Hstart Hseen).
  assert (Hlook :
    <[i := SpeechWorker.set_thread Dead (SpeechWorker.stop w)]> (signalled st)
      !! i = Some (SpeechWorker.set_thread Dead (SpeechWorker.stop w))).
  { apply list_lookup_insert_eq. rewrite length_signalled.
    eapply lookup_lt_Some; eauto. }
  split; [exact Hlook|].
  rewrite dispatch_Poll_spec. simpl. rewrite Hc, Hlook. simpl.
  rewrite He. simpl. auto.
Qed.

(** A run of moves is a run of steps. *)
Lemma run_moves_steps (mvs : list move) (st st' : t) :
  run_moves utcoffset mvs st = Some st' -> rtc (step utcoffset) st st'.
Proof.
  revert st. induction mvs as [|mv mvs IH]; intros st H; simpl in H.
  - injection H as <-. apply rtc_refl.
  - destruct (make utcoffset mv st) as [s|] eqn:E; [|discriminate].
    eapply rtc_l; [|apply IH; exact H].
    destruct mv as [ev | j o]; simpl in E.
    + injection E as <-. apply step_event.
    + eapply step_worker. exact E.
Qed.

End Life.

Lemma superseded_session_is_never_current_again_witness :
  rtc (step Clock.UTC) hello_world_sent hello_world_later
  /\ (0 < length (ChatTTSApp.workers hello_world_sent))%nat
  /\ ChatTTSApp.current_worker hello_world_sent = Some 1%nat
  /\ map failed (ChatTTSApp.workers hello_world_later) = [true; false; false]
  /\ ChatTTSApp.current_worker hello_world_later = Some 2%nat
  /\ ChatTTSApp.current_worker hello_world_later <> Some 0%nat.
Proof.
  assert (Hrun : run_moves Clock.UTC
                   [Exit 0 broken_engine; Handle Poll; Handle ReplayLast;
                    Handle Poll] hello_world_sent
                 = Some hello_world_later) by (vm_compute; reflexivity).
  assert (H1 : rtc (step Clock.UTC) hello_world_sent hello_world_later)
    by (exact (run_moves_steps Clock.UTC _ _ _ Hrun)).
  assert (H2 : (0 < length (ChatTTSApp.workers hello_world_sent))%nat)
    by (vm_compute; lia).
  assert (H3 : ChatTTSApp.current_worker hello_world_sent = Some 1%nat)
    by (vm_compute; reflexivity).
  split; [exact H1|]. split; [exact H2|]. split; [exact H3|].
  split; [vm_compute; reflexivity|]. split; [vm_compute; reflexivity|].
  apply (superseded_session_is_never_current_again Clock.UTC
           hello_world_sent hello_world_later 0 H1 H2).
  rewrite H3. discriminate.
Defined.

Lemma stopped_utterance_is_cleared_silently_witness :
  ChatTTSApp.current_worker hello_sent = Some 0%nat
  /\ utterance_started cancelled_engine
  /\ In true (word_flags cancelled_engine)
  /\ worker_exit 0 cancelled_engine hello_stopped = Some hello_cancelled
  /\ ChatTTSApp.dialogs (dispatch Clock.UTC Poll hello_cancelled)
     = ChatTTSApp.dialogs hello_sent
  /\ ChatTTSApp.current_worker (dispatch Clock.UTC Poll hello_cancelled) = None.
Proof.
  assert (Hs : utterance_started cancelled_engine) by (repeat split).
  assert (Hc : In true (word_flags cancelled_engine)) by (simpl; auto).
  assert (H0 : ChatTTSApp.current_worker hello_sent = Some 0%nat)
    by (vm_compute; reflexivity).
  assert (Hw : ChatTTSApp.workers hello_sent !! 0%nat
               = Some (SpeechWorker.start (session_for bare (py "Hello") 180)))
    by (vm_compute; reflexivity).
  assert (E : worker_exit 0 cancelled_engine
                (dispatch Clock.UTC StopSpeaking hello_sent)
              = Some hello_cancelled)
    by (vm_compute; reflexivity).
  split; [exact H0|]. split; [exact Hs|]. split; [exact Hc|].
  split; [exact E|].
  destruct (stopped_utterance_is_cleared_silently Clock.UTC hello_sent
              hello_cancelled 0
              (SpeechWorker.start (session_for bare (py "Hello") 180))
              cancelled_engine H0 Hw eq_refl eq_refl Hs Hc E)
    as (_ & H1 & H2 & _).
  split; [exact H1 | exact H2].
Defined.
Lemma run_always_ends_clean_witness :
  SpeechWorker.exc (fst (SpeechWorker.run_thread broken_engine stopping_worker))
  = Some (Exception (py "device lost"))
  /\ engine_raised broken_engine (Exception (py "device lost"))
  /\ snd (SpeechWorker.run_thread
            {| init_raises := Some (BaseException (py "interrupt"));
               set_voice_raises := None; set_rate_raises := None;
               set_volume_raises := None; connect_raises := None;
               say_raises := None; word_flags := [];
               runAndWait_raises := None; stop_raises := None;
               abort_stop_raises := None |} stopping_worker)
     = Some (BaseException (py "interrupt"))
  /\ is_Exception (BaseException (py "interrupt")) = false.
Proof.
  split; [vm_compute; reflexivity|]. split.
  - destruct (run_always_ends_clean broken_engine stopping_worker)
      as (e' & Hfst & [He | (msg & He & Hr)] & _).
    + exfalso.
      assert (E : SpeechWorker.exc
                    (fst (SpeechWorker.run_thread broken_engine
                            stopping_worker))
                  = Some (Exception (py "device lost")))
        by (vm_compute; reflexivity).
      rewrite Hfst, He in E. discriminate E.
    + assert (E : SpeechWorker.exc
                    (fst (SpeechWorker.run_thread broken_engine
                            stopping_worker))
                  = Some (Exception (py "device lost")))
        by (vm_compute; reflexivity).
      rewrite Hfst, He in E. simpl in E. injection E as E.
      rewrite E in Hr. exact Hr.
  - split; [reflexivity|].
    destruct (run_always_ends_clean
                {| init_raises := Some (BaseException (py "interrupt"));
                   set_voice_raises := None; set_rate_raises := None;
                   set_volume_raises := None; connect_raises := None;
                   say_raises := None; word_flags := [];
                   runAndWait_raises := None; stop_raises := None;
                   abort_stop_raises := None |} stopping_worker)
      as (e' & _ & _ & _ & _ & _ & H).
    exact (proj1 (H _ eq_refl)).
Defined.

Lemma stop_speaking_is_idempotent_witness :
  ChatTTSApp.current_worker hello_world_sent <> Some 0%nat
  /\ ChatTTSApp.workers
       (snd (ChatTTSApp.stop_speaking true hello_world_sent)) !! 0%nat
     = ChatTTSApp.workers hello_world_sent !! 0%nat.
Proof.
  assert (Hn : ChatTTSApp.current_worker hello_world_sent <> Some 0%nat)
    by discriminate.
  split; [exact Hn|].
  destruct (stop_speaking_is_idempotent hello_world_sent true true)
    as (_ & _ & _ & _ & _ & H).
  destruct (ChatTTSApp.workers hello_world_sent !! 0%nat) as [w|] eqn:E;
    [|vm_compute in E; discriminate].
  exact (H 0%nat w E Hn).
Defined.
